(** * Tool-call loop detector of openclaw-mini

    A shallow embedding of [stableStringify], [toolKey], [outcomeKey] and of
    the class [ToolLoopDetector] (src/tool-loop-detection.ts, the part of
    src/src/tools/web-fetch.ts headed "Tool Loop Detection"), followed by
    the properties of the detector.

    Also embedded, with their properties after those of the detector: the
    web tools ([truncate], [markdownFromText], [htmlToMarkdown], the cache,
    [runWebFetch], [resolveProvider], [resolvePerplexityAuth],
    [runWebSearch]), the helpers of the REPL ([discoverSkills],
    [extractAssistantText], [extractToolCalls]) and [loadContextFiles].
    What these read from outside the program (the clock, the environment,
    the network, the file system, the HTML and JSON parsers) is an argument
    of the embedded function.

    - JavaScript strings are byte strings ([string]): a code unit above 127
      is passed through by the serializer as it is, and [trim] strips the
      ASCII white space.
    - Values are the JSON shapes (null, booleans, numbers, strings, arrays,
      objects); numbers are the integral ones plus NaN and the infinities,
      and what is proved from the way a number prints is proved for the
      safe integers ([safeIntegers]), which are printed digit for digit;
      fractions, negative zero, [undefined], functions and class instances
      are not values here.
    - Arrays are lists; a plain object is the list of its properties in
      insertion order, and [wf] says that no key occurs twice in it.
    - The [Map] of warning buckets is a [gmap]; the detector instance is a
      record threaded through a small state monad, so that what a method
      reads and writes is explicit. *)

From Stdlib Require Import ZArith Ascii String List Decimal DecimalString DecimalZ DecimalNat Lia.
From stdpp Require Import gmap strings list sorting.

(** ** Characters used by the serializer *)

Definition dquote : ascii := "034"%char.
Definition backslash : ascii := "092"%char.
Definition newline : ascii := "010"%char.
Definition escape : ascii := "027"%char.

(** ** JavaScript values

    The values a tool receives as arguments or returns: the JSON shapes, plus
    the non-finite numbers that a JS number can also be.  [Int z] stands for
    the number [z].  When [z] is a safe integer ([|z| <= 2^53 - 1]) that is
    a JS number, and JS prints it in positional decimal notation.  A larger
    integer may not be a double, or is printed by JS with rounded digits or
    an exponent, and a fraction or negative zero has no value here: the
    theorems that depend on how numbers print assume [safeIntegers]. *)

Inductive number : Type :=
| Int (z : Z)
| NaN
| Infinity (negative : bool).

#[warnings="-register-all"]
Inductive value : Type :=
| VNull
| VBool (b : bool)
| VNum (n : number)
| VStr (s : string)
| VArr (items : list value)
| VObj (props : list (string * value)).

(** [obj[k]]: the first binding of [k], [None] standing for [undefined]. *)
Fixpoint prop {A : Type} (k : string) (props : list (string * A)) : option A :=
  match props with
  | [] => None
  | (k', v) :: rest => if String.eqb k' k then Some v else prop k rest
  end.

(** ** JSON.stringify on primitives *)

Definition hexDigit (n : N) : ascii :=
  ascii_of_N (if (n <? 10)%N then 48 + n else 87 + n)%N.

(** QuoteJSONString, one code unit at a time. *)
Definition escapeChar (c : ascii) : string :=
  let n := N_of_ascii c in
  if (n =? 8)%N then String backslash "b"
  else if (n =? 9)%N then String backslash "t"
  else if (n =? 10)%N then String backslash "n"
  else if (n =? 12)%N then String backslash "f"
  else if (n =? 13)%N then String backslash "r"
  else if (n =? 34)%N then String backslash (String dquote "")
  else if (n =? 92)%N then String backslash (String backslash "")
  else if (n <? 32)%N then
    String backslash ("u00" +:+ String (hexDigit (n / 16)) (String (hexDigit (n mod 16)) ""))
  else String c "".

Fixpoint escapeString (s : string) : string :=
  match s with
  | EmptyString => EmptyString
  | String c rest => escapeChar c +:+ escapeString rest
  end.

Definition quoteJSONString (s : string) : string :=
  String dquote (escapeString s +:+ String dquote "").

(** Number::toString on safe integers, positional decimal notation;
    [JSON.stringify] prints the non-finite numbers as [null]. *)
Definition stringifyNumber (n : number) : string :=
  match n with
  | Int z => NilEmpty.string_of_int (Z.to_int z)
  | NaN | Infinity _ => "null"
  end.

(** Template-literal conversion of a count. *)
Definition showNat (n : nat) : string := NilEmpty.string_of_uint (Nat.to_uint n).

(** ** Stable hashing *)

(** [Object.keys(obj).sort()]: the default comparison orders strings code
    unit by code unit, and any sort gives the one sorted arrangement of
    distinct keys. *)
Definition sortKeys (ks : list string) : list string := merge_sort String.le ks.

(** [stableStringify].  The object case renders every property value first
    and then reads the rendered text at each sorted key, which is
    [stableStringify(obj[k])] computed in the other order; a key without a
    binding would print as [undefined], as the template literal does. *)
Fixpoint stableStringify (v : value) : string :=
  match v with
  | VNull => "null"
  | VBool true => "true"
  | VBool false => "false"
  | VNum n => stringifyNumber n
  | VStr s => quoteJSONString s
  | VArr items => "[" +:+ String.concat "," (map stableStringify items) +:+ "]"
  | VObj props =>
      let rendered := map (fun p => (fst p, stableStringify (snd p))) props in
      let keys := sortKeys (map fst props) in
      "{" +:+ String.concat ","
                (map (fun k => quoteJSONString k +:+ ":" +:+
                               default "undefined" (prop k rendered)) keys)
          +:+ "}"
  end.

Definition toolKey (name : string) (params : value) : string :=
  name +:+ ":" +:+ stableStringify params.

(** ** Structural equality of values *)


(** Values in which no number is NaN or an infinity. *)
#[warnings="-register-all"]
Inductive finiteNumbers : value -> Prop :=
| fin_null : finiteNumbers VNull
| fin_bool b : finiteNumbers (VBool b)
| fin_num z : finiteNumbers (VNum (Int z))
| fin_str s : finiteNumbers (VStr s)
| fin_arr items : Forall finiteNumbers items -> finiteNumbers (VArr items)
| fin_obj props :
    Forall (fun p => finiteNumbers (snd p)) props -> finiteNumbers (VObj props).

(** [Number.MAX_SAFE_INTEGER], 2^53 - 1. *)
Definition MAX_SAFE_INTEGER : Z := 9007199254740991.

(** Values in which every number is a safe integer: an integer [z] with
    [|z| <= MAX_SAFE_INTEGER].  Every such [z] is a JS number, and
    [JSON.stringify] prints it in positional decimal notation, as
    [stringifyNumber (Int z)] does; a fraction, negative zero, and an
    integer that a double rounds or that JS prints with an exponent are not
    among them. *)
#[warnings="-register-all"]
Inductive safeIntegers : value -> Prop :=
| safe_null : safeIntegers VNull
| safe_bool b : safeIntegers (VBool b)
| safe_num z :
    (- MAX_SAFE_INTEGER <= z <= MAX_SAFE_INTEGER)%Z -> safeIntegers (VNum (Int z))
| safe_str s : safeIntegers (VStr s)
| safe_arr items : Forall safeIntegers items -> safeIntegers (VArr items)
| safe_obj props :
    Forall (fun p => safeIntegers (snd p)) props -> safeIntegers (VObj props).

(** Same scalars; same elements in the same order; same key/value pairs
    whatever the insertion order. *)
#[warnings="-register-all"]
Inductive structEq : value -> value -> Prop :=
| se_null : structEq VNull VNull
| se_bool b : structEq (VBool b) (VBool b)
| se_num n : structEq (VNum n) (VNum n)
| se_str s : structEq (VStr s) (VStr s)
| se_arr xs ys : Forall2 structEq xs ys -> structEq (VArr xs) (VArr ys)
| se_obj ps qs :
    (forall k, option_Forall2 structEq (prop k ps) (prop k qs)) ->
    structEq (VObj ps) (VObj qs).

(** ** Reading the serialization back *)

Definition isDigit (c : ascii) : bool :=
  let n := N_of_ascii c in ((48 <=? n) && (n <=? 57))%N.

(** The characters that follow a value inside an array or an object. *)
Definition isDelimiter (c : ascii) : bool :=
  let n := N_of_ascii c in ((n =? 44) || (n =? 93) || (n =? 125))%N.

Definition delimited (r : string) : Prop :=
  match r with
  | EmptyString => True
  | String c _ => isDelimiter c = true
  end.

Definition noDigitAhead (r : string) : Prop :=
  match r with
  | EmptyString => True
  | String c _ => isDigit c = false
  end.

(** The characters a serialized value can start with. *)
Definition startsValue (c : ascii) : bool :=
  let n := N_of_ascii c in
  (isDigit c || (n =? 45) || (n =? 110) || (n =? 116) || (n =? 102) ||
   (n =? 34) || (n =? 91) || (n =? 123))%N.

Definition unhex (c : ascii) : option N :=
  let n := N_of_ascii c in
  if ((48 <=? n) && (n <=? 57))%N then Some (n - 48)%N
  else if ((97 <=? n) && (n <=? 102))%N then Some (n - 87)%N
  else None.

(** The inverse of [escapeChar]: the code unit a piece of quoted text starts
    with, and what follows it; [None] at the closing quote. *)
Definition unescapeChar (s : string) : option (ascii * string) :=
  match s with
  | EmptyString => None
  | String c rest =>
      if Ascii.eqb c dquote then None
      else if Ascii.eqb c backslash then
        match rest with
        | String e rest' =>
            if Ascii.eqb e "b" then Some (ascii_of_N 8, rest')
            else if Ascii.eqb e "t" then Some (ascii_of_N 9, rest')
            else if Ascii.eqb e "n" then Some (ascii_of_N 10, rest')
            else if Ascii.eqb e "f" then Some (ascii_of_N 12, rest')
            else if Ascii.eqb e "r" then Some (ascii_of_N 13, rest')
            else if Ascii.eqb e dquote then Some (dquote, rest')
            else if Ascii.eqb e backslash then Some (backslash, rest')
            else if Ascii.eqb e "u" then
              match rest' with
              | String _ (String _ (String x (String y rest''))) =>
                  match unhex x, unhex y with
                  | Some hi, Some lo => Some (ascii_of_N (16 * hi + lo), rest'')
                  | _, _ => None
                  end
              | _ => None
              end
            else None
        | EmptyString => None
        end
      else Some (c, rest)
  end.

(** What follows the first item of a comma-separated list closed by
    [close]. *)
Definition tailOf {A : Type} (render : A -> string) (close : ascii)
    (l : list A) (r : string) : string :=
  match l with
  | [] => String close r
  | _ :: _ => "," +:+ String.concat "," (map render l) +:+ String close r
  end.

(** The properties of an object in the order [stableStringify] prints them. *)
Definition entries (props : list (string * value)) : list (string * value) :=
  omap (fun k => match prop k props with Some v => Some (k, v) | None => None end)
       (sortKeys (map fst props)).

Definition renderEntry (e : string * value) : string :=
  quoteJSONString (fst e) +:+ ":" +:+ stableStringify (snd e).

(** ** Outcome keys *)

(** What a tool can throw: an [Error] instance with its message, or another
    value, kept as the text [String(error)] gives. *)
Inductive thrown : Type :=
| ErrorInstance (message : string)
| NonError (asString : string).

Definition isWhiteSpace (c : ascii) : bool :=
  let n := N_of_ascii c in
  ((9 <=? n) && (n <=? 13) || (n =? 32))%N.

Fixpoint trimStart (s : string) : string :=
  match s with
  | EmptyString => EmptyString
  | String c rest => if isWhiteSpace c then trimStart rest else s
  end.

Fixpoint trimEnd (s : string) : string :=
  match s with
  | EmptyString => EmptyString
  | String c rest =>
      match trimEnd rest with
      | EmptyString => if isWhiteSpace c then EmptyString else String c EmptyString
      | t => String c t
      end
  end.

Definition trim (s : string) : string := trimEnd (trimStart s).

(** The [text] fields that are strings, of the entries of a content array. *)
Definition textOf (e : value) : option string :=
  match e with
  | VObj props => match prop "text" props with Some (VStr t) => Some t | _ => None end
  | _ => None
  end.

Definition outcomeKey (result : option value) (error : option thrown) : option string :=
  match error with
  | Some (ErrorInstance message) => Some ("error:" +:+ message)
  | Some (NonError asString) => Some ("error:" +:+ asString)
  | None =>
      match result with
      | None => None
      | Some (VObj props) =>
          match prop "content" props with
          | Some (VArr content) =>
              Some ("text:" +:+ trim (String.concat (String newline "") (omap textOf content)))
          | _ => Some (stableStringify (VObj props))
          end
      | Some r => Some (stableStringify r)
      end
  end.

(** ** The detector *)

Record ToolCallRecord : Type := {
  key : string;
  toolName : string;
  resultKey : option string
}.

Inductive Level : Type := warning | critical.

Inductive DetectionResult : Type :=
| NotStuck
| Stuck (level : Level) (message : string).

Definition HISTORY_SIZE : nat := 30.
Definition WARNING_THRESHOLD : nat := 10.
Definition CRITICAL_THRESHOLD : nat := 20.
Definition CIRCUIT_BREAKER_THRESHOLD : nat := 30.
Definition WARNING_BUCKET_SIZE : nat := 10.

Record ToolLoopDetector : Type := {
  history : list ToolCallRecord;
  warningBuckets : gmap string Z
}.

Definition newDetector : ToolLoopDetector :=
  {| history := []; warningBuckets := ∅ |}.

(** Methods run in a state monad over the detector instance. *)
Definition M (A : Type) : Type := ToolLoopDetector -> A * ToolLoopDetector.

Definition ret {A : Type} (a : A) : M A := fun d => (a, d).

Definition bind {A B : Type} (m : M A) (k : A -> M B) : M B :=
  fun d => let (a, d') := m d in k a d'.

Notation "'let!' x ':=' m 'in' k" := (bind m (fun x => k))
  (at level 10, x name, m at level 100, k at level 200).

Definition getHistory : M (list ToolCallRecord) := fun d => (history d, d).
Definition getBuckets : M (gmap string Z) := fun d => (warningBuckets d, d).
Definition setHistory (h : list ToolCallRecord) : M unit :=
  fun d => (tt, {| history := h; warningBuckets := warningBuckets d |}).
Definition setBuckets (b : gmap string Z) : M unit :=
  fun d => (tt, {| history := history d; warningBuckets := b |}).

Definition evalM {A : Type} (m : M A) (d : ToolLoopDetector) : A := fst (m d).
Definition execM {A : Type} (m : M A) (d : ToolLoopDetector) : ToolLoopDetector := snd (m d).

(** JS truthiness of an optional string: [undefined] and the empty string
    are falsy. *)
Definition truthy (s : option string) : bool :=
  match s with
  | Some (String _ _) => true
  | _ => false
  end.

Definition sameResult (a b : option string) : bool :=
  match a, b with
  | Some x, Some y => String.eqb x y
  | None, None => true
  | _, _ => false
  end.

(** [record]: push, then shift when the window is exceeded. *)
Definition record (name : string) (params : value)
    (result : option value) (error : option thrown) : M unit :=
  let! h := getHistory in
  let pushed := h ++ [{| key := toolKey name params;
                         toolName := name;
                         resultKey := outcomeKey result error |}] in
  if (HISTORY_SIZE <? length pushed)%nat then setHistory (tail pushed)
  else setHistory pushed.

(** The loop of [getNoProgressStreak]; [hs] is the history from the most
    recent entry backward, and the function returns where the JS loop
    breaks or runs out of entries. *)
Fixpoint streakScan (k : string) (hs : list ToolCallRecord)
    (streak : nat) (expectedResult : option string) : nat :=
  match hs with
  | [] => streak
  | h :: older =>
      if negb (String.eqb (key h) k) then streakScan k older streak expectedResult
      else if negb (truthy (resultKey h)) then streakScan k older streak expectedResult
      else if negb (truthy expectedResult) then streakScan k older 1 (resultKey h)
      else if negb (sameResult (resultKey h) expectedResult) then streak
      else streakScan k older (S streak) expectedResult
  end.

Definition noProgressStreak (k : string) (h : list ToolCallRecord) : nat :=
  streakScan k (rev h) 0%nat None.

Definition getNoProgressStreak (k : string) : M nat :=
  let! h := getHistory in
  ret (noProgressStreak k h).

(** The loop of [getPingPongCount], returning [count] and [noProgress]. *)
Fixpoint pingPongScan (currentKey otherKey : string) (hs : list ToolCallRecord)
    (count : nat) (resultA resultB : option string) (noProgress : bool) : nat * bool :=
  match hs with
  | [] => (count, noProgress)
  | h :: older =>
      let expected := if (count mod 2 =? 0)%nat then otherKey else currentKey in
      if negb (String.eqb (key h) expected) then (count, noProgress)
      else if truthy (resultKey h) then
        if String.eqb (key h) currentKey then
          if negb (truthy resultA) then
            pingPongScan currentKey otherKey older (S count) (resultKey h) resultB noProgress
          else if negb (sameResult resultA (resultKey h)) then
            pingPongScan currentKey otherKey older (S count) resultA resultB false
          else pingPongScan currentKey otherKey older (S count) resultA resultB noProgress
        else
          if negb (truthy resultB) then
            pingPongScan currentKey otherKey older (S count) resultA (resultKey h) noProgress
          else if negb (sameResult resultB (resultKey h)) then
            pingPongScan currentKey otherKey older (S count) resultA resultB false
          else pingPongScan currentKey otherKey older (S count) resultA resultB noProgress
      else pingPongScan currentKey otherKey older (S count) resultA resultB noProgress
  end.

Definition pingPongCount (currentKey : string) (h : list ToolCallRecord) : nat :=
  if (length h <? 2)%nat then 0%nat
  else
    match rev h with
    | [] => 0%nat
    | last :: _ =>
        if String.eqb (key last) currentKey then 0%nat
        else
          let otherKey := key last in
          let '(count, noProgress) :=
            pingPongScan currentKey otherKey (rev h) 0 None None true in
          if (count <? 2)%nat || negb noProgress then 0%nat
          else (count + 1)%nat
    end.

Definition getPingPongCount (currentKey : string) : M nat :=
  let! h := getHistory in
  ret (pingPongCount currentKey h).

Definition repeatCount (k : string) (h : list ToolCallRecord) : nat :=
  length (filter (fun r => String.eqb (key r) k = true) h).

Definition circuitBreakerMessage (name : string) (streak : nat) : string :=
  "BLOCKED: " +:+ name +:+ " repeated " +:+ showNat streak +:+
  " times with no progress. Circuit breaker triggered — stop retrying and report the issue.".

Definition noProgressMessage (name : string) (streak : nat) : string :=
  "BLOCKED: " +:+ name +:+ " called " +:+ showNat streak +:+
  " times with identical arguments and results. Stop retrying and try a different approach or report the task as failed.".

Definition pingPongBlockMessage (ppCount : nat) : string :=
  "BLOCKED: Alternating tool pattern detected (" +:+ showNat ppCount +:+
  " calls with no progress). Ping-pong loop — stop and try a different approach.".

Definition pingPongWarnMessage (ppCount : nat) : string :=
  "WARNING: Alternating tool pattern (" +:+ showNat ppCount +:+
  " calls). Possible ping-pong loop — if not progressing, stop retrying.".

Definition repeatMessage (name : string) (n : nat) : string :=
  "WARNING: " +:+ name +:+ " called " +:+ showNat n +:+
  " times with identical arguments. If not progressing, stop retrying.".

(** [detect]: the four detectors in severity order. *)
Definition detect (name : string) (params : value) : M DetectionResult :=
  let k := toolKey name params in
  let! streak := getNoProgressStreak k in
  if (CIRCUIT_BREAKER_THRESHOLD <=? streak)%nat then
    ret (Stuck critical (circuitBreakerMessage name streak))
  else if (CRITICAL_THRESHOLD <=? streak)%nat then
    ret (Stuck critical (noProgressMessage name streak))
  else
    let! ppCount := getPingPongCount k in
    if (CRITICAL_THRESHOLD <=? ppCount)%nat then
      ret (Stuck critical (pingPongBlockMessage ppCount))
    else if (WARNING_THRESHOLD <=? ppCount)%nat then
      ret (Stuck warning (pingPongWarnMessage ppCount))
    else
      let! h := getHistory in
      let n := repeatCount k h in
      if (WARNING_THRESHOLD <=? n)%nat then
        ret (Stuck warning (repeatMessage name n))
      else ret NotStuck.

(** [shouldWarn]: one warning per bucket of [WARNING_BUCKET_SIZE]. *)
Definition shouldWarn (name : string) (params : value) : M bool :=
  let k := toolKey name params in
  let! h := getHistory in
  let count := repeatCount k h in
  let bucket := (Z.of_nat count / Z.of_nat WARNING_BUCKET_SIZE)%Z in
  let! buckets := getBuckets in
  let lastBucket := default (-1)%Z (buckets !! k) in
  if (bucket <=? lastBucket)%Z then ret false
  else
    let! _ := setBuckets (<[k := bucket]> buckets) in
    ret true.

Definition reset : M unit :=
  let! _ := setHistory [] in
  setBuckets ∅.

(** ** The wrapping decorator *)

(** What calling a tool's [execute] ends with. *)
Inductive Completion : Type :=
| Returned (result : option value)
| Threw (error : thrown).

Record Tool : Type := {
  name : string;
  execute : string -> value -> Completion
}.

(** The wrapped [execute]: its completion, and the lines written to the
    console. *)
Definition wrappedExecute (tool : Tool) (toolCallId : string) (params : value)
  : M (Completion * list string) :=
  let! check := detect (name tool) params in
  match check with
  | Stuck critical message =>
      let! _ := record (name tool) params None None in
      ret (Threw (ErrorInstance message), [])
  | _ =>
      let! logged := (match check with
                 | Stuck warning message =>
                     let! warn := shouldWarn (name tool) params in
                     ret (if warn : bool
                          then [String escape "[33m[loop-detection] " +:+ message +:+
                                String escape "[0m"]
                          else [])
                 | _ => ret []
                 end) in
      match execute tool toolCallId params with
      | Returned result =>
          let! _ := record (name tool) params result None in
          ret (Returned result, logged)
      | Threw err =>
          let! _ := record (name tool) params None (Some err) in
          ret (Threw err, logged)
      end
  end.

Definition wrapTool (tool : Tool) : string * (string -> value -> M (Completion * list string)) :=
  (name tool, wrappedExecute tool).

(** ** Call sequences *)

Record Call : Type := {
  callName : string;
  callParams : value;
  callResult : option value;
  callError : option thrown
}.

Definition entryOf (c : Call) : ToolCallRecord :=
  {| key := toolKey (callName c) (callParams c);
     toolName := callName c;
     resultKey := outcomeKey (callResult c) (callError c) |}.

Definition recordCall (c : Call) : M unit :=
  record (callName c) (callParams c) (callResult c) (callError c).

(** [record] called once per element, in order. *)
Fixpoint recordAll (cs : list Call) : M unit :=
  match cs with
  | [] => ret tt
  | c :: rest => let! _ := recordCall c in recordAll rest
  end.

(** [detect] before each [record], keeping the verdicts. *)
Fixpoint checkedRun (cs : list Call) : M (list DetectionResult) :=
  match cs with
  | [] => ret []
  | c :: rest =>
      let! v := detect (callName c) (callParams c) in
      let! _ := recordCall c in
      let! vs := checkedRun rest in
      ret (v :: vs)
  end.

(** The last [n] elements of a list. *)
Definition lastN {A : Type} (n : nat) (l : list A) : list A :=
  skipn (length l - n) l.

(** What [detect] answers on a history: the priority chain of the four
    rules, as a function of the three scores. *)
Definition verdictOf (name : string) (streak ppCount repeats : nat) : DetectionResult :=
  if (CIRCUIT_BREAKER_THRESHOLD <=? streak)%nat then
    Stuck critical (circuitBreakerMessage name streak)
  else if (CRITICAL_THRESHOLD <=? streak)%nat then
    Stuck critical (noProgressMessage name streak)
  else if (CRITICAL_THRESHOLD <=? ppCount)%nat then
    Stuck critical (pingPongBlockMessage ppCount)
  else if (WARNING_THRESHOLD <=? ppCount)%nat then
    Stuck warning (pingPongWarnMessage ppCount)
  else if (WARNING_THRESHOLD <=? repeats)%nat then
    Stuck warning (repeatMessage name repeats)
  else NotStuck.

(** The entries the ping-pong loop visits before it breaks. *)
Fixpoint scanned (currentKey otherKey : string) (hs : list ToolCallRecord)
    (count : nat) : list ToolCallRecord :=
  match hs with
  | [] => []
  | h :: older =>
      if String.eqb (key h) (if (count mod 2 =? 0)%nat then otherKey else currentKey)
      then h :: scanned currentKey otherKey older (S count)
      else []
  end.

(** Two visited entries on the same side of the alternation whose
    outcome keys are both present and differ. *)
Definition outcomeChanged (currentKey : string) (x y : ToolCallRecord) : Prop :=
  String.eqb (key x) currentKey = String.eqb (key y) currentKey /\
  truthy (resultKey x) = true /\ truthy (resultKey y) = true /\
  resultKey x <> resultKey y.

Definition stableOutcomes (currentKey : string) (run : list ToolCallRecord) : Prop :=
  forall x y, In x run -> In y run -> ~ outcomeChanged currentKey x y.

(** What makes the loop clear [noProgress]: the flag is already cleared, a
    visited entry disagrees with the outcome key remembered for its side, or
    two visited entries of one side disagree. *)
Definition sawChange (currentKey : string) (run : list ToolCallRecord) (rA rB : option string) (np : bool) : Prop :=
  np = false \/
  (exists x, In x run /\ String.eqb (key x) currentKey = true /\
             truthy (resultKey x) = true /\ truthy rA = true /\ resultKey x <> rA) \/
  (exists x, In x run /\ String.eqb (key x) currentKey = false /\
             truthy (resultKey x) = true /\ truthy rB = true /\ resultKey x <> rB) \/
  (exists x y, In x run /\ In y run /\ outcomeChanged currentKey x y).

(** The two numbers [shouldWarn] compares. *)
Definition bucketOf (name : string) (params : value) (d : ToolLoopDetector) : Z :=
  (Z.of_nat (repeatCount (toolKey name params) (history d)) / 10)%Z.

Definition lastBucketOf (name : string) (params : value) (d : ToolLoopDetector) : Z :=
  default (-1)%Z (warningBuckets d !! toolKey name params).

(** ** Scenario data *)

Definition readArgs : value := VObj [("path", VStr "a.txt")].

Definition readKey : string := toolKey "read" readArgs.

(** [read({"path":"a.txt"})] failing with [ENOENT]. *)
Definition readFails : Call :=
  {| callName := "read"; callParams := readArgs;
     callResult := None; callError := Some (ErrorInstance "ENOENT") |}.

Definition readTool : Tool :=
  {| name := "read"; execute := fun _ _ => Threw (ErrorInstance "ENOENT") |}.

Definition mkCall (name : string) (params : value)
    (outcome : option value * option thrown) : Call :=
  {| callName := name; callParams := params;
     callResult := fst outcome; callError := snd outcome |}.

(** The answer of the streak rules and of the generic-repeat rule alone. *)
Definition verdictWithoutPingPong (name : string) (streak repeats : nat) : DetectionResult :=
  if (CIRCUIT_BREAKER_THRESHOLD <=? streak)%nat then
    Stuck critical (circuitBreakerMessage name streak)
  else if (CRITICAL_THRESHOLD <=? streak)%nat then
    Stuck critical (noProgressMessage name streak)
  else if (WARNING_THRESHOLD <=? repeats)%nat then
    Stuck warning (repeatMessage name repeats)
  else NotStuck.

(** The detector after [n] failing reads. *)
Definition afterFailures (n : nat) : ToolLoopDetector :=
  execM (recordAll (repeat readFails n)) newDetector.

(** Two calls taking turns, [list] first, each with its own fixed result. *)
Definition listCall : Call :=
  {| callName := "list"; callParams := VObj [("dir", VStr ".")];
     callResult := Some (VArr [VStr "a.txt"]); callError := None |}.

Definition statCall (size : Z) : Call :=
  {| callName := "stat"; callParams := VObj [("path", VStr "a.txt")];
     callResult := Some (VObj [("size", VNum (Int size))]); callError := None |}.

Fixpoint takingTurns (n : nat) : list Call :=
  match n with
  | O => []
  | S m => takingTurns m ++ [if Nat.even m then listCall else statCall 7]
  end.

(** Twenty failing reads with a [list] after every second one. *)
Definition mixedCalls : list Call :=
  concat (repeat [readFails; readFails; listCall] 10).

(** The same call returning a different number each time. *)
Definition varyingOutcomes (n : nat) : list (option value * option thrown) :=
  map (fun i => (Some (VNum (Int (Z.of_nat i))), None)) (seq 0 n).

(** ** Runs of wrapped calls *)



(** What [record] is given for a completion of the tool. *)
Definition outcomeOf (c : Completion) : option value * option thrown :=
  match c with
  | Returned result => (result, None)
  | Threw err => (None, Some err)
  end.

(** *** Calls that overlap

    The wrapped [execute] is an async function.  When it is called it runs
    as far as the [await] of the tool: the pre-flight check, the refusal or
    the warning, and the start of the tool.  What follows the [await], the
    [record] of the outcome, runs once the tool has settled, and calls made
    in between run their own checks first. *)






(** The entry [record] pushes for a call of the tool that returned
    [result]. *)
Definition pushed (tool : Tool) (params result : value) : ToolCallRecord :=
  {| key := toolKey (name tool) params; toolName := name tool;
     resultKey := outcomeKey (Some result) None |}.




Definition isCritical (v : DetectionResult) : bool :=
  match v with
  | Stuck critical _ => true
  | _ => false
  end.

Fixpoint hasColon (s : string) : bool :=
  match s with
  | EmptyString => false
  | String c rest => Ascii.eqb c ":" || hasColon rest
  end.

(** ** The web tools: truncation, cache, search provider
    (src/tools/web-fetch.ts and src/tools/web-search.ts) *)

Definition truncationMarker : string :=
  String newline (String newline "[Truncated]").

(** [truncate], for a whole number of characters [maxChars]. *)
Definition truncate (text : string) (maxChars : nat) : string * bool :=
  if (String.length text <=? maxChars)%nat then (text, false)
  else (substring 0 maxChars text +:+ truncationMarker, true).

(** [Record<string, unknown>]: the properties of an object. *)
Definition JsObject : Type := list (string * value).

(** The in-memory cache; [Date.now()] is the argument [now], in
    milliseconds. *)
Record CacheEntry (A : Type) : Type := {
  cached : A;
  expiresAt : Z
}.

Arguments cached {A} _.
Arguments expiresAt {A} _.

Definition CACHE_TTL_MS : Z := 5 * 60 * 1000.

Definition readCache {A : Type} (k : string) (now : Z) (cache : gmap string (CacheEntry A))
  : option A * gmap string (CacheEntry A) :=
  match cache !! k with
  | None => (None, cache)
  | Some entry =>
      if (now >? expiresAt entry)%Z then (None, delete k cache)
      else (Some (cached entry), cache)
  end.

Definition writeCache {A : Type} (k : string) (v : A) (now : Z)
    (cache : gmap string (CacheEntry A)) : gmap string (CacheEntry A) :=
  <[k := {| cached := v; expiresAt := (now + CACHE_TTL_MS)%Z |}]> cache.

(** [process.env]: a variable counts when it is set to a non-empty string. *)
Definition envTruthy (env : gmap string string) (name : string) : option string :=
  match env !! name with
  | Some (String c rest) => Some (String c rest)
  | _ => None
  end.

Definition envSet (env : gmap string string) (name : string) : bool :=
  match envTruthy env name with
  | Some _ => true
  | None => false
  end.

Inductive SearchProvider : Type := brave | perplexity.

Definition resolveProvider (env : gmap string string) : SearchProvider :=
  if envSet env "PERPLEXITY_API_KEY" || envSet env "OPENROUTER_API_KEY" then
    if negb (envSet env "BRAVE_API_KEY") then perplexity else brave
  else brave.

Definition DEFAULT_PERPLEXITY_BASE_URL : string := "https://openrouter.ai/api/v1".
Definition PERPLEXITY_DIRECT_BASE_URL : string := "https://api.perplexity.ai".

Record PerplexityAuth : Type := {
  apiKey : string;
  baseUrl : string
}.

Definition resolvePerplexityAuth (env : gmap string string) : option PerplexityAuth :=
  match envTruthy env "PERPLEXITY_API_KEY" with
  | Some perplexityKey =>
      Some {| apiKey := perplexityKey; baseUrl := PERPLEXITY_DIRECT_BASE_URL |}
  | None =>
      match envTruthy env "OPENROUTER_API_KEY" with
      | Some openrouterKey =>
          Some {| apiKey := openrouterKey; baseUrl := DEFAULT_PERPLEXITY_BASE_URL |}
      | None => None
      end
  end.

(** ** [runWebSearch] (src/tools/web-search.ts) *)

Definition DEFAULT_SEARCH_COUNT : number := Int 5.
Definition MAX_SEARCH_COUNT : number := Int 10.

(** [Math.max] and [Math.min] of two numbers. *)
Definition mathMax (a b : number) : number :=
  match a, b with
  | NaN, _ | _, NaN => NaN
  | Infinity false, _ | _, Infinity false => Infinity false
  | Infinity true, x | x, Infinity true => x
  | Int x, Int y => Int (Z.max x y)
  end.

Definition mathMin (a b : number) : number :=
  match a, b with
  | NaN, _ | _, NaN => NaN
  | Infinity true, _ | _, Infinity true => Infinity true
  | Infinity false, x | x, Infinity false => x
  | Int x, Int y => Int (Z.min x y)
  end.

(** Number::toString, as a template literal applies it. *)
Definition numberToString (n : number) : string :=
  match n with
  | Int z => stringifyNumber (Int z)
  | NaN => "NaN"
  | Infinity false => "Infinity"
  | Infinity true => "-Infinity"
  end.

Definition providerName (provider : SearchProvider) : string :=
  match provider with
  | brave => "brave"
  | perplexity => "perplexity"
  end.

(** [obj[k] = v], and [{ ...obj, k: v }]: a key that is there keeps its
    place, a new one comes last. *)
Fixpoint setProp (k : string) (v : value) (props : JsObject) : JsObject :=
  match props with
  | [] => [(k, v)]
  | (k', v') :: rest =>
      if String.eqb k' k then (k, v) :: rest else (k', v') :: setProp k v rest
  end.

Record SearchParams : Type := {
  query : string;
  count : option number;
  country : option string;
  freshness : option string
}.

Record BraveParams : Type := {
  braveQuery : string;
  braveCount : number;
  braveApiKey : string;
  braveCountry : option string;
  braveFreshness : option string
}.

Record PerplexityParams : Type := {
  perplexityQuery : string;
  perplexityApiKey : string;
  perplexityBaseUrl : string
}.

(** A call of [searchBrave] or of [searchPerplexity]. *)
Inductive SearchCall : Type :=
| CallBrave (p : BraveParams)
| CallPerplexity (p : PerplexityParams).

(** How a promise settles. *)
Inductive Settled (A : Type) : Type :=
| Fulfilled (result : A)
| Rejected (error : thrown).

Arguments Fulfilled {A} _.
Arguments Rejected {A} _.

Definition missingApiKey : JsObject :=
  [("error", VStr "missing_api_key");
   ("message", VStr "web_search needs an API key. Set BRAVE_API_KEY, PERPLEXITY_API_KEY, or OPENROUTER_API_KEY.")].

Definition missingBraveApiKey : JsObject :=
  [("error", VStr "missing_brave_api_key");
   ("message", VStr "web_search needs a Brave Search API key. Set BRAVE_API_KEY.")].

Definition searchCacheKey (provider : SearchProvider) (params : SearchParams) : string :=
  "search:" +:+ providerName provider +:+ ":" +:+ query params +:+ ":" +:+
  numberToString (default DEFAULT_SEARCH_COUNT (count params)).

(** What a run of [runWebSearch] ends with, the cache it leaves, and the
    calls of [searchBrave] and [searchPerplexity] it made. *)
Record SearchRun : Type := {
  outcome : Settled JsObject;
  cacheAfter : gmap string (CacheEntry JsObject);
  calls : list SearchCall
}.

(** The search the run has to make, or the error object it returns
    instead. *)
Definition searchCallFor (env : gmap string string) (provider : SearchProvider)
    (params : SearchParams) : JsObject + SearchCall :=
  match provider with
  | perplexity =>
      match resolvePerplexityAuth env with
      | None => inl missingApiKey
      | Some auth =>
          inr (CallPerplexity {| perplexityQuery := query params;
                                 perplexityApiKey := apiKey auth;
                                 perplexityBaseUrl := baseUrl auth |})
      end
  | brave =>
      match envTruthy env "BRAVE_API_KEY" with
      | None => inl missingBraveApiKey
      | Some key =>
          inr (CallBrave {| braveQuery := query params;
                            braveCount :=
                              mathMin MAX_SEARCH_COUNT
                                (mathMax (Int 1) (default DEFAULT_SEARCH_COUNT (count params)));
                            braveApiKey := key;
                            braveCountry := country params;
                            braveFreshness := freshness params |})
      end
  end.

(** [runWebSearch].  [search] is how the call of [searchBrave] or
    [searchPerplexity] settles; [tRead], [tStart], [tEnd] and [tWrite] are
    the readings of [Date.now()], in the order the code takes them. *)
Definition runWebSearch (env : gmap string string) (search : SearchCall -> Settled JsObject)
    (params : SearchParams) (tRead tStart tEnd tWrite : Z)
    (cache : gmap string (CacheEntry JsObject)) : SearchRun :=
  let provider := resolveProvider env in
  let cacheKey := searchCacheKey provider params in
  match readCache cacheKey tRead cache with
  | (Some hit, cache1) =>
      {| outcome := Fulfilled (setProp "cached" (VBool true) hit);
         cacheAfter := cache1; calls := [] |}
  | (None, cache1) =>
      match searchCallFor env provider params with
      | inl error => {| outcome := Fulfilled error; cacheAfter := cache1; calls := [] |}
      | inr call =>
          match search call with
          | Rejected error =>
              {| outcome := Rejected error; cacheAfter := cache1; calls := [call] |}
          | Fulfilled result =>
              let result := setProp "tookMs" (VNum (Int (tEnd - tStart))) result in
              {| outcome := Fulfilled result;
                 cacheAfter := writeCache cacheKey result tWrite cache1;
                 calls := [call] |}
          end
      end
  end.

(** ** The REPL helpers (src/index.ts) *)

Record Skill : Type := {
  skillName : string;
  skillDescription : string;
  skillSource : string
}.

(** What [loadSkillsFromDir] gives for a source, [None] when it throws. *)
Definition SkillLoader : Type := string -> option (list Skill * list string).

(** [if (!skillMap.has(skill.name)) skillMap.set(skill.name, skill)]: a
    [Map] keeps its keys in insertion order. *)
Definition addSkill (skillMap : list (string * Skill)) (skill : Skill)
  : list (string * Skill) :=
  match prop (skillName skill) skillMap with
  | Some _ => skillMap
  | None => skillMap ++ [(skillName skill, skill)]
  end.

Definition skillSources : list string := ["user"; "project"; "bundled"].

Definition discoverStep (load : SkillLoader)
    (acc : list (string * Skill) * list string) (source : string)
  : list (string * Skill) * list string :=
  match load source with
  | Some (skills, diags) =>
      (fold_left addSkill skills (fst acc),
       snd acc ++ map (fun message => "[" +:+ source +:+ "] " +:+ message) diags)
  | None => acc
  end.

Definition discoverSkills (load : SkillLoader) : list Skill * list string :=
  let (skillMap, diagnostics) := fold_left (discoverStep load) skillSources ([], []) in
  (map snd skillMap, diagnostics).

(** The keys of the skill map are the names of its skills. *)
Definition keyedByName (m : list (string * Skill)) : Prop :=
  Forall (fun p => fst p = skillName (snd p)) m.

(** The skills the sources give, in the order they are looked at. *)
Definition offeredSkills (load : SkillLoader) : list Skill :=
  flat_map (fun source => match load source with
                          | Some (skills, _) => skills
                          | None => []
                          end) skillSources.

(** A part of a message; [text] and [name] may be missing. *)
Record Part : Type := {
  partType : string;
  partText : option string;
  partName : option string
}.

Inductive Content : Type :=
| Text (s : string)
| Parts (parts : list Part)
| NoContent.

Record AgentMessage : Type := {
  role : string;
  content : Content
}.

(** [content.filter(type === "text").map(text).join("")]: a missing text
    joins as the empty string. *)
Definition textOfParts (parts : list Part) : string :=
  String.concat ""
    (map (fun part => default "" (partText part))
         (List.filter (fun part => String.eqb (partType part) "text") parts)).

(** The loop of [extractAssistantText], from the last message backward. *)
Fixpoint assistantTextFrom (ms : list AgentMessage) : string :=
  match ms with
  | [] => ""
  | msg :: earlier =>
      if negb (String.eqb (role msg) "assistant") then assistantTextFrom earlier
      else
        match content msg with
        | Text s => s
        | Parts parts =>
            match textOfParts parts with
            | EmptyString => assistantTextFrom earlier
            | text => text
            end
        | NoContent => assistantTextFrom earlier
        end
  end.

Definition extractAssistantText (messages : list AgentMessage) : string :=
  assistantTextFrom (rev messages).

Definition toolCallsOf (msg : AgentMessage) : list string :=
  if negb (String.eqb (role msg) "assistant") then []
  else
    match content msg with
    | Parts parts =>
        map (fun part => default "unknown" (partName part))
            (List.filter (fun part => String.eqb (partType part) "tool_use") parts)
    | _ => []
    end.

Definition extractToolCalls (messages : list AgentMessage) : list string :=
  flat_map toolCallsOf messages.

Definition isAssistant (msg : AgentMessage) : bool := String.eqb (role msg) "assistant".

(** ** Context files (src/system-prompt.ts) *)

Definition CONTEXT_FILE_NAMES : list string :=
  ["CONTEXT.md"; "INSTRUCTIONS.md"; "INSTRUCTIONS.txt"; "SOUL.md"; "CLAUDE.md";
   ".openclaw-mini/CONTEXT.md"; ".github/copilot-instructions.md"].

Record ContextFile : Type := {
  path : string;
  fileContent : string
}.

(** The body of the loop of [loadContextFiles] for one name: what it pushes. *)
Definition fileFor (readFile : string -> option string) (name : string) : list ContextFile :=
  match readFile name with
  | Some raw =>
      match trim raw with
      | EmptyString => []
      | text => [{| path := name; fileContent := text |}]
      end
  | None => []
  end.

(** [loadContextFiles]; [readFile name] is the text of the file of that name
    in the workspace, [None] when reading it throws. *)
Definition loadContextFiles (readFile : string -> option string) : list ContextFile :=
  flat_map (fileFor readFile) CONTEXT_FILE_NAMES.

(** ** [markdownFromText] (src/tools/web-fetch.ts) *)

(** [text.replace(/\n{3,}/g, "\n\n")], read from left to right with the
    number [run] of line feeds just passed: the first two line feeds of a
    run are kept and the ones after them are dropped, so that a run of three
    or more becomes two and a shorter run stays as it is. *)
Fixpoint collapseFrom (run : nat) (s : string) : string :=
  match s with
  | EmptyString => EmptyString
  | String c rest =>
      if Ascii.eqb c newline then
        if (run <? 2)%nat then String c (collapseFrom (S run) rest)
        else collapseFrom (S run) rest
      else String c (collapseFrom 0 rest)
  end.

Definition markdownFromText (text : string) : string := trim (collapseFrom 0 text).

Definition threeLineFeeds : string := String newline (String newline (String newline "")).

Fixpoint leadingLineFeeds (s : string) : nat :=
  match s with
  | EmptyString => 0
  | String c rest => if Ascii.eqb c newline then S (leadingLineFeeds rest) else 0
  end.

(** Some run of three or more line feeds. *)
Fixpoint longRun (s : string) : bool :=
  match s with
  | EmptyString => false
  | String c rest => (3 <=? leadingLineFeeds s)%nat || longRun rest
  end.

(** The white space of ASCII: tab, line feed, vertical tab, form feed,
    carriage return and space. *)
Definition asciiWhiteSpace : list ascii :=
  ["009"; "010"; "011"; "012"; "013"; "032"]%char.

Definition blank (c : ascii) : bool := existsb (Ascii.eqb c) asciiWhiteSpace.

(** The characters that are not white space. *)
Fixpoint visible (s : string) : string :=
  match s with
  | EmptyString => EmptyString
  | String c rest => if blank c then visible rest else String c (visible rest)
  end.

(** Every character is below 128.  In such a text the white space that
    [String.prototype.trim] strips is [asciiWhiteSpace]. *)
Fixpoint asciiOnly (s : string) : bool :=
  match s with
  | EmptyString => true
  | String c rest => (N_of_ascii c <? 128)%N && asciiOnly rest
  end.

(** Neither the first nor the last character is white space. *)
Definition noBlankEnds (s : string) : Prop :=
  (forall c rest, s = String c rest -> ~ In c asciiWhiteSpace) /\
  (forall front c, s = front +:+ String c "" -> ~ In c asciiWhiteSpace).

(** ** [runWebFetch] (src/tools/web-fetch.ts) *)

Definition DEFAULT_MAX_CHARS : number := Int 50000.

(** [truncate] for any number [maxChars]: a comparison with NaN is false,
    and [slice(0, maxChars)] takes NaN as 0 and counts a negative end from
    the end of the text. *)
Definition truncateAt (text : string) (maxChars : number) : string * bool :=
  match maxChars with
  | Int z =>
      if (0 <=? z)%Z then truncate text (Z.to_nat z)
      else (substring 0 (String.length text - Z.to_nat (- z)) text +:+ truncationMarker,
            true)
  | NaN | Infinity true => (truncationMarker, true)
  | Infinity false => (text, false)
  end.

(** [s.includes(needle)]. *)
Fixpoint includes (needle s : string) : bool :=
  match s with
  | EmptyString => String.prefix needle EmptyString
  | String _ rest => String.prefix needle s || includes needle rest
  end.

(** [s.split(";")[0]]. *)
Fixpoint beforeSemicolon (s : string) : string :=
  match s with
  | EmptyString => EmptyString
  | String c rest =>
      if Ascii.eqb c ";" then EmptyString else String c (beforeSemicolon rest)
  end.

(** The article [Readability] finds; a field may be [null]. *)
Record Article : Type := {
  articleContent : option string;
  articleTextContent : option string;
  articleTitle : option string
}.

(** The response of [fetch]; reading its body may fail. *)
Record Response : Type := {
  resOk : bool;
  resStatus : Z;
  resStatusText : string;
  resContentType : option string;
  resBody : Settled string
}.

(** The world outside the program: [protocolOf url] is
    [new URL(url).protocol], [None] when the constructor throws; [fetch] is
    the request made for a URL; [parseArticle html url] is
    [new Readability(document).parse()] for the document of [html] with base
    [url]; [prettyJSON body] is [JSON.stringify(JSON.parse(body), null, 2)],
    [None] when the body does not parse. *)
Record Web : Type := {
  protocolOf : string -> option string;
  fetch : string -> Settled Response;
  parseArticle : string -> string -> Settled (option Article);
  prettyJSON : string -> option string
}.

(** [htmlToMarkdown]: the text, empty when nothing readable was found, and
    the title. *)
Definition htmlToMarkdown (web : Web) (html url : string)
  : Settled (string * option string) :=
  match parseArticle web html url with
  | Rejected error => Rejected error
  | Fulfilled None => Fulfilled (EmptyString, None)
  | Fulfilled (Some article) =>
      if negb (truthy (option_map trim (articleTextContent article))) then
        Fulfilled (EmptyString, None)
      else
        Fulfilled
          (default EmptyString
             (if truthy (articleContent article) then articleContent article
              else articleTextContent article),
           if truthy (articleTitle article) then articleTitle article else None)
  end.

Record FetchParams : Type := {
  url : string;
  extractMode : option string;
  maxChars : option number
}.

(** The payload of a fetch; [textLength] is its [length]. *)
Record FetchPayload : Type := {
  payloadUrl : string;
  status : Z;
  contentType : string;
  title : option string;
  payloadExtractMode : string;
  extractor : string;
  truncated : bool;
  textLength : nat;
  tookMs : Z;
  text : string
}.

(** What [runWebFetch] returns: a payload, with [cached: true] added when it
    comes from the cache. *)
Record FetchResult : Type := {
  fetched : FetchPayload;
  markedCached : bool
}.

(** What a run of [runWebFetch] ends with, the cache it leaves, and the URLs
    it requested. *)
Record FetchRun : Type := {
  fetchOutcome : Settled FetchResult;
  fetchCacheAfter : gmap string (CacheEntry FetchPayload);
  fetchCalls : list string
}.

Definition fetchCacheKey (url extractMode : string) (maxChars : number) : string :=
  "fetch:" +:+ url +:+ ":" +:+ extractMode +:+ ":" +:+ numberToString maxChars.

Definition invalidUrl : thrown := ErrorInstance "Invalid URL: must be http or https".

Definition fetchFailed (res : Response) : thrown :=
  ErrorInstance ("Web fetch failed (" +:+ numberToString (Int (resStatus res)) +:+ "): " +:+
                 resStatusText res).

(** The choice of the extractor by content type: the extractor's name, the
    text and the title. *)
Definition extract (web : Web) (url extractMode contentType body : string)
  : Settled (string * string * option string) :=
  if includes "text/markdown" contentType then
    Fulfilled ("cf-markdown",
               if String.eqb extractMode "text" then markdownFromText body else body,
               None)
  else if includes "text/html" contentType then
    match htmlToMarkdown web body url with
    | Rejected error => Rejected error
    | Fulfilled (readableText, readableTitle) =>
        if truthy (Some readableText) then
          Fulfilled ("readability", readableText, readableTitle)
        else Fulfilled ("raw", body, None)
    end
  else if includes "application/json" contentType then
    match prettyJSON web body with
    | Some pretty => Fulfilled ("json", pretty, None)
    | None => Fulfilled ("raw", body, None)
    end
  else Fulfilled ("raw", body, None).

(** [runWebFetch]; [tRead], [tStart], [tEnd] and [tWrite] are the readings of
    [Date.now()], in the order the code takes them. *)
Definition runWebFetch (web : Web) (params : FetchParams) (tRead tStart tEnd tWrite : Z)
    (cache : gmap string (CacheEntry FetchPayload)) : FetchRun :=
  let extractMode := default "markdown" (extractMode params) in
  let maxChars := mathMax (Int 100) (default DEFAULT_MAX_CHARS (maxChars params)) in
  let cacheKey := fetchCacheKey (url params) extractMode maxChars in
  match readCache cacheKey tRead cache with
  | (Some hit, cache1) =>
      {| fetchOutcome := Fulfilled {| fetched := hit; markedCached := true |};
         fetchCacheAfter := cache1; fetchCalls := [] |}
  | (None, cache1) =>
      let throws (error : thrown) (requested : list string) :=
        {| fetchOutcome := Rejected error; fetchCacheAfter := cache1;
           fetchCalls := requested |} in
      match protocolOf web (url params) with
      | None => throws invalidUrl []
      | Some protocol =>
          if negb (String.eqb protocol "http:" || String.eqb protocol "https:") then
            throws invalidUrl []
          else
            match fetch web (url params) with
            | Rejected error => throws error [url params]
            | Fulfilled res =>
                if negb (resOk res) then throws (fetchFailed res) [url params]
                else
                  let contentType :=
                    default "application/octet-stream" (resContentType res) in
                  match resBody res with
                  | Rejected error => throws error [url params]
                  | Fulfilled body =>
                      match extract web (url params) extractMode contentType body with
                      | Rejected error => throws error [url params]
                      | Fulfilled (extractor, text, title) =>
                          let truncated := truncateAt text maxChars in
                          let payload :=
                            {| payloadUrl := url params;
                               status := resStatus res;
                               contentType := trim (beforeSemicolon contentType);
                               title := title;
                               payloadExtractMode := extractMode;
                               extractor := extractor;
                               truncated := snd truncated;
                               textLength := String.length (fst truncated);
                               tookMs := tEnd - tStart;
                               text := fst truncated |} in
                          {| fetchOutcome :=
                               Fulfilled {| fetched := payload; markedCached := false |};
                             fetchCacheAfter := writeCache cacheKey payload tWrite cache1;
                             fetchCalls := [url params] |}
                      end
                  end
            end
      end
  end.

(** ** Scenarios for the web tools and the REPL helpers *)

(** A page of twenty characters. *)
Definition page : string := "<h1>Title</h1> text.".

(** Two paragraphs with a blank line between them. *)
Definition tidy : string :=
  "Title" +:+ String newline (String newline "Body.").

(** The same paragraphs, indented, four line feeds apart, with a trailing
    space and line feed. *)
Definition untidy : string :=
  "  Title" +:+
  String newline (String newline (String newline (String newline ("Body. " +:+
  String newline "")))).

(** What a fetch of that page gave. *)
Definition payload : JsObject :=
  [("url", VStr "https://example.org/"); ("status", VNum (Int 200)); ("text", VStr page)].

(** Only the Perplexity key is set. *)
Definition perplexityOnly : gmap string string :=
  {[ "PERPLEXITY_API_KEY" := "pplx-1" ]}.

(** Only the Brave key is set. *)
Definition braveOnly : gmap string string :=
  {[ "BRAVE_API_KEY" := "BSA-1" ]}.

(** A search asking for fifty results, and the same search for Germany. *)
Definition searchFor (region : option string) : SearchParams :=
  {| query := "rocq"; count := Some (Int 50); country := region; freshness := None |}.

(** A search service that finds nothing. *)
Definition nothingFound : SearchCall -> Settled JsObject := fun call =>
  match call with
  | CallBrave p =>
      Fulfilled [("query", VStr (braveQuery p)); ("provider", VStr "brave");
                 ("count", VNum (Int 0)); ("results", VArr [])]
  | CallPerplexity p =>
      Fulfilled [("query", VStr (perplexityQuery p)); ("provider", VStr "perplexity");
                 ("model", VStr "sonar-pro"); ("content", VStr "No response");
                 ("citations", VArr [])]
  end.

(** A search service that is down. *)
Definition serviceDown : SearchCall -> Settled JsObject := fun _ =>
  Rejected (ErrorInstance "Brave Search API error (503): Service Unavailable").

(** A site that serves the page as markdown at one address and has nothing
    elsewhere. *)
Definition site : Web :=
  {| protocolOf := fun url =>
       if String.prefix "https://" url then Some "https:"
       else if String.prefix "ftp://" url then Some "ftp:"
       else None;
     fetch := fun url =>
       if String.eqb url "https://example.org/" then
         Fulfilled {| resOk := true; resStatus := 200; resStatusText := "OK";
                      resContentType := Some "text/markdown; charset=utf-8";
                      resBody := Fulfilled page |}
       else
         Fulfilled {| resOk := false; resStatus := 404; resStatusText := "Not Found";
                      resContentType := None; resBody := Fulfilled "gone" |};
     parseArticle := fun _ _ => Fulfilled None;
     prettyJSON := fun _ => None |}.

(** A site whose pages all read as the same article. *)
Definition blog : Web :=
  {| protocolOf := protocolOf site;
     fetch := fetch site;
     parseArticle := fun _ _ =>
       Fulfilled (Some {| articleContent := Some "<p>Hello</p>";
                          articleTextContent := Some " Hello ";
                          articleTitle := Some "Greeting" |});
     prettyJSON := fun _ => None |}.

(** The same addresses with the network down. *)
Definition offline : Web :=
  {| protocolOf := protocolOf site;
     fetch := fun _ => Rejected (ErrorInstance "fetch failed");
     parseArticle := fun _ _ => Fulfilled None;
     prettyJSON := fun _ => None |}.

Definition fetchOf (address : string) (limit : option number) : FetchParams :=
  {| url := address; extractMode := None; maxChars := limit |}.

(** What fetching the page gives when it takes seven milliseconds. *)
Definition pagePayload : FetchPayload :=
  {| payloadUrl := "https://example.org/"; status := 200; contentType := "text/markdown";
     title := None; payloadExtractMode := "markdown"; extractor := "cf-markdown";
     truncated := false; textLength := 20; tookMs := 7; text := page |}.

(** A user skill [deploy]; the project has its own [deploy] and a [lint];
    the bundled directory cannot be read. *)
Definition twoSources : SkillLoader := fun source =>
  if String.eqb source "user" then
    Some ([{| skillName := "deploy"; skillDescription := "mine"; skillSource := "user" |}], [])
  else if String.eqb source "project" then
    Some ([{| skillName := "deploy"; skillDescription := "theirs"; skillSource := "project" |};
           {| skillName := "lint"; skillDescription := "checks"; skillSource := "project" |}],
          ["bad front matter"])
  else None.

(** A turn in which the assistant calls a tool and then answers. *)
Definition toolTurn : AgentMessage :=
  {| role := "assistant";
     content := Parts [{| partType := "text"; partText := Some "Reading. "; partName := None |};
                       {| partType := "tool_use"; partText := None; partName := Some "read" |};
                       {| partType := "tool_use"; partText := None; partName := None |}] |}.

Definition conversation : list AgentMessage :=
  [{| role := "user"; content := Text "What is in a.txt?" |};
   toolTurn;
   {| role := "toolResult"; content := Parts [{| partType := "text"; partText := Some "abc";
                                                 partName := None |}] |}].

(** A workspace with a [CLAUDE.md], a blank [SOUL.md] and nothing else. *)
Definition workspaceFiles : string -> option string := fun name =>
  if String.eqb name "CLAUDE.md" then Some (String " " (String " " "Be brief." +:+ String newline ""))
  else if String.eqb name "SOUL.md" then Some "   "
  else None.

(** * Properties *)

(** ** How the methods run *)

Section Running.

Lemma getNoProgressStreak_run k d :
  getNoProgressStreak k d = (noProgressStreak k (history d), d).
Proof. reflexivity. Qed.

Lemma getPingPongCount_run k d :
  getPingPongCount k d = (pingPongCount k (history d), d).
Proof. reflexivity. Qed.

Lemma detect_run name params d :
  detect name params d =
  (verdictOf name (noProgressStreak (toolKey name params) (history d))
                  (pingPongCount (toolKey name params) (history d))
                  (repeatCount (toolKey name params) (history d)),
   d).
Proof.
  unfold detect, verdictOf, bind.
  rewrite getNoProgressStreak_run.
  destruct (CIRCUIT_BREAKER_THRESHOLD <=? _)%nat; [reflexivity|].
  destruct (CRITICAL_THRESHOLD <=? noProgressStreak _ _)%nat; [reflexivity|].
  rewrite getPingPongCount_run.
  destruct (CRITICAL_THRESHOLD <=? pingPongCount _ _)%nat; [reflexivity|].
  destruct (WARNING_THRESHOLD <=? pingPongCount _ _)%nat; [reflexivity|].
  unfold getHistory.
  destruct (WARNING_THRESHOLD <=? repeatCount _ _)%nat; reflexivity.
Qed.

Lemma record_run name params result error d :
  record name params result error d =
  (tt, {| history :=
            (let pushed := history d ++
               [{| key := toolKey name params; toolName := name;
                   resultKey := outcomeKey result error |}] in
             if (HISTORY_SIZE <? length pushed)%nat then tail pushed else pushed);
          warningBuckets := warningBuckets d |}).
Proof.
  unfold record, bind, getHistory, setHistory. cbv zeta.
  destruct (HISTORY_SIZE <? _)%nat; reflexivity.
Qed.

Lemma recordCall_history c d :
  history (execM (recordCall c) d) =
  (if (HISTORY_SIZE <? length (history d ++ [entryOf c]))%nat
   then tail (history d ++ [entryOf c]) else history d ++ [entryOf c]).
Proof. unfold execM, recordCall. rewrite record_run. reflexivity. Qed.

Lemma recordCall_buckets c d :
  warningBuckets (execM (recordCall c) d) = warningBuckets d.
Proof. unfold execM, recordCall. rewrite record_run. reflexivity. Qed.

Lemma recordAll_cons c cs d :
  execM (recordAll (c :: cs)) d = execM (recordAll cs) (execM (recordCall c) d).
Proof.
  unfold execM. simpl. unfold bind. destruct (recordCall c d). reflexivity.
Qed.

Lemma recordAll_app cs1 cs2 d :
  execM (recordAll (cs1 ++ cs2)) d = execM (recordAll cs2) (execM (recordAll cs1) d).
Proof.
  revert d. induction cs1 as [|c cs1 IH]; intros d; [reflexivity|].
  rewrite <- app_comm_cons, !recordAll_cons. apply IH.
Qed.

Lemma shouldWarn_run name params d :
  shouldWarn name params d =
  (let k := toolKey name params in
   let bucket := (Z.of_nat (repeatCount k (history d)) / Z.of_nat WARNING_BUCKET_SIZE)%Z in
   if (bucket <=? default (-1)%Z (warningBuckets d !! k))%Z then (false, d)
   else (true, {| history := history d;
                  warningBuckets := <[k := bucket]> (warningBuckets d) |})).
Proof.
  unfold shouldWarn, bind, getHistory, getBuckets, setBuckets, ret. cbv zeta.
  destruct (_ <=? _)%Z; reflexivity.
Qed.

End Running.

(** ** The sliding window *)

Section Window.

Lemma lastN_all {A : Type} n (l : list A) : length l <= n -> lastN n l = l.
Proof. intros H. unfold lastN. replace (length l - n) with 0 by lia. reflexivity. Qed.

Lemma lastN_length {A : Type} n (l : list A) : length (lastN n l) = Nat.min n (length l).
Proof. unfold lastN. rewrite length_skipn. lia. Qed.

Lemma lastN_tail {A : Type} n (l : list A) :
  length l = S n -> lastN n l = tail l.
Proof.
  intros H. unfold lastN. rewrite H. replace (S n - n) with 1 by lia.
  destruct l; reflexivity.
Qed.

Lemma lastN_snoc {A : Type} n (l : list A) x :
  lastN (S n) (l ++ [x]) = lastN n l ++ [x].
Proof.
  unfold lastN. rewrite length_app. simpl.
  replace (length l + 1 - S n) with (length l - n) by lia.
  rewrite skipn_app.
  replace (length l - n - length l) with 0 by lia. reflexivity.
Qed.

(** One [record] keeps the last 30 of what it is given plus the new entry. *)
Lemma recordCall_window c d :
  length (history d) <= HISTORY_SIZE ->
  history (execM (recordCall c) d) = lastN HISTORY_SIZE (history d ++ [entryOf c]).
Proof.
  intros Hlen. rewrite recordCall_history.
  destruct (HISTORY_SIZE <? _)%nat eqn:E.
  - apply Nat.ltb_lt in E. symmetry. apply lastN_tail.
    rewrite length_app in *. simpl in *. lia.
  - apply Nat.ltb_ge in E. symmetry. apply lastN_all. exact E.
Qed.

Lemma recordAll_window cs : forall d,
  length (history d) <= HISTORY_SIZE ->
  history (execM (recordAll cs) d) = lastN HISTORY_SIZE (history d ++ map entryOf cs).
Proof.
  induction cs as [|c cs IH]; intros d Hlen.
  - simpl. rewrite app_nil_r. symmetry. apply lastN_all. exact Hlen.
  - rewrite recordAll_cons, IH.
    + rewrite recordCall_window by exact Hlen.
      simpl map. change (entryOf c :: map entryOf cs) with ([entryOf c] ++ map entryOf cs).
      rewrite (app_assoc (history d)).
      generalize (history d ++ [entryOf c]) as l. intros l.
      induction (map entryOf cs) as [|e es IHes] using rev_ind.
      * rewrite !app_nil_r. unfold lastN at 1. rewrite lastN_length.
        replace (Nat.min HISTORY_SIZE (length l) - HISTORY_SIZE) with 0 by lia.
        reflexivity.
      * rewrite !app_assoc. unfold HISTORY_SIZE in *.
        rewrite !lastN_snoc. f_equal.
        unfold lastN in *. rewrite !length_app, length_skipn in *.
        rewrite !skipn_app, skipn_skipn, length_skipn.
        f_equal; [f_equal; lia | f_equal; lia].
    + rewrite recordCall_window by exact Hlen. rewrite lastN_length. lia.
Qed.

(** [C5] The window bound.  Starting from a fresh (or reset) detector, after
    any sequence of [record] calls the history holds at most 30 entries and
    is exactly the last 30 recorded entries, in recording order; after more
    than 30 calls its length is exactly 30. *)
Theorem C5_window_bound (cs : list Call) :
  let h := history (execM (recordAll cs) newDetector) in
  length h <= 30 /\
  h = lastN 30 (map entryOf cs) /\
  (30 < length cs -> length h = 30).
Proof.
  cbv zeta.
  assert (E : history (execM (recordAll cs) newDetector) = lastN 30 (map entryOf cs)).
  { rewrite recordAll_window by (simpl; unfold HISTORY_SIZE; lia). reflexivity. }
  rewrite E, lastN_length, length_map. repeat split; lia.
Qed.

End Window.

(** ** Which method writes what *)

Section Frame.

(** [C9] [detect] leaves the detector as it found it, and so do the two
    private scans it calls; [record] and [reset] are the only methods that
    write the history ([shouldWarn] writes the bucket table only, [record]
    the history only). *)
Theorem C9_detect_does_not_mutate (name : string) (params : value)
    (result : option value) (error : option thrown) (d : ToolLoopDetector) :
  execM (detect name params) d = d /\
  execM (getNoProgressStreak (toolKey name params)) d = d /\
  execM (getPingPongCount (toolKey name params)) d = d /\
  history (execM (shouldWarn name params) d) = history d /\
  warningBuckets (execM (record name params result error) d) = warningBuckets d /\
  execM reset d = newDetector.
Proof.
  unfold execM.
  rewrite detect_run, getNoProgressStreak_run, getPingPongCount_run,
    shouldWarn_run, record_run.
  repeat split.
  cbv zeta. destruct (_ <=? _)%Z; reflexivity.
Qed.

End Frame.

(** ** Warning deduplication *)

Section Dedup.

Variables (name : string) (params : value).

Lemma shouldWarn_suppressed d :
  (bucketOf name params d <= lastBucketOf name params d)%Z ->
  shouldWarn name params d = (false, d).
Proof.
  intros H. rewrite shouldWarn_run. cbv zeta.
  change (Z.of_nat WARNING_BUCKET_SIZE) with 10%Z.
  apply Z.leb_le in H. unfold bucketOf, lastBucketOf in H. rewrite H. reflexivity.
Qed.

Lemma shouldWarn_surfaced d :
  (lastBucketOf name params d < bucketOf name params d)%Z ->
  shouldWarn name params d =
  (true, {| history := history d;
            warningBuckets :=
              <[toolKey name params := bucketOf name params d]> (warningBuckets d) |}).
Proof.
  intros H. rewrite shouldWarn_run. cbv zeta.
  change (Z.of_nat WARNING_BUCKET_SIZE) with 10%Z.
  apply Z.leb_gt in H. unfold bucketOf, lastBucketOf in H. rewrite H. reflexivity.
Qed.

End Dedup.

(** [C6] [shouldWarn] computes [bucket = floor(count / 10)] from the number
    of history entries with the call's key.  If the bucket is at most the
    last bucket stored for the key (-1 when none is stored) it answers
    [false] and changes nothing; otherwise it stores the bucket and answers
    [true].  Hence, once the warning got through at count 10, it is
    suppressed at counts 11 to 19 and gets through again at count 20. *)
Theorem C6_shouldWarn_buckets (name : string) (params : value) (d : ToolLoopDetector) :
  let k := toolKey name params in
  let count := repeatCount k (history d) in
  let bucket := (Z.of_nat count / 10)%Z in
  let lastBucket := default (-1)%Z (warningBuckets d !! k) in
  ((bucket <= lastBucket)%Z -> shouldWarn name params d = (false, d)) /\
  ((lastBucket < bucket)%Z ->
     shouldWarn name params d =
     (true, {| history := history d;
               warningBuckets := <[k := bucket]> (warningBuckets d) |})) /\
  (count = 10 -> evalM (shouldWarn name params) d = true ->
     forall d' : ToolLoopDetector,
       warningBuckets d' !! k = warningBuckets (execM (shouldWarn name params) d) !! k ->
       (11 <= repeatCount k (history d') <= 19 ->
          shouldWarn name params d' = (false, d')) /\
       (repeatCount k (history d') = 20 ->
          evalM (shouldWarn name params) d' = true)).
Proof.
  cbv zeta. split; [|split].
  - apply shouldWarn_suppressed.
  - apply shouldWarn_surfaced.
  - intros Hcount Hwarn d' Htable.
    assert (Hb : bucketOf name params d = 1%Z)
      by (unfold bucketOf; rewrite Hcount; reflexivity).
    destruct (Z.le_gt_cases (bucketOf name params d) (lastBucketOf name params d))
      as [Hle|Hgt].
    { unfold evalM in Hwarn. rewrite (shouldWarn_suppressed _ _ _ Hle) in Hwarn.
      discriminate. }
    unfold execM in Htable. rewrite (shouldWarn_surfaced _ _ _ Hgt) in Htable.
    simpl in Htable. rewrite lookup_insert_eq, Hb in Htable.
    assert (Hlast : lastBucketOf name params d' = 1%Z)
      by (unfold lastBucketOf; rewrite Htable; reflexivity).
    split.
    + intros Hrange. apply shouldWarn_suppressed. rewrite Hlast. unfold bucketOf.
      apply Z.lt_succ_r. apply Z.div_lt_upper_bound; lia.
    + intros H20. unfold evalM. rewrite shouldWarn_surfaced; [reflexivity|].
      rewrite Hlast. unfold bucketOf. rewrite H20. reflexivity.
Qed.

(** ** The no-progress streak *)

Section Streak.

Variable k : string.

Lemma repeatCount_app h1 h2 :
  repeatCount k (h1 ++ h2) = repeatCount k h1 + repeatCount k h2.
Proof. unfold repeatCount. rewrite filter_app, length_app. reflexivity. Qed.

Lemma repeatCount_one r :
  repeatCount k [r] = if String.eqb (key r) k then 1 else 0.
Proof.
  unfold repeatCount. rewrite filter_cons, filter_nil.
  destruct (decide _) as [E|E]; destruct (String.eqb (key r) k); try reflexivity;
    congruence.
Qed.

Lemma repeatCount_cons r h :
  repeatCount k (r :: h) = (if String.eqb (key r) k then 1 else 0) + repeatCount k h.
Proof. change (r :: h) with ([r] ++ h). rewrite repeatCount_app, repeatCount_one. reflexivity. Qed.

Lemma repeatCount_rev h : repeatCount k (rev h) = repeatCount k h.
Proof.
  induction h as [|r h IH]; [reflexivity|].
  simpl rev. rewrite repeatCount_app, repeatCount_one, repeatCount_cons, IH. lia.
Qed.

Lemma repeatCount_le_length h : repeatCount k h <= length h.
Proof.
  induction h as [|r h IH]; [reflexivity|].
  rewrite repeatCount_cons. simpl. destruct (String.eqb (key r) k); lia.
Qed.

Lemma repeatCount_full h :
  repeatCount k h = length h -> Forall (fun r => key r = k) h.
Proof.
  induction h as [|r h IH]; intros H; [constructor|].
  rewrite repeatCount_cons in H. simpl in H.
  pose proof (repeatCount_le_length h).
  destruct (String.eqb_spec (key r) k) as [E|E]; [|lia].
  constructor; [exact E | apply IH; lia].
Qed.

(** Entries of other calls are invisible to the scan. *)
Lemma streakScan_filter hs : forall s e,
  streakScan k hs s e = streakScan k (filter (fun r => String.eqb (key r) k = true) hs) s e.
Proof.
  induction hs as [|h hs IH]; intros s e; [reflexivity|].
  rewrite filter_cons. destruct (decide _) as [E|E].
  - simpl. rewrite E. simpl.
    destruct (truthy (resultKey h)); simpl; [|apply IH].
    destruct (truthy e); simpl; [|apply IH].
    destruct (sameResult (resultKey h) e); simpl; [apply IH|reflexivity].
  - simpl. destruct (String.eqb (key h) k); [congruence|]. simpl. apply IH.
Qed.

Lemma filter_rev_matches (h : list ToolCallRecord) :
  filter (fun r => String.eqb (key r) k = true) (rev h) =
  rev (filter (fun r => String.eqb (key r) k = true) h).
Proof.
  induction h as [|r h IH]; [reflexivity|].
  simpl rev. rewrite filter_app, IH, filter_cons.
  destruct (decide _); rewrite filter_cons; destruct (decide _); try congruence.
  - reflexivity.
  - rewrite filter_nil, app_nil_r. reflexivity.
Qed.

Lemma noProgressStreak_filter h :
  noProgressStreak k h =
  noProgressStreak k (filter (fun r => String.eqb (key r) k = true) h).
Proof.
  unfold noProgressStreak. rewrite streakScan_filter, filter_rev_matches. reflexivity.
Qed.

(** An entry without an outcome key is skipped. *)
Lemma streakScan_pending h hs s e :
  truthy (resultKey h) = false -> streakScan k (h :: hs) s e = streakScan k hs s e.
Proof.
  intros H. simpl. rewrite H. destruct (String.eqb (key h) k); reflexivity.
Qed.

Lemma streakScan_bound hs : forall s e, streakScan k hs s e <= s + repeatCount k hs.
Proof.
  induction hs as [|h hs IH]; intros s e; [simpl; lia|].
  rewrite repeatCount_cons. simpl.
  destruct (String.eqb (key h) k); simpl.
  - destruct (truthy (resultKey h)); simpl; [|specialize (IH s e); lia].
    destruct (truthy e); simpl; [|specialize (IH 1 (resultKey h)); lia].
    destruct (sameResult (resultKey h) e); simpl; [specialize (IH (S s) e); lia|lia].
  - specialize (IH s e); lia.
Qed.

Lemma noProgressStreak_le_repeatCount h : noProgressStreak k h <= repeatCount k h.
Proof.
  unfold noProgressStreak. pose proof (streakScan_bound (rev h) 0 None) as H.
  rewrite repeatCount_rev in H. exact H.
Qed.

(** Scanning one entry further back never shortens the streak. *)
Lemma streakScan_snoc hs x : forall s e,
  (truthy e = false -> s = 0) ->
  streakScan k hs s e <= streakScan k (hs ++ [x]) s e.
Proof.
  induction hs as [|h hs IH]; intros s e Hinv.
  - simpl.
    destruct (String.eqb (key x) k); simpl; [|lia].
    destruct (truthy (resultKey x)); simpl; [|lia].
    destruct (truthy e) eqn:Et; simpl; [|rewrite Hinv by reflexivity; lia].
    destruct (sameResult (resultKey x) e); simpl; lia.
  - simpl.
    destruct (String.eqb (key h) k); simpl; [|apply IH; exact Hinv].
    destruct (truthy (resultKey h)) eqn:Eh; simpl; [|apply IH; exact Hinv].
    destruct (truthy e) eqn:Et; simpl.
    + destruct (sameResult (resultKey h) e); simpl; [|lia].
      apply IH. intros; congruence.
    + apply IH. intros; congruence.
Qed.

Lemma noProgressStreak_tail h : noProgressStreak k (tail h) <= noProgressStreak k h.
Proof.
  destruct h as [|x h]; [reflexivity|].
  unfold noProgressStreak. simpl. apply streakScan_snoc. reflexivity.
Qed.

(** A run of entries of this call with one and the same outcome key. *)
Lemma streakScan_same r hs : forall s,
  truthy (Some r) = true ->
  Forall (fun h => key h = k /\ resultKey h = Some r) hs ->
  streakScan k hs (S s) (Some r) = S s + length hs.
Proof.
  induction hs as [|h hs IH]; intros s Ht Hall; [simpl; lia|].
  inversion Hall as [|? ? [Hk Hr] Hall' [E1 E2]].
  cbn [streakScan]. rewrite Hk, String.eqb_refl, Hr, Ht.
  cbn [negb sameResult]. rewrite String.eqb_refl. cbn [negb].
  rewrite IH by assumption. simpl. lia.
Qed.

Lemma streakScan_same_start r hs :
  truthy (Some r) = true ->
  Forall (fun h => key h = k /\ resultKey h = Some r) hs ->
  streakScan k hs 0 None = length hs.
Proof.
  intros Ht Hall. destruct hs as [|h hs]; [reflexivity|].
  inversion Hall as [|? ? [Hk Hr] Hall' [E1 E2]].
  cbn [streakScan]. rewrite Hk, String.eqb_refl, Hr, Ht. cbn [negb truthy].
  rewrite streakScan_same by assumption. reflexivity.
Qed.

(** Interleaved calls do not matter: when every entry of this call carries
    the same outcome key, the streak is the number of such entries. *)
Lemma noProgressStreak_interleaved r h :
  truthy (Some r) = true ->
  Forall (fun e => key e = k -> resultKey e = Some r) h ->
  noProgressStreak k h = repeatCount k h.
Proof.
  intros Ht Hall. rewrite noProgressStreak_filter.
  unfold noProgressStreak, repeatCount.
  rewrite (streakScan_same_start r), length_rev; [reflexivity|exact Ht|].
  apply Forall_forall. intros e He.
  apply list_elem_of_In, in_rev, list_elem_of_In, list_elem_of_filter in He.
  destruct He as [Hm He].
  apply String.eqb_eq in Hm. rewrite Forall_forall in Hall. split; [exact Hm|].
  apply Hall; [exact He | exact Hm].
Qed.

End Streak.

(** ** The ping-pong scan *)

Section PingPong.

Variables currentKey otherKey : string.

Lemma sameResult_true a b : sameResult a b = true <-> a = b.
Proof.
  destruct a as [x|], b as [y|]; simpl; try (split; congruence).
  rewrite String.eqb_eq. split; congruence.
Qed.

Lemma sameResult_false a b : sameResult a b = false <-> a <> b.
Proof.
  rewrite <- sameResult_true. destruct (sameResult a b); split; congruence.
Qed.

Lemma scanned_keys hs : forall c x,
  In x (scanned currentKey otherKey hs c) -> key x = currentKey \/ key x = otherKey.
Proof.
  induction hs as [|h hs IH]; intros c x Hx; [simpl in Hx; destruct Hx|].
  cbn [scanned] in Hx.
  destruct (String.eqb (key h) _) eqn:E; [|destruct Hx].
  apply String.eqb_eq in E.
  destruct Hx as [<-|Hx]; [|eapply IH; exact Hx].
  destruct (c mod 2 =? 0)%nat; auto.
Qed.

Lemma scanned_length hs : forall c,
  length (scanned currentKey otherKey hs c) <= length hs.
Proof.
  induction hs as [|h hs IH]; intros c; [reflexivity|].
  cbn [scanned]. destruct (String.eqb (key h) _); simpl; [|lia].
  specialize (IH (S c)). lia.
Qed.

(** The loop counts exactly the entries it visits. *)
Lemma pingPongScan_count hs : forall c rA rB np,
  fst (pingPongScan currentKey otherKey hs c rA rB np) =
  c + length (scanned currentKey otherKey hs c).
Proof.
  induction hs as [|h hs IH]; intros c rA rB np; [simpl; lia|].
  cbn [pingPongScan scanned].
  destruct (String.eqb (key h) _); cbn [negb]; [|simpl; lia].
  cbn [length].
  destruct (truthy (resultKey h));
    [destruct (String.eqb (key h) currentKey);
      [destruct (truthy rA); cbn [negb];
        [destruct (sameResult rA (resultKey h)); cbn [negb]|]
      |destruct (truthy rB); cbn [negb];
        [destruct (sameResult rB (resultKey h)); cbn [negb]|]]|];
    rewrite IH; lia.
Qed.

Lemma pingPongScan_change hs : forall c rA rB np,
  sawChange currentKey (scanned currentKey otherKey hs c) rA rB np ->
  snd (pingPongScan currentKey otherKey hs c rA rB np) = false.
Proof.
  induction hs as [|h hs IH]; intros c rA rB np Hsaw.
  - destruct Hsaw as [H|[(x & [] & _)|[(x & [] & _)|(x & y & [] & _)]]]. exact H.
  - cbn [pingPongScan scanned] in *.
    destruct (String.eqb (key h) _); cbn [negb].
    2:{ destruct Hsaw as [H|[(x & [] & _)|[(x & [] & _)|(x & y & [] & _)]]]. exact H. }
    set (run := scanned currentKey otherKey hs (S c)) in *.
    destruct (truthy (resultKey h)) eqn:Eh.
    + destruct (String.eqb (key h) currentKey) eqn:Eside.
      * (* the visited entry is on the side of the current call *)
        destruct (truthy rA) eqn:EA; cbn [negb].
        -- destruct (sameResult rA (resultKey h)) eqn:Es; cbn [negb];
             [apply sameResult_true in Es | apply IH; left; reflexivity].
           apply IH.
           destruct Hsaw as [H|[(x & Hx & H1 & H2 & H3 & H4)|[(x & Hx & H1 & H2 & H3 & H4)|
                             (x & y & Hx & Hy & Hc)]]].
           ++ left; exact H.
           ++ destruct Hx as [<-|Hx]; [congruence|].
              right; left; exists x; auto.
           ++ destruct Hx as [<-|Hx]; [congruence|].
              right; right; left; exists x; auto.
           ++ destruct Hx as [<-|Hx], Hy as [<-|Hy].
              ** destruct Hc as (_ & _ & _ & Hne). congruence.
              ** destruct Hc as (Hs & _ & Hty & Hne).
                 right; left; exists y. repeat split; auto; congruence.
              ** destruct Hc as (Hs & Htx & _ & Hne).
                 right; left; exists x. repeat split; auto; congruence.
              ** right; right; right; exists x, y; auto.
        -- apply IH.
           destruct Hsaw as [H|[(x & Hx & H1 & H2 & H3 & H4)|[(x & Hx & H1 & H2 & H3 & H4)|
                             (x & y & Hx & Hy & Hc)]]].
           ++ left; exact H.
           ++ congruence.
           ++ destruct Hx as [<-|Hx]; [congruence|].
              right; right; left; exists x; auto.
           ++ destruct Hx as [<-|Hx], Hy as [<-|Hy].
              ** destruct Hc as (_ & _ & _ & Hne). congruence.
              ** destruct Hc as (Hs & _ & Hty & Hne).
                 right; left; exists y. repeat split; auto; congruence.
              ** destruct Hc as (Hs & Htx & _ & Hne).
                 right; left; exists x. repeat split; auto; congruence.
              ** right; right; right; exists x, y; auto.
      * (* the visited entry is on the other side *)
        destruct (truthy rB) eqn:EB; cbn [negb].
        -- destruct (sameResult rB (resultKey h)) eqn:Es; cbn [negb];
             [apply sameResult_true in Es | apply IH; left; reflexivity].
           apply IH.
           destruct Hsaw as [H|[(x & Hx & H1 & H2 & H3 & H4)|[(x & Hx & H1 & H2 & H3 & H4)|
                             (x & y & Hx & Hy & Hc)]]].
           ++ left; exact H.
           ++ destruct Hx as [<-|Hx]; [congruence|].
              right; left; exists x; auto.
           ++ destruct Hx as [<-|Hx]; [congruence|].
              right; right; left; exists x; auto.
           ++ destruct Hx as [<-|Hx], Hy as [<-|Hy].
              ** destruct Hc as (_ & _ & _ & Hne). congruence.
              ** destruct Hc as (Hs & _ & Hty & Hne).
                 right; right; left; exists y. repeat split; auto; congruence.
              ** destruct Hc as (Hs & Htx & _ & Hne).
                 right; right; left; exists x. repeat split; auto; congruence.
              ** right; right; right; exists x, y; auto.
        -- apply IH.
           destruct Hsaw as [H|[(x & Hx & H1 & H2 & H3 & H4)|[(x & Hx & H1 & H2 & H3 & H4)|
                             (x & y & Hx & Hy & Hc)]]].
           ++ left; exact H.
           ++ destruct Hx as [<-|Hx]; [congruence|].
              right; left; exists x; auto.
           ++ congruence.
           ++ destruct Hx as [<-|Hx], Hy as [<-|Hy].
              ** destruct Hc as (_ & _ & _ & Hne). congruence.
              ** destruct Hc as (Hs & _ & Hty & Hne).
                 right; right; left; exists y. repeat split; auto; congruence.
              ** destruct Hc as (Hs & Htx & _ & Hne).
                 right; right; left; exists x. repeat split; auto; congruence.
              ** right; right; right; exists x, y; auto.
    + (* an entry without outcome key changes nothing *)
      apply IH.
      destruct Hsaw as [H|[(x & Hx & H1 & H2 & H3 & H4)|[(x & Hx & H1 & H2 & H3 & H4)|
                        (x & y & Hx & Hy & Hc)]]].
      * left; exact H.
      * destruct Hx as [<-|Hx]; [congruence|]. right; left; exists x; auto.
      * destruct Hx as [<-|Hx]; [congruence|]. right; right; left; exists x; auto.
      * destruct Hc as (Hs & Htx & Hty & Hne).
        destruct Hx as [<-|Hx]; [congruence|]. destruct Hy as [<-|Hy]; [congruence|].
        right; right; right; exists x, y. repeat split; auto.
Qed.

Local Ltac split_saw H :=
  let x := fresh "x" in let y := fresh "y" in
  let Hx := fresh "Hx" in let Hy := fresh "Hy" in
  let H1 := fresh "Hside" in let H2 := fresh "Htx" in
  let H3 := fresh "Htr" in let H4 := fresh "Hne" in
  destruct H as [H|[(x & Hx & H1 & H2 & H3 & H4)|[(x & Hx & H1 & H2 & H3 & H4)|
                 (x & y & Hx & Hy & H1 & H2 & H3 & H4)]]].

(** Conversely the flag is cleared only for one of these reasons. *)
Lemma pingPongScan_cleared hs : forall c rA rB np,
  snd (pingPongScan currentKey otherKey hs c rA rB np) = false ->
  sawChange currentKey (scanned currentKey otherKey hs c) rA rB np.
Proof.
  induction hs as [|h hs IH]; intros c rA rB np Hsnd.
  - left. exact Hsnd.
  - cbn [pingPongScan scanned] in *.
    destruct (String.eqb (key h) _); cbn [negb] in Hsnd; [|left; exact Hsnd].
    set (run := scanned currentKey otherKey hs (S c)) in *.
    destruct (truthy (resultKey h)) eqn:Eh.
    + destruct (String.eqb (key h) currentKey) eqn:Eside.
      * destruct (truthy rA) eqn:EA; cbn [negb] in Hsnd.
        -- destruct (sameResult rA (resultKey h)) eqn:Es; cbn [negb] in Hsnd.
           ++ apply IH in Hsnd. split_saw Hsnd.
              ** left; exact Hsnd.
              ** right; left; exists x; repeat split; auto; right; exact Hx.
              ** right; right; left; exists x; repeat split; auto; right; exact Hx.
              ** right; right; right; exists x, y; repeat split; auto; right; assumption.
           ++ apply sameResult_false in Es.
              right; left; exists h; split; [left; reflexivity|];
                repeat split; auto; congruence.
        -- apply IH in Hsnd. split_saw Hsnd.
           ++ left; exact Hsnd.
           ++ right; right; right; exists x, h; split; [right; exact Hx|];
                split; [left; reflexivity|]; repeat split; auto; congruence.
           ++ right; right; left; exists x; repeat split; auto; right; exact Hx.
           ++ right; right; right; exists x, y; repeat split; auto; right; assumption.
      * destruct (truthy rB) eqn:EB; cbn [negb] in Hsnd.
        -- destruct (sameResult rB (resultKey h)) eqn:Es; cbn [negb] in Hsnd.
           ++ apply IH in Hsnd. split_saw Hsnd.
              ** left; exact Hsnd.
              ** right; left; exists x; repeat split; auto; right; exact Hx.
              ** right; right; left; exists x; repeat split; auto; right; exact Hx.
              ** right; right; right; exists x, y; repeat split; auto; right; assumption.
           ++ apply sameResult_false in Es.
              right; right; left; exists h; split; [left; reflexivity|];
                repeat split; auto; congruence.
        -- apply IH in Hsnd. split_saw Hsnd.
           ++ left; exact Hsnd.
           ++ right; left; exists x; repeat split; auto; right; exact Hx.
           ++ right; right; right; exists x, h; split; [right; exact Hx|];
                split; [left; reflexivity|]; repeat split; auto; congruence.
           ++ right; right; right; exists x, y; repeat split; auto; right; assumption.
    + apply IH in Hsnd. split_saw Hsnd.
      * left; exact Hsnd.
      * right; left; exists x; repeat split; auto; right; exact Hx.
      * right; right; left; exists x; repeat split; auto; right; exact Hx.
      * right; right; right; exists x, y; repeat split; auto; right; assumption.
Qed.

End PingPong.

Section PingPongCount.

Variable currentKey : string.

(** No alternation when the latest entry is the call itself. *)
Lemma pingPongCount_last_same h last :
  key last = currentKey -> pingPongCount currentKey (h ++ [last]) = 0.
Proof.
  intros E. unfold pingPongCount. destruct (_ <? 2)%nat; [reflexivity|].
  rewrite rev_unit, E, String.eqb_refl. reflexivity.
Qed.

(** The count in terms of the visited run. *)
Lemma pingPongCount_run h last :
  key last <> currentKey ->
  let run := scanned currentKey (key last) (last :: rev h) 0 in
  (2 <= length run -> stableOutcomes currentKey run ->
     pingPongCount currentKey (h ++ [last]) = length run + 1) /\
  ((exists x y, In x run /\ In y run /\ outcomeChanged currentKey x y) ->
     pingPongCount currentKey (h ++ [last]) = 0) /\
  (length run < 2 -> pingPongCount currentKey (h ++ [last]) = 0).
Proof.
  intros Hne run. unfold pingPongCount. rewrite rev_unit.
  apply String.eqb_neq in Hne. rewrite Hne.
  pose proof (pingPongScan_count currentKey (key last) (last :: rev h) 0 None None true) as Hc.
  destruct (pingPongScan currentKey (key last) (last :: rev h) 0 None None true)
    as [count np] eqn:Escan.
  simpl fst in Hc. fold run in Hc. rewrite Nat.add_0_l in Hc. subst count.
  assert (Hlen : length run <= length (h ++ [last])).
  { pose proof (scanned_length currentKey (key last) (last :: rev h) 0) as Hl.
    fold run in Hl. simpl length in Hl. rewrite length_rev in Hl.
    rewrite length_app. simpl. lia. }
  repeat split.
  - intros H2 Hstable.
    destruct (length (h ++ [last]) <? 2)%nat eqn:E1; [apply Nat.ltb_lt in E1; lia|].
    destruct (length run <? 2)%nat eqn:E2; [apply Nat.ltb_lt in E2; lia|].
    destruct np; [reflexivity|]. exfalso.
    pose proof (pingPongScan_cleared currentKey (key last) (last :: rev h) 0 None None true) as Hs.
    rewrite Escan in Hs. specialize (Hs eq_refl). fold run in Hs.
    destruct Hs as [H|[(x & _ & _ & _ & H & _)|[(x & _ & _ & _ & H & _)|(x & y & Hx & Hy & H)]]];
      try discriminate.
    exact (Hstable x y Hx Hy H).
  - intros Hch.
    pose proof (pingPongScan_change currentKey (key last) (last :: rev h) 0 None None true) as Hs.
    rewrite Escan in Hs. simpl snd in Hs. rewrite Hs.
    + destruct (_ <? 2)%nat; [reflexivity|]. rewrite orb_true_r. reflexivity.
    + right; right; right. exact Hch.
  - intros Hshort. destruct (length (h ++ [last]) <? 2)%nat; [reflexivity|].
    apply Nat.ltb_lt in Hshort. rewrite Hshort. reflexivity.
Qed.

End PingPongCount.

(** ** Shape of the serialization *)

Section Shape.

Lemma app_cons c s r : String c s +:+ r = String c (s +:+ r).
Proof. reflexivity. Qed.

Lemma app_nil r : "" +:+ r = r.
Proof. reflexivity. Qed.

Lemma app_assoc_s (a b c : string) : (a +:+ b) +:+ c = a +:+ (b +:+ c).
Proof. induction a as [|x a IH]; [reflexivity|]. rewrite !app_cons, IH. reflexivity. Qed.

Lemma app_nil_r_s (a : string) : a +:+ "" = a.
Proof. induction a as [|x a IH]; [reflexivity|]. rewrite app_cons, IH. reflexivity. Qed.

Lemma uint_head d :
  d <> Nil -> exists c rest, NilEmpty.string_of_uint d = String c rest /\ isDigit c = true.
Proof.
  intros H. destruct d; [congruence|..]; simpl; eexists _, _; split; reflexivity.
Qed.

Lemma number_head n :
  exists c rest, stringifyNumber n = String c rest /\ startsValue c = true.
Proof.
  destruct n as [[|p|p]| |b]; simpl; try (eexists _, _; split; reflexivity).
  destruct (uint_head (Pos.to_uint p) (DecimalPos.Unsigned.to_uint_nonnil p))
    as (c & rest & -> & Hd).
  exists c, rest. split; [reflexivity|]. unfold startsValue. rewrite Hd. reflexivity.
Qed.

(** Every serialized value starts with a character that tells its kind. *)
Lemma stableStringify_head v :
  exists c rest, stableStringify v = String c rest /\ startsValue c = true.
Proof.
  destruct v as [|[|]|n|s|items|props]; try (eexists _, _; split; reflexivity).
  apply number_head.
Qed.

Lemma outcomeKey_truthy result error s :
  outcomeKey result error = Some s -> truthy (Some s) = true.
Proof.
  assert (Hs : forall v, truthy (Some (stableStringify v)) = true).
  { intros v. destruct (stableStringify_head v) as (c & rest & -> & _). reflexivity. }
  unfold outcomeKey.
  destruct error as [[m|m]|]; [intros [= <-]; reflexivity..|].
  destruct result as [r|]; [|discriminate].
  pose proof (Hs r) as Hr.
  destruct r as [|b|n|t|items|props]; try (intros [= <-]; exact Hr).
  destruct (prop "content" props) as [[]|]; intros [= <-]; exact Hr.
Qed.

End Shape.

(** ** Sequences of recorded calls *)

Section Sequences.

Lemma recordAll_room cs d :
  length (history d) + length cs <= HISTORY_SIZE ->
  history (execM (recordAll cs) d) = history d ++ map entryOf cs.
Proof.
  intros H. rewrite recordAll_window by lia.
  apply lastN_all. rewrite length_app, length_map. exact H.
Qed.

Lemma recordAll_fresh cs :
  length cs <= HISTORY_SIZE ->
  history (execM (recordAll cs) newDetector) = map entryOf cs.
Proof. intros H. rewrite recordAll_room; [reflexivity | simpl; lia]. Qed.

Lemma recordAll_length cs d :
  length (history d) <= HISTORY_SIZE ->
  length (history (execM (recordAll cs) d)) <= HISTORY_SIZE.
Proof. intros H. rewrite recordAll_window by exact H. rewrite lastN_length. lia. Qed.

(** The entry just recorded is the latest one, whatever was evicted. *)
Lemma recordCall_last c d :
  exists pre, history (execM (recordCall c) d) = pre ++ [entryOf c] /\
              (pre = history d \/ pre = tail (history d)).
Proof.
  rewrite recordCall_history. destruct (HISTORY_SIZE <? _)%nat eqn:E.
  - apply Nat.ltb_lt in E. rewrite length_app in E. simpl in E.
    destruct (history d) as [|x h]; [simpl in E; unfold HISTORY_SIZE in E; lia|].
    exists h. split; [reflexivity | right; reflexivity].
  - exists (history d). split; [reflexivity | left; reflexivity].
Qed.

Lemma lastN_repeat {A : Type} (x : A) m n : lastN m (repeat x n) = repeat x (Nat.min m n).
Proof.
  unfold lastN. rewrite repeat_length.
  replace n with ((n - m) + Nat.min m n) at 2 by lia.
  rewrite repeat_app, skipn_app, repeat_length, Nat.sub_diag.
  rewrite skipn_all2 by (rewrite repeat_length; lia). reflexivity.
Qed.

Lemma recordAll_repeat c n :
  history (execM (recordAll (repeat c n)) newDetector) =
  repeat (entryOf c) (Nat.min HISTORY_SIZE n).
Proof.
  rewrite recordAll_window by (simpl; lia). simpl. rewrite map_repeat. apply lastN_repeat.
Qed.

Lemma firstn_repeat {A : Type} (x : A) i n : i <= n -> firstn i (repeat x n) = repeat x i.
Proof.
  revert n. induction i as [|i IH]; intros n H; [reflexivity|].
  destruct n; [lia|]. simpl. f_equal. apply IH. lia.
Qed.

(** The verdict number [i] of a checked run is [detect] on the state the
    first [i] calls left behind. *)
Lemma checkedRun_nth cs : forall d i c,
  nth_error cs i = Some c ->
  nth_error (evalM (checkedRun cs) d) i =
  Some (evalM (detect (callName c) (callParams c)) (execM (recordAll (firstn i cs)) d)).
Proof.
  induction cs as [|c0 cs IH]; intros d i c Hi; [destruct i; discriminate|].
  unfold evalM at 1. cbn [checkedRun]. unfold bind at 1. rewrite detect_run.
  unfold bind at 1. destruct (recordCall c0 d) as [[] d2] eqn:E2.
  unfold bind at 1. destruct (checkedRun cs d2) as [vs d3] eqn:E3.
  unfold ret. cbn [fst].
  destruct i as [|i].
  - simpl in Hi. injection Hi as ->. simpl. unfold evalM, execM. simpl.
    rewrite detect_run. reflexivity.
  - simpl in Hi. cbn [nth_error firstn]. rewrite recordAll_cons.
    specialize (IH d2 i c Hi). unfold evalM at 1 in IH. rewrite E3 in IH.
    cbn [fst] in IH. rewrite IH. unfold execM at 3. rewrite E2. reflexivity.
Qed.

End Sequences.

(** ** One call repeated *)

Section Repeated.

Variables (name : string) (params : value).

Local Ltac decide_thresholds :=
  unfold CIRCUIT_BREAKER_THRESHOLD, CRITICAL_THRESHOLD, WARNING_THRESHOLD;
  repeat match goal with
         | |- context [(?a <=? ?b)%nat] =>
             first [ rewrite (proj2 (Nat.leb_le a b)) by lia
                   | rewrite (proj2 (Nat.leb_gt a b)) by lia ]
         end.

Lemma verdictOf_low streak n :
  streak < 20 -> n < 10 -> verdictOf name streak 0 n = NotStuck.
Proof. intros Hs Hn. unfold verdictOf. decide_thresholds. reflexivity. Qed.

Lemma verdictOf_repeat streak n :
  streak < 20 -> 10 <= n -> verdictOf name streak 0 n = Stuck warning (repeatMessage name n).
Proof. intros Hs Hn. unfold verdictOf. decide_thresholds. reflexivity. Qed.

Lemma verdictOf_noProgress streak pp n :
  20 <= streak < 30 -> verdictOf name streak pp n = Stuck critical (noProgressMessage name streak).
Proof. intros Hs. unfold verdictOf. decide_thresholds. reflexivity. Qed.

Lemma verdictOf_pingPong_warn streak pp n :
  streak < 20 -> 10 <= pp < 20 ->
  verdictOf name streak pp n = Stuck warning (pingPongWarnMessage pp).
Proof. intros Hs Hp. unfold verdictOf. decide_thresholds. reflexivity. Qed.

Lemma verdictOf_pingPong_block streak pp n :
  streak < 20 -> 20 <= pp ->
  verdictOf name streak pp n = Stuck critical (pingPongBlockMessage pp).
Proof. intros Hs Hp. unfold verdictOf. decide_thresholds. reflexivity. Qed.

Lemma verdictOf_critical streak pp n :
  20 <= streak -> exists message, verdictOf name streak pp n = Stuck critical message.
Proof.
  intros Hs. unfold verdictOf.
  destruct (CIRCUIT_BREAKER_THRESHOLD <=? streak)%nat; [eexists; reflexivity|].
  decide_thresholds. eexists; reflexivity.
Qed.

(** A history made of entries of this call only. *)
Lemma own_entries_scores h :
  Forall (fun e => key e = toolKey name params) h ->
  repeatCount (toolKey name params) h = length h /\
  pingPongCount (toolKey name params) h = 0.
Proof.
  intros Hall. split.
  - induction Hall as [|e h He _ IH]; [reflexivity|].
    rewrite repeatCount_cons, He, String.eqb_refl, IH. reflexivity.
  - destruct h as [|e h] using rev_ind; [reflexivity|].
    apply pingPongCount_last_same. apply Forall_app in Hall as [_ Hl].
    inversion Hl; assumption.
Qed.

Lemma mkCall_entries (os : list (option value * option thrown)) :
  Forall (fun e => key e = toolKey name params)
         (map entryOf (map (mkCall name params) os)).
Proof. induction os; simpl; constructor; [reflexivity | assumption]. Qed.

End Repeated.

(** ** Repetition scenarios *)

Section Scenarios.

Variables (name : string) (params : value).

(** The verdict on [n] records of one failing call. *)
Lemma detect_identical_failures (e : thrown) (n : nat) :
  let c := mkCall name params (None, Some e) in
  evalM (detect name params) (execM (recordAll (repeat c n)) newDetector) =
  verdictOf name (Nat.min 30 n) 0 (Nat.min 30 n).
Proof.
  cbv zeta. unfold evalM. rewrite detect_run. cbn [fst].
  rewrite recordAll_repeat. unfold HISTORY_SIZE.
  set (c := mkCall name params (None, Some e)).
  set (m := Nat.min 30 n).
  assert (Hown : Forall (fun x => key x = toolKey name params) (repeat (entryOf c) m)).
  { apply Forall_forall. intros x Hx. apply list_elem_of_In, repeat_spec in Hx.
    subst x. reflexivity. }
  destruct (own_entries_scores name params _ Hown) as [Hcount Hpp].
  rewrite Hcount, Hpp, repeat_length.
  assert (Hkey : exists r, outcomeKey None (Some e) = Some r) by (destruct e; eexists; reflexivity).
  destruct Hkey as [r Hr].
  rewrite (noProgressStreak_interleaved _ r), Hcount, repeat_length; [reflexivity| |].
  - eapply outcomeKey_truthy. exact Hr.
  - apply Forall_forall. intros x Hx _. apply list_elem_of_In, repeat_spec in Hx.
    subst x. exact Hr.
Qed.

(** [C1], as the code has it.  A call that fails the same way every time,
    with [detect] run before every [record]: verdict number [i] (counted
    from 0) sees [i] entries in the history.  The first ten checks (0 to 9
    entries) answer not-stuck, the checks with 10 to 19 entries answer
    warning, and the check with 20 entries, which is the one before the 21st
    call, answers critical.  The messages are written out: the warning
    tells the number of entries in decimal, the critical one says that the
    tool was called 20 times. *)
Theorem C1_identical_failures (e : thrown) (n i : nat) :
  let c := mkCall name params (None, Some e) in
  let verdicts := evalM (checkedRun (repeat c n)) newDetector in
  i < n ->
  (i < 10 -> nth_error verdicts i = Some NotStuck) /\
  (10 <= i <= 19 ->
     nth_error verdicts i =
     Some (Stuck warning
             ("WARNING: " +:+ name +:+ " called " +:+
              NilEmpty.string_of_uint (Nat.to_uint i) +:+
              " times with identical arguments. If not progressing, stop retrying."))) /\
  (i = 20 ->
     nth_error verdicts i =
     Some (Stuck critical
             ("BLOCKED: " +:+ name +:+
              " called 20 times with identical arguments and results. Stop retrying and try a different approach or report the task as failed."))).
Proof.
  cbv zeta. intros Hi.
  assert (E : nth_error
                (evalM (checkedRun (repeat (mkCall name params (None, Some e)) n)) newDetector) i =
              Some (verdictOf name (Nat.min 30 i) 0 (Nat.min 30 i))).
  { rewrite (checkedRun_nth _ _ _ (mkCall name params (None, Some e)))
      by (rewrite nth_error_repeat by exact Hi; reflexivity).
    rewrite firstn_repeat by lia. simpl callName. simpl callParams.
    f_equal. apply detect_identical_failures. }
  rewrite E. repeat split.
  - intros H. rewrite Nat.min_r by lia. rewrite verdictOf_low by lia. reflexivity.
  - intros H. rewrite Nat.min_r by lia. rewrite verdictOf_repeat by lia. reflexivity.
  - intros ->. simpl Nat.min. rewrite verdictOf_noProgress by lia. reflexivity.
Qed.

(** [C3] The generic-repeat rule.  After the same call was recorded 9 times,
    whatever the outcomes, [detect] answers not-stuck; once 10 entries match
    (and up to 19) it answers warning, with the message, written out here,
    that the tool was called that many times (in decimal) with identical
    arguments. *)
Theorem C3_generic_repeat (os : list (option value * option thrown)) :
  let d := execM (recordAll (map (mkCall name params) os)) newDetector in
  (length os = 9 -> evalM (detect name params) d = NotStuck) /\
  (length os = 10 ->
     evalM (detect name params) d =
     Stuck warning
       ("WARNING: " +:+ name +:+
        " called 10 times with identical arguments. If not progressing, stop retrying.")) /\
  (10 <= length os <= 19 ->
     evalM (detect name params) d =
     Stuck warning
       ("WARNING: " +:+ name +:+ " called " +:+
        NilEmpty.string_of_uint (Nat.to_uint (length os)) +:+
        " times with identical arguments. If not progressing, stop retrying.")).
Proof.
  cbv zeta.
  assert (E : length os <= 19 ->
    evalM (detect name params) (execM (recordAll (map (mkCall name params) os)) newDetector) =
    verdictOf name (noProgressStreak (toolKey name params)
                      (map entryOf (map (mkCall name params) os))) 0 (length os)).
  { intros Hlen. unfold evalM. rewrite detect_run. cbn [fst].
    rewrite recordAll_fresh by (rewrite length_map; unfold HISTORY_SIZE; lia).
    destruct (own_entries_scores name params _ (mkCall_entries name params os)) as [Hc Hp].
    rewrite Hc, Hp, !length_map. reflexivity. }
  assert (B : noProgressStreak (toolKey name params)
                (map entryOf (map (mkCall name params) os)) <= length os).
  { etransitivity; [apply noProgressStreak_le_repeatCount|].
    etransitivity; [apply repeatCount_le_length|]. rewrite !length_map. lia. }
  repeat split; intros H; rewrite E by lia.
  - apply verdictOf_low; lia.
  - rewrite verdictOf_repeat by lia. rewrite H. reflexivity.
  - apply verdictOf_repeat; lia.
Qed.

(** [C7] An outcome change resets the streak.  After the call was recorded
    [n >= 1] times with outcome key [a] and then once with a different
    outcome key [b], the no-progress streak is 1, from whatever state the
    detector started.  The generic-repeat count ignores outcomes: on a fresh
    detector the streak and the count both stand at [n] before the change,
    and the count goes on to [n + 1] while the streak falls to 1. *)
Theorem C7_outcome_change_resets_streak
    (oa ob : option value * option thrown) (a b : string) (n : nat) (d : ToolLoopDetector) :
  outcomeKey (fst oa) (snd oa) = Some a ->
  outcomeKey (fst ob) (snd ob) = Some b ->
  a <> b ->
  1 <= n ->
  let k := toolKey name params in
  let after (d0 : ToolLoopDetector) :=
    execM (recordCall (mkCall name params ob))
          (execM (recordAll (repeat (mkCall name params oa) n)) d0) in
  noProgressStreak k (history (after d)) = 1 /\
  (n < 30 ->
     let before := execM (recordAll (repeat (mkCall name params oa) n)) newDetector in
     noProgressStreak k (history before) = n /\
     repeatCount k (history before) = n /\
     noProgressStreak k (history (after newDetector)) = 1 /\
     repeatCount k (history (after newDetector)) = n + 1).
Proof.
  intros Ha Hb Hab Hn. cbv zeta.
  set (k := toolKey name params).
  set (cA := mkCall name params oa). set (cB := mkCall name params ob).
  assert (Hta : truthy (Some a) = true) by (eapply outcomeKey_truthy; exact Ha).
  assert (Htb : truthy (Some b) = true) by (eapply outcomeKey_truthy; exact Hb).
  assert (Hstreak : forall d0,
    noProgressStreak k (history (execM (recordCall cB)
                          (execM (recordAll (repeat cA n)) d0))) = 1).
  { intros d0. destruct n as [|m]; [lia|].
    replace (S m) with (m + 1) by lia. rewrite repeat_app, recordAll_app. simpl repeat.
    rewrite recordAll_cons. change (execM (recordAll []) ?x) with x.
    set (d1 := execM (recordAll (repeat cA m)) d0).
    destruct (recordCall_last cA d1) as (pre & Hpre & _).
    rewrite recordCall_history, Hpre.
    assert (Hend : exists pre', (if (HISTORY_SIZE <? length ((pre ++ [entryOf cA]) ++ [entryOf cB]))%nat
                     then tail ((pre ++ [entryOf cA]) ++ [entryOf cB])
                     else (pre ++ [entryOf cA]) ++ [entryOf cB]) =
                    pre' ++ [entryOf cA; entryOf cB]).
    { destruct (HISTORY_SIZE <? _)%nat eqn:E.
      - apply Nat.ltb_lt in E. rewrite !length_app in E. simpl in E.
        destruct pre as [|x pre]; [simpl in E; unfold HISTORY_SIZE in E; lia|].
        exists pre. simpl. rewrite <- app_assoc. reflexivity.
      - exists pre. rewrite <- app_assoc. reflexivity. }
    destruct Hend as [pre' ->].
    unfold noProgressStreak. rewrite rev_app_distr. simpl rev. simpl app.
    cbn [streakScan]. unfold cA, cB, entryOf, mkCall. cbn [key resultKey callName callParams callResult callError].
    fold k. rewrite String.eqb_refl, Ha, Hb, Htb, Hta. cbn [negb truthy sameResult].
    destruct (String.eqb_spec a b) as [E|E]; [contradiction|]. reflexivity. }
  split; [apply Hstreak|].
  intros Hlt.
  assert (Hbefore : history (execM (recordAll (repeat cA n)) newDetector) = repeat (entryOf cA) n).
  { rewrite recordAll_repeat. unfold HISTORY_SIZE. rewrite Nat.min_r by lia. reflexivity. }
  assert (Hown : Forall (fun x => key x = k) (repeat (entryOf cA) n)).
  { apply Forall_forall. intros x Hx. apply list_elem_of_In, repeat_spec in Hx.
    subst x. reflexivity. }
  destruct (own_entries_scores name params _ Hown) as [Hcount _]. fold k in Hcount.
  rewrite repeat_length in Hcount.
  split; [|split; [|split]].
  - rewrite Hbefore, (noProgressStreak_interleaved _ a); [exact Hcount|exact Hta|].
    apply Forall_forall. intros x Hx _. apply list_elem_of_In, repeat_spec in Hx.
    subst x. exact Ha.
  - rewrite Hbefore. exact Hcount.
  - apply Hstreak.
  - rewrite recordCall_history, Hbefore.
    rewrite (proj2 (Nat.ltb_ge _ _))
      by (rewrite length_app, repeat_length; simpl; unfold HISTORY_SIZE; lia).
    rewrite repeatCount_app, Hcount, repeatCount_one.
    unfold cB, entryOf, mkCall. cbn [key callName callParams]. fold k.
    rewrite String.eqb_refl. reflexivity.
Qed.

End Scenarios.

(** ** Blocked calls *)

Section Blocked.

Variables (tool : Tool) (toolCallId : string) (params : value).

Lemma wrappedExecute_blocked d message :
  evalM (detect (name tool) params) d = Stuck critical message ->
  wrappedExecute tool toolCallId params d =
  ((Threw (ErrorInstance message), []), execM (record (name tool) params None None) d).
Proof.
  intros H. unfold evalM in H. rewrite detect_run in H. cbn [fst] in H.
  unfold wrappedExecute, bind at 1. rewrite detect_run, H.
  unfold bind, execM. destruct (record (name tool) params None None d) as [[] d'].
  reflexivity.
Qed.

(** Pushing an entry that has no outcome key leaves the streak alone. *)
Lemma noProgressStreak_pending h e key0 :
  resultKey e = None ->
  noProgressStreak key0 (h ++ [e]) = noProgressStreak key0 h.
Proof.
  intros H. unfold noProgressStreak. rewrite rev_unit.
  apply streakScan_pending. rewrite H. reflexivity.
Qed.

End Blocked.

(** [C2], as the code has it.  When the pre-flight [detect] of a wrapped
    tool answers critical, the wrapper records the refused call before it
    throws the verdict's message.  The entry it records has no outcome key.
    It is counted by the generic-repeat rule, but the no-progress scan skips
    it: the streak computed afterwards is the streak of the history without
    that entry, and it is never larger than the streak before the call. *)
Theorem C2_blocked_call_is_recorded_without_outcome
    (tool : Tool) (toolCallId : string) (params : value)
    (d : ToolLoopDetector) (message : string) :
  evalM (detect (name tool) params) d = Stuck critical message ->
  let k := toolKey (name tool) params in
  let blocked := {| key := k; toolName := name tool; resultKey := None |} in
  let d' := execM (wrappedExecute tool toolCallId params) d in
  evalM (wrappedExecute tool toolCallId params) d = (Threw (ErrorInstance message), []) /\
  (exists pre, history d' = pre ++ [blocked]) /\
  warningBuckets d' = warningBuckets d /\
  noProgressStreak k (history d') = noProgressStreak k (removelast (history d')) /\
  noProgressStreak k (history d') <= noProgressStreak k (history d) /\
  (length (history d) < 30 ->
     history d' = history d ++ [blocked] /\
     noProgressStreak k (history d') = noProgressStreak k (history d) /\
     repeatCount k (history d') = S (repeatCount k (history d))).
Proof.
  intros H. cbv zeta.
  unfold evalM, execM. rewrite (wrappedExecute_blocked _ _ _ _ _ H). cbn [fst snd].
  unfold execM. rewrite record_run. cbn [snd history warningBuckets].
  change (outcomeKey None None) with (@None string).
  set (k := toolKey (name tool) params).
  set (blocked := {| key := k; toolName := name tool; resultKey := None |}).
  split; [reflexivity|].
  destruct (HISTORY_SIZE <? length (history d ++ [blocked]))%nat eqn:E.
  - apply Nat.ltb_lt in E. rewrite length_app in E. simpl in E. unfold HISTORY_SIZE in E.
    destruct (history d) as [|x h] eqn:Eh; [simpl in E; lia|].
    simpl tail. split; [exists h; reflexivity|]. split; [reflexivity|].
    rewrite removelast_last, noProgressStreak_pending by reflexivity.
    split; [reflexivity|]. split.
    + apply (noProgressStreak_tail k (x :: h)).
    + intros Hl. simpl in Hl, E. lia.
  - split; [exists (history d); reflexivity|]. split; [reflexivity|].
    rewrite removelast_last, noProgressStreak_pending by reflexivity.
    split; [reflexivity|]. split; [lia|]. intros _.
    split; [reflexivity|]. split; [reflexivity|].
    rewrite repeatCount_app, repeatCount_one. unfold blocked. cbn [key].
    rewrite String.eqb_refl. lia.
Qed.

(** ** Interleaved calls *)

(** [C10], as the code has it.  The no-progress scan passes over the entries
    of other calls: the streak of a key is the streak of the history with
    those entries removed.  So when all the entries of a call carry one
    outcome key, its streak is their number, however they are interleaved
    with other calls, and with 20 of them [detect] answers critical.  The
    circuit-breaker threshold, 30, is the size of the window: in a history
    of at most 30 entries a streak of 30 leaves room for no other call. *)
Theorem C10_other_calls_are_skipped
    (name : string) (params : value) (h : list ToolCallRecord) (r : string) :
  let k := toolKey name params in
  noProgressStreak k h =
    noProgressStreak k (filter (fun e => String.eqb (key e) k = true) h) /\
  (truthy (Some r) = true ->
   Forall (fun e => key e = k -> resultKey e = Some r) h ->
     noProgressStreak k h = repeatCount k h /\
     (20 <= repeatCount k h ->
        forall d, history d = h ->
        exists message, evalM (detect name params) d = Stuck critical message)) /\
  (length h <= 30 -> 30 <= noProgressStreak k h -> Forall (fun e => key e = k) h).
Proof.
  cbv zeta. split; [apply noProgressStreak_filter|]. split.
  - intros Ht Hall.
    pose proof (noProgressStreak_interleaved _ r h Ht Hall) as E.
    split; [exact E|]. intros H20 d Hd.
    unfold evalM. rewrite detect_run, Hd, E. cbn [fst].
    apply verdictOf_critical. exact H20.
  - intros Hlen H30. apply repeatCount_full.
    pose proof (noProgressStreak_le_repeatCount (toolKey name params) h).
    pose proof (repeatCount_le_length (toolKey name params) h). lia.
Qed.

(** ** Ping-pong verdicts *)

(** [C4] The ping-pong rule.  Let [run] be the entries the backward scan
    visits: the longest strictly alternating tail of the history, starting
    at the most recent entry, whose key [key last] differs from the key of
    the call being checked.
    - If two visited entries with the same key carry different outcome
      keys, the count is 0 and [detect] answers what the streak rules and
      the generic-repeat rule alone give, however long the run is.
    - If outcomes are stable on both sides and the run has at least two
      entries, the count is the length of the run plus one; when the streak
      rules have not fired, a count of 10 to 19 gives a warning and a count
      of 20 or more a critical verdict.
    - If the most recent entry has the key of the call being checked, the
      count is 0. *)
Theorem C4_ping_pong (name : string) (params : value) (d : ToolLoopDetector)
    (pre : list ToolCallRecord) (last : ToolCallRecord) :
  history d = pre ++ [last] ->
  let k := toolKey name params in
  let run := scanned k (key last) (rev (history d)) 0 in
  let streak := noProgressStreak k (history d) in
  let count := length run + 1 in
  (key last <> k ->
   (exists x y, In x run /\ In y run /\ key x = key y /\
                truthy (resultKey x) = true /\ truthy (resultKey y) = true /\
                resultKey x <> resultKey y) ->
     pingPongCount k (history d) = 0 /\
     evalM (detect name params) d =
       verdictWithoutPingPong name streak (repeatCount k (history d))) /\
  (key last <> k ->
   2 <= length run ->
   (forall x y, In x run -> In y run -> key x = key y ->
                truthy (resultKey x) = true -> truthy (resultKey y) = true ->
                resultKey x = resultKey y) ->
     pingPongCount k (history d) = count /\
     (streak < 20 -> 10 <= count < 20 ->
        evalM (detect name params) d = Stuck warning (pingPongWarnMessage count)) /\
     (streak < 20 -> 20 <= count ->
        evalM (detect name params) d = Stuck critical (pingPongBlockMessage count))) /\
  (key last = k -> pingPongCount k (history d) = 0).
Proof.
  intros Hh. cbv zeta. rewrite Hh, rev_unit.
  set (k := toolKey name params).
  set (run := scanned k (key last) (last :: rev pre) 0).
  split; [|split].
  - intros Hne (x & y & Hx & Hy & Hk & Htx & Hty & Hr).
    destruct (pingPongCount_run k pre last Hne) as (_ & Hzero & _). fold run in Hzero.
    assert (E : pingPongCount k (pre ++ [last]) = 0).
    { apply Hzero. exists x, y. repeat split; auto. rewrite Hk. reflexivity. }
    split; [exact E|].
    unfold evalM. rewrite detect_run, Hh. cbn [fst]. fold k. rewrite E. reflexivity.
  - intros Hne H2 Hstable.
    destruct (pingPongCount_run k pre last Hne) as (Hcount & _ & _). fold run in Hcount.
    assert (E : pingPongCount k (pre ++ [last]) = length run + 1).
    { apply Hcount; [exact H2|]. intros x y Hx Hy (Hs & Htx & Hty & Hr).
      apply Hr, Hstable; auto.
      destruct (scanned_keys _ _ _ _ _ Hx) as [Ex|Ex],
               (scanned_keys _ _ _ _ _ Hy) as [Ey|Ey]; try congruence.
      - rewrite Ex, Ey, String.eqb_refl in Hs. symmetry in Hs.
        apply String.eqb_eq in Hs. congruence.
      - rewrite Ex, Ey, String.eqb_refl in Hs.
        apply String.eqb_eq in Hs. congruence. }
    split; [exact E|].
    split; intros Hs Hc; unfold evalM; rewrite detect_run, Hh; cbn [fst]; fold k; rewrite E.
    + apply verdictOf_pingPong_warn; assumption.
    + apply verdictOf_pingPong_block; assumption.
  - intros Heq. apply pingPongCount_last_same. exact Heq.
Qed.

(** Two tools taking turns with stable results: the check made after 8
    recorded calls passes, after 9 it warns about 10 alternating calls,
    and after 19 it blocks. *)
Example takingTurns_verdicts :
  evalM (detect "stat" (callParams (statCall 7))) (execM (recordAll (takingTurns 8)) newDetector)
    = NotStuck /\
  evalM (detect "stat" (callParams (statCall 7))) (execM (recordAll (takingTurns 9)) newDetector)
    = Stuck warning (pingPongWarnMessage 10) /\
  evalM (detect "stat" (callParams (statCall 7))) (execM (recordAll (takingTurns 19)) newDetector)
    = Stuck critical (pingPongBlockMessage 20).
Proof. repeat split; vm_compute; reflexivity. Qed.

(** The same turns, but the latest [stat] saw another size: no ping-pong
    verdict, though 21 calls alternate. *)
Example takingTurns_with_progress :
  let d := execM (recordAll (takingTurns 19 ++ [statCall 8; listCall])) newDetector in
  pingPongCount (toolKey "stat" (callParams (statCall 7))) (history d) = 0 /\
  evalM (detect "stat" (callParams (statCall 7))) d
    = Stuck warning (repeatMessage "stat" 10).
Proof. repeat split; vm_compute; reflexivity. Qed.

(** ** The scenarios of the specification, run on the model *)

Section Instances.

(** [C1], the scenario as the specification words it: the 20th check, made
    with 19 entries in the history, answers warning (19 calls), not
    critical; and the 10th check, made with 9 entries, answers not-stuck,
    not warning. *)
Lemma C1_counterexample :
  let verdicts := evalM (checkedRun (repeat readFails 20)) newDetector in
  nth_error verdicts 19 = Some (Stuck warning (repeatMessage "read" 19)) /\
  nth_error verdicts 9 = Some NotStuck.
Proof. split; vm_compute; reflexivity. Qed.

Lemma C1_identical_failures_witness :
  let verdicts := evalM (checkedRun (repeat readFails 21)) newDetector in
  nth_error verdicts 3 = Some NotStuck /\
  nth_error verdicts 15 =
    Some (Stuck warning
            "WARNING: read called 15 times with identical arguments. If not progressing, stop retrying.") /\
  nth_error verdicts 20 =
    Some (Stuck critical
            "BLOCKED: read called 20 times with identical arguments and results. Stop retrying and try a different approach or report the task as failed.").
Proof.
  cbv zeta.
  assert (H3 : 3 < 21) by lia. assert (H15 : 15 < 21) by lia. assert (H20 : 20 < 21) by lia.
  destruct (C1_identical_failures "read" readArgs (ErrorInstance "ENOENT") 21 3 H3)
    as (Hlow & _ & _).
  destruct (C1_identical_failures "read" readArgs (ErrorInstance "ENOENT") 21 15 H15)
    as (_ & Hwarn & _).
  destruct (C1_identical_failures "read" readArgs (ErrorInstance "ENOENT") 21 20 H20)
    as (_ & _ & Hblock).
  split; [|split].
  - apply Hlow. lia.
  - apply Hwarn. lia.
  - apply Hblock. reflexivity.
Defined.

(** [C2], as the specification words it: after 20 identical failures the
    21st call is blocked and recorded, 21 entries now carry the key, and the
    streak is still 20: the blocked attempt was not counted. *)
Lemma C2_counterexample :
  let d := afterFailures 20 in
  let d' := execM (wrappedExecute readTool "call-21" readArgs) d in
  evalM (wrappedExecute readTool "call-21" readArgs) d =
    (Threw (ErrorInstance (noProgressMessage "read" 20)), []) /\
  repeatCount readKey (history d') = 21 /\
  noProgressStreak readKey (history d) = 20 /\
  noProgressStreak readKey (history d') = 20.
Proof. repeat split; vm_compute; reflexivity. Qed.

Lemma C2_blocked_call_is_recorded_without_outcome_witness :
  let d := afterFailures 20 in
  let d' := execM (wrappedExecute readTool "call-21" readArgs) d in
  evalM (wrappedExecute readTool "call-21" readArgs) d =
    (Threw (ErrorInstance (noProgressMessage "read" 20)), []) /\
  noProgressStreak readKey (history d') = noProgressStreak readKey (history d) /\
  repeatCount readKey (history d') = S (repeatCount readKey (history d)).
Proof.
  cbv zeta.
  assert (H : evalM (detect (name readTool) readArgs) (afterFailures 20) =
              Stuck critical (noProgressMessage "read" 20))
    by (vm_compute; reflexivity).
  destruct (C2_blocked_call_is_recorded_without_outcome
              readTool "call-21" readArgs (afterFailures 20) _ H)
    as (H1 & _ & _ & _ & _ & H6).
  split; [exact H1|].
  assert (Hroom : length (history (afterFailures 20)) < 30) by (vm_compute; lia).
  destruct (H6 Hroom) as (_ & H7 & H8). split; assumption.
Defined.

Lemma C3_generic_repeat_witness :
  evalM (detect "read" readArgs)
    (execM (recordAll (map (mkCall "read" readArgs) (varyingOutcomes 9))) newDetector)
    = NotStuck /\
  evalM (detect "read" readArgs)
    (execM (recordAll (map (mkCall "read" readArgs) (varyingOutcomes 10))) newDetector)
    = Stuck warning
        "WARNING: read called 10 times with identical arguments. If not progressing, stop retrying." /\
  evalM (detect "read" readArgs)
    (execM (recordAll (map (mkCall "read" readArgs) (varyingOutcomes 14))) newDetector)
    = Stuck warning
        "WARNING: read called 14 times with identical arguments. If not progressing, stop retrying.".
Proof.
  destruct (C3_generic_repeat "read" readArgs (varyingOutcomes 9)) as (H9 & _ & _).
  destruct (C3_generic_repeat "read" readArgs (varyingOutcomes 10)) as (_ & H10 & _).
  destruct (C3_generic_repeat "read" readArgs (varyingOutcomes 14)) as (_ & _ & H14).
  split; [|split].
  - apply H9. reflexivity.
  - apply H10. reflexivity.
  - apply H14. simpl. lia.
Defined.

Lemma C5_window_bound_witness :
  length (history (execM (recordAll (repeat readFails 31)) newDetector)) = 30.
Proof.
  destruct (C5_window_bound (repeat readFails 31)) as (_ & _ & H).
  apply H. rewrite repeat_length. lia.
Defined.

Lemma C6_shouldWarn_buckets_witness :
  let d10 := afterFailures 10 in
  let warned := execM (shouldWarn "read" readArgs) d10 in
  let d11 := execM (recordCall readFails) warned in
  let d20 := execM (recordAll (repeat readFails 10)) warned in
  evalM (shouldWarn "read" readArgs) d10 = true /\
  shouldWarn "read" readArgs warned = (false, warned) /\
  shouldWarn "read" readArgs d11 = (false, d11) /\
  evalM (shouldWarn "read" readArgs) d20 = true.
Proof.
  cbv zeta.
  set (d10 := afterFailures 10).
  set (warned := execM (shouldWarn "read" readArgs) d10).
  destruct (C6_shouldWarn_buckets "read" readArgs d10) as (_ & Hsurface & Hlater).
  destruct (C6_shouldWarn_buckets "read" readArgs warned) as (Hsuppress & _ & _).
  assert (Hwarn : evalM (shouldWarn "read" readArgs) d10 = true).
  { unfold evalM. rewrite Hsurface; [reflexivity | vm_compute; reflexivity]. }
  split; [exact Hwarn|]. split.
  - apply Hsuppress. vm_compute. discriminate.
  - assert (Hcount : repeatCount (toolKey "read" readArgs) (history d10) = 10)
      by (vm_compute; reflexivity).
    split.
    + apply (Hlater Hcount Hwarn (execM (recordCall readFails) warned)).
      * rewrite recordCall_buckets. reflexivity.
      * vm_compute. lia.
    + apply (Hlater Hcount Hwarn (execM (recordAll (repeat readFails 10)) warned)).
      * vm_compute. reflexivity.
      * vm_compute. reflexivity.
Defined.

Lemma C7_outcome_change_resets_streak_witness :
  let fails := (None, Some (ErrorInstance "ENOENT")) in
  let works := (Some (VStr "ok"), None) in
  let before := execM (recordAll (repeat (mkCall "read" readArgs fails) 15)) newDetector in
  let after := execM (recordCall (mkCall "read" readArgs works)) before in
  noProgressStreak readKey (history before) = 15 /\
  repeatCount readKey (history before) = 15 /\
  noProgressStreak readKey (history after) = 1 /\
  repeatCount readKey (history after) = 16.
Proof.
  cbv zeta.
  assert (Hne : "error:ENOENT" <> quoteJSONString "ok") by discriminate.
  assert (Hn : 1 <= 15) by lia.
  assert (Hroom : 15 < 30) by lia.
  exact (proj2 (C7_outcome_change_resets_streak "read" readArgs
                  (None, Some (ErrorInstance "ENOENT")) (Some (VStr "ok"), None)
                  "error:ENOENT" (quoteJSONString "ok") 15 newDetector
                  eq_refl eq_refl Hne Hn) Hroom).
Defined.

(** [C10], as worded: no sequence of [record] calls leaves a history that
    holds an entry of another call and gives the key a streak of 30, so the
    circuit breaker cannot fire for an interleaved call. *)
Lemma C10_counterexample :
  ~ exists (cs : list Call) (k : string) (other : ToolCallRecord),
      let h := history (execM (recordAll cs) newDetector) in
      In other h /\ key other <> k /\
      CIRCUIT_BREAKER_THRESHOLD <= noProgressStreak k h.
Proof.
  intros (cs & k & other & Hin & Hother & H30). cbv zeta in *.
  set (h := history (execM (recordAll cs) newDetector)) in *.
  assert (Hlen : length h <= HISTORY_SIZE) by (apply recordAll_length; simpl; lia).
  pose proof (noProgressStreak_le_repeatCount k h) as H1.
  pose proof (repeatCount_le_length k h) as H2.
  unfold CIRCUIT_BREAKER_THRESHOLD, HISTORY_SIZE in *.
  assert (Hall : Forall (fun e => key e = k) h) by (apply repeatCount_full; lia).
  rewrite Forall_forall in Hall. apply Hother, Hall, list_elem_of_In, Hin.
Qed.

(** One [list] among 29 failing reads fills the window: the verdict is the
    no-progress one, counting 29, and the circuit breaker stays silent. *)
Example one_other_call_in_full_window :
  let d := execM (recordAll (repeat readFails 15 ++ [listCall] ++ repeat readFails 14))
                 newDetector in
  length (history d) = 30 /\
  evalM (detect "read" readArgs) d = Stuck critical (noProgressMessage "read" 29).
Proof. split; vm_compute; reflexivity. Qed.

Lemma C10_other_calls_are_skipped_witness :
  let h := history (execM (recordAll mixedCalls) newDetector) in
  noProgressStreak readKey h = 20 /\
  (exists message, evalM (detect "read" readArgs) (execM (recordAll mixedCalls) newDetector)
                   = Stuck critical message) /\
  Forall (fun e => key e = readKey) (history (afterFailures 30)).
Proof.
  cbv zeta.
  set (h := history (execM (recordAll mixedCalls) newDetector)).
  destruct (C10_other_calls_are_skipped "read" readArgs h "error:ENOENT")
    as (_ & Hsame & _).
  assert (Hall : Forall (fun e => key e = toolKey "read" readArgs ->
                                  resultKey e = Some "error:ENOENT") h).
  { apply (bool_decide_unpack _). vm_compute. exact I. }
  destruct (Hsame eq_refl Hall) as (Hstreak & Hcritical).
  split; [unfold readKey; rewrite Hstreak; vm_compute; reflexivity|].
  split.
  - apply Hcritical; [vm_compute; lia | reflexivity].
  - apply (C10_other_calls_are_skipped "read" readArgs (history (afterFailures 30)) "").
    + vm_compute. lia.
    + vm_compute. lia.
Defined.

End Instances.

Section PingPongInstances.


Local Ltac stable_by_computation run :=
  let F := fresh "F" in
  assert (F : Forall (fun x : ToolCallRecord => Forall (fun y : ToolCallRecord =>
                key x = key y -> truthy (resultKey x) = true ->
                truthy (resultKey y) = true -> resultKey x = resultKey y) run) run)
    by (apply (bool_decide_unpack _); vm_compute; exact I);
  let x := fresh "x" in let y := fresh "y" in
  let Hx := fresh "Hx" in let Hy := fresh "Hy" in
  let Fx := fresh "Fx" in
  intros x y Hx Hy;
  rewrite Forall_forall in F;
  pose proof (F x (proj2 (list_elem_of_In _ _) Hx)) as Fx;
  rewrite Forall_forall in Fx;
  exact (Fx y (proj2 (list_elem_of_In _ _) Hy)).

Lemma C4_ping_pong_witness :
  let turns (n : nat) := execM (recordAll (takingTurns n)) newDetector in
  let progress := execM (recordAll (takingTurns 19 ++ [statCall 8; listCall])) newDetector in
  evalM (detect "stat" (callParams (statCall 7))) (turns 9)
    = Stuck warning (pingPongWarnMessage 10) /\
  evalM (detect "stat" (callParams (statCall 7))) (turns 19)
    = Stuck critical (pingPongBlockMessage 20) /\
  pingPongCount (toolKey "stat" (callParams (statCall 7))) (history progress) = 0 /\
  pingPongCount readKey (history (afterFailures 3)) = 0.
Proof.
  cbv zeta.
  set (d9 := execM (recordAll (takingTurns 9)) newDetector).
  set (d19 := execM (recordAll (takingTurns 19)) newDetector).
  set (dp := execM (recordAll (takingTurns 19 ++ [statCall 8; listCall])) newDetector).
  assert (Hne : key (entryOf listCall) <> toolKey "stat" (callParams (statCall 7)))
    by (vm_compute; discriminate).
  split; [|split; [|split]].
  - assert (Hh : history d9 = removelast (history d9) ++ [entryOf listCall])
      by (vm_compute; reflexivity).
    destruct (C4_ping_pong "stat" (callParams (statCall 7)) d9 _ _ Hh) as (_ & Hstable & _).
    destruct (Hstable Hne) as (_ & Hwarn & _).
    + vm_compute. lia.
    + stable_by_computation
        (scanned (toolKey "stat" (callParams (statCall 7))) (key (entryOf listCall))
                 (rev (history d9)) 0).
    + apply Hwarn; vm_compute; lia.
  - assert (Hh : history d19 = removelast (history d19) ++ [entryOf listCall])
      by (vm_compute; reflexivity).
    destruct (C4_ping_pong "stat" (callParams (statCall 7)) d19 _ _ Hh) as (_ & Hstable & _).
    destruct (Hstable Hne) as (_ & _ & Hblock).
    + vm_compute. lia.
    + stable_by_computation
        (scanned (toolKey "stat" (callParams (statCall 7))) (key (entryOf listCall))
                 (rev (history d19)) 0).
    + apply Hblock; vm_compute; lia.
  - assert (Hh : history dp = removelast (history dp) ++ [entryOf listCall])
      by (vm_compute; reflexivity).
    destruct (C4_ping_pong "stat" (callParams (statCall 7)) dp _ _ Hh) as (Hchange & _ & _).
    apply Hchange; [exact Hne|].
    exists (entryOf (statCall 8)), (entryOf (statCall 7)).
    split; [vm_compute; right; left; reflexivity|].
    split; [vm_compute; do 3 right; left; reflexivity|].
    repeat split; try reflexivity. vm_compute. discriminate.
  - assert (Hh : history (afterFailures 3) =
                 removelast (history (afterFailures 3)) ++ [entryOf readFails])
      by (vm_compute; reflexivity).
    destruct (C4_ping_pong "read" readArgs (afterFailures 3) _ _ Hh) as (_ & _ & Hsame).
    apply Hsame. reflexivity.
Defined.

End PingPongInstances.

(** ** Quoted strings can be read back *)

Section Quoting.

Lemma unescapeChar_escapeChar c r : unescapeChar (escapeChar c +:+ r) = Some (c, r).
Proof. destruct c as [[|] [|] [|] [|] [|] [|] [|] [|]]; reflexivity. Qed.

(** The text between the quotes, followed by the closing quote, determines
    the string and what comes after it. *)
Lemma escapeString_unique s1 : forall s2 r1 r2,
  escapeString s1 +:+ String dquote r1 = escapeString s2 +:+ String dquote r2 ->
  s1 = s2 /\ r1 = r2.
Proof.
  induction s1 as [|c1 s1 IH]; intros [|c2 s2] r1 r2 H.
  - simpl in H. rewrite !app_nil in H. injection H as ->. split; reflexivity.
  - apply (f_equal unescapeChar) in H. cbn [escapeString] in H.
    rewrite app_nil, app_assoc_s, unescapeChar_escapeChar in H. discriminate.
  - apply (f_equal unescapeChar) in H. cbn [escapeString] in H.
    rewrite app_nil, app_assoc_s, unescapeChar_escapeChar in H. discriminate.
  - apply (f_equal unescapeChar) in H. cbn [escapeString] in H.
    rewrite !app_assoc_s, !unescapeChar_escapeChar in H.
    injection H as -> H. destruct (IH _ _ _ H) as [-> ->]. split; reflexivity.
Qed.

Lemma quoteJSONString_unique s1 s2 r1 r2 :
  quoteJSONString s1 +:+ r1 = quoteJSONString s2 +:+ r2 -> s1 = s2 /\ r1 = r2.
Proof.
  unfold quoteJSONString. rewrite !app_cons, !app_assoc_s, !app_cons, !app_nil.
  intros H. injection H as H. apply escapeString_unique. exact H.
Qed.

End Quoting.

(** ** Numbers can be read back *)

Section Numbers.

Lemma delimiter_not_digit c : isDelimiter c = true -> isDigit c = false.
Proof.
  unfold isDelimiter, isDigit. intros H.
  destruct (N.leb_spec 48 (N_of_ascii c)), (N.leb_spec (N_of_ascii c) 57);
    try reflexivity.
  destruct (N.eqb_spec (N_of_ascii c) 44), (N.eqb_spec (N_of_ascii c) 93),
    (N.eqb_spec (N_of_ascii c) 125); simpl in H; try discriminate; lia.
Qed.

Lemma delimited_noDigitAhead r : delimited r -> noDigitAhead r.
Proof. destruct r as [|c r]; [trivial|]. apply delimiter_not_digit. Qed.

Lemma uint_unique d1 : forall d2 r1 r2,
  noDigitAhead r1 -> noDigitAhead r2 ->
  NilEmpty.string_of_uint d1 +:+ r1 = NilEmpty.string_of_uint d2 +:+ r2 ->
  d1 = d2 /\ r1 = r2.
Proof.
  induction d1 as [|d1 IH|d1 IH|d1 IH|d1 IH|d1 IH|d1 IH|d1 IH|d1 IH|d1 IH|d1 IH];
    intros d2 r1 r2 H1 H2 H; destruct d2;
    cbn [NilEmpty.string_of_uint] in H; rewrite ?app_cons, ?app_nil in H;
    try (subst; simpl in *; discriminate);
    try (injection H as H; destruct (IH _ _ _ H1 H2 H) as [-> ->]; split; reflexivity).
  split; [reflexivity | exact H].
Qed.

Lemma int_unique i1 i2 r1 r2 :
  delimited r1 -> delimited r2 ->
  NilEmpty.string_of_int i1 +:+ r1 = NilEmpty.string_of_int i2 +:+ r2 ->
  i1 = i2 /\ r1 = r2.
Proof.
  intros H1 H2 H.
  assert (Hminus : forall d r r', delimited r ->
            NilEmpty.string_of_uint d +:+ r = String "-" r' -> False).
  { intros d r r' Hr E. destruct d; cbn [NilEmpty.string_of_uint] in E;
      rewrite ?app_cons, ?app_nil in E; try discriminate.
    subst r. simpl in Hr. discriminate. }
  destruct i1 as [d1|d1], i2 as [d2|d2]; cbn [NilEmpty.string_of_int] in H;
    rewrite ?app_cons in H.
  - destruct (uint_unique d1 d2 r1 r2) as [-> ->]; auto using delimited_noDigitAhead.
  - exfalso. eapply Hminus; [exact H1 | exact H].
  - exfalso. eapply Hminus; [exact H2 | symmetry; exact H].
  - injection H as H.
    destruct (uint_unique d1 d2 r1 r2) as [-> ->]; auto using delimited_noDigitAhead.
Qed.

Lemma stringifyNumber_unique z1 z2 r1 r2 :
  delimited r1 -> delimited r2 ->
  stringifyNumber (Int z1) +:+ r1 = stringifyNumber (Int z2) +:+ r2 ->
  z1 = z2 /\ r1 = r2.
Proof.
  intros H1 H2 H. destruct (int_unique _ _ _ _ H1 H2 H) as [E ->].
  split; [apply DecimalZ.to_int_inj; exact E | reflexivity].
Qed.

End Numbers.

(** ** Induction over nested values *)

Section ValueInduction.

Variable P : value -> Prop.
Hypothesis Hnull : P VNull.
Hypothesis Hbool : forall b, P (VBool b).
Hypothesis Hnum : forall n, P (VNum n).
Hypothesis Hstr : forall s, P (VStr s).
Hypothesis Harr : forall items, Forall P items -> P (VArr items).
Hypothesis Hobj : forall props, Forall (fun p => P (snd p)) props -> P (VObj props).

Lemma value_nested_ind : forall v, P v.
Proof.
  fix self 1. intros [|b|n|s|items|props].
  - exact Hnull.
  - apply Hbool.
  - apply Hnum.
  - apply Hstr.
  - apply Harr. revert items. fix each 1. intros [|x xs].
    + constructor.
    + constructor; [apply self | apply each].
  - apply Hobj. revert props. fix each 1. intros [|[k x] xs].
    + constructor.
    + constructor; [apply self | apply each].
Qed.

End ValueInduction.

(** ** Properties of an object *)

Section Props.

Context {A : Type}.

Lemma prop_In k (ps : list (string * A)) v : prop k ps = Some v -> In (k, v) ps.
Proof.
  induction ps as [|[k' x] ps IH]; [discriminate|]. simpl.
  destruct (String.eqb_spec k' k) as [->|Hne].
  - intros [= ->]. left; reflexivity.
  - intros H. right. apply IH, H.
Qed.

Lemma prop_None k (ps : list (string * A)) : prop k ps = None <-> ~ In k (map fst ps).
Proof.
  induction ps as [|[k' x] ps IH]; simpl; [tauto|].
  destruct (String.eqb_spec k' k) as [->|Hne].
  - split; [discriminate | intros H; exfalso; apply H; left; reflexivity].
  - rewrite IH. tauto.
Qed.

Lemma prop_Some k (ps : list (string * A)) :
  In k (map fst ps) -> exists v, prop k ps = Some v.
Proof.
  intros H. destruct (prop k ps) as [v|] eqn:E; [exists v; reflexivity|].
  apply prop_None in E. contradiction.
Qed.


Lemma prop_map {B : Type} (f : A -> B) k (ps : list (string * A)) :
  prop k (map (fun p => (fst p, f (snd p))) ps) = option_map f (prop k ps).
Proof.
  induction ps as [|[k' x] ps IH]; [reflexivity|]. simpl.
  destruct (String.eqb k' k); [reflexivity | exact IH].
Qed.

End Props.

Section Entries.

Lemma sortKeys_In k ks : In k (sortKeys ks) <-> In k ks.
Proof.
  unfold sortKeys. rewrite <- !list_elem_of_In.
  rewrite (merge_sort_Permutation String.le ks). reflexivity.
Qed.


Lemma entries_In ps k v : In (k, v) (entries ps) <-> prop k ps = Some v.
Proof.
  unfold entries. rewrite <- list_elem_of_In, list_elem_of_omap. split.
  - intros (k' & _ & H). destruct (prop k' ps) as [w|] eqn:E; [|discriminate].
    injection H as -> ->. exact E.
  - intros H. exists k. split.
    + apply list_elem_of_In, sortKeys_In.
      apply prop_In in H. apply (in_map fst) in H. exact H.
    + rewrite H. reflexivity.
Qed.

(** The object case of [stableStringify], entry by entry. *)
Lemma stableStringify_obj ps :
  stableStringify (VObj ps) =
  "{" +:+ String.concat "," (map renderEntry (entries ps)) +:+ "}".
Proof.
  cbn [stableStringify]. do 3 f_equal. unfold entries.
  assert (H : forall k, In k (sortKeys (map fst ps)) -> In k (map fst ps))
    by (intros k; apply sortKeys_In).
  induction (sortKeys (map fst ps)) as [|k ks IH]; [reflexivity|].
  destruct (prop_Some k ps (H k (or_introl eq_refl))) as [v Hv].
  cbn [map omap list_omap]. rewrite Hv. cbn [map]. f_equal.
  - unfold renderEntry. cbn [fst snd]. do 2 f_equal.
    rewrite (prop_map stableStringify), Hv. reflexivity.
  - apply IH. intros k' Hk'. apply H. right. exact Hk'.
Qed.

End Entries.

(** ** Structurally equal values serialize alike *)

Section SameKey.

Lemma Forall2_In_l {A B : Type} (R : A -> B -> Prop) l1 l2 x :
  Forall2 R l1 l2 -> In x l1 -> exists y, In y l2 /\ R x y.
Proof.
  induction 1 as [|a b l1 l2 Hab _ IH]; intros Hin; [destruct Hin|].
  destruct Hin as [->|Hin].
  - exists b. split; [left; reflexivity | exact Hab].
  - destruct (IH Hin) as (y & Hy & Hxy). exists y. split; [right; exact Hy | exact Hxy].
Qed.

Lemma Forall2_In_r {A B : Type} (R : A -> B -> Prop) l1 l2 y :
  Forall2 R l1 l2 -> In y l2 -> exists x, In x l1 /\ R x y.
Proof.
  induction 1 as [|a b l1 l2 Hab _ IH]; intros Hin; [destruct Hin|].
  destruct Hin as [->|Hin].
  - exists a. split; [left; reflexivity | exact Hab].
  - destruct (IH Hin) as (x & Hx & Hxy). exists x. split; [right; exact Hx | exact Hxy].
Qed.



End SameKey.

(** ** Reading a comma-separated list back *)

Section Joined.

Context {A : Type}.
Variable render : A -> string.
Variable R : A -> A -> Prop.
Variable Q : A -> Prop.
Variable close : ascii.

Hypothesis close_delimiter : isDelimiter close = true.
Hypothesis close_not_comma : close <> ","%char.
Hypothesis render_start : forall a r, exists c rest,
  render a +:+ r = String c rest /\ c <> close.

Lemma concat_cons (x : string) l :
  String.concat "," (x :: l) =
  x +:+ match l with [] => "" | _ :: _ => "," +:+ String.concat "," l end.
Proof. destruct l; [symmetry; apply app_nil_r_s | reflexivity]. Qed.

Lemma joined_tail x l r :
  String.concat "," (map render (x :: l)) +:+ String close r = render x +:+ tailOf render close l r.
Proof.
  cbn [map]. rewrite concat_cons, app_assoc_s. f_equal.
  destruct l; [reflexivity|]. cbn [map tailOf]. rewrite app_assoc_s. reflexivity.
Qed.

Lemma tailOf_delimited l r : delimited (tailOf render close l r).
Proof. destruct l; [exact close_delimiter | reflexivity]. Qed.

Lemma joined_unique xs : forall ys r1 r2,
  Forall (fun x => forall y s1 s2, Q y -> delimited s1 -> delimited s2 ->
            render x +:+ s1 = render y +:+ s2 -> R x y /\ s1 = s2) xs ->
  Forall Q ys ->
  String.concat "," (map render xs) +:+ String close r1 =
  String.concat "," (map render ys) +:+ String close r2 ->
  Forall2 R xs ys /\ r1 = r2.
Proof.
  induction xs as [|x xs IH]; intros ys r1 r2 Hx Hy H.
  - destruct ys as [|y ys].
    + cbn [map String.concat] in H. rewrite !app_nil in H. injection H as ->.
      split; [constructor | reflexivity].
    + rewrite joined_tail in H. cbn [map String.concat] in H. rewrite app_nil in H.
      destruct (render_start y (tailOf render close ys r2)) as (c & rest & E & Hc).
      rewrite E in H. injection H as -> _. contradiction.
  - destruct ys as [|y ys].
    + rewrite joined_tail in H. cbn [map String.concat] in H. rewrite app_nil in H.
      destruct (render_start x (tailOf render close xs r1)) as (c & rest & E & Hc).
      rewrite E in H. injection H as <- _. contradiction.
    + rewrite !joined_tail in H.
      inversion Hx as [|? ? Hux Hxs]; subst. inversion Hy as [|? ? Hqy Hys]; subst.
      destruct (Hux y _ _ Hqy (tailOf_delimited xs r1) (tailOf_delimited ys r2) H)
        as [Hxy Htail].
      destruct xs as [|x' xs], ys as [|y' ys]; cbn [tailOf] in Htail.
      * injection Htail as ->. split; [repeat constructor; exact Hxy | reflexivity].
      * rewrite app_cons in Htail. injection Htail as E _. contradiction.
      * rewrite app_cons in Htail. injection Htail as E _. symmetry in E. contradiction.
      * rewrite !app_cons, !app_nil in Htail. injection Htail as Htail.
        destruct (IH (y' :: ys) r1 r2 Hxs Hys Htail) as [Hall ->].
        split; [constructor; assumption | reflexivity].
Qed.

End Joined.

(** ** A serialization is read back in one way only *)

Section Reading.

Lemma int_start z :
  exists c rest, stringifyNumber (Int z) = String c rest /\
                 (isDigit c = true \/ c = "-"%char).
Proof.
  destruct z as [|p|p]; simpl.
  - exists "0"%char, "". split; [reflexivity | left; reflexivity].
  - destruct (uint_head (Pos.to_uint p) (DecimalPos.Unsigned.to_uint_nonnil p))
      as (c & rest & -> & Hd).
    exists c, rest. split; [reflexivity | left; exact Hd].
  - eexists _, _. split; [reflexivity | right; reflexivity].
Qed.

Lemma value_start v r :
  exists c rest, stableStringify v +:+ r = String c rest /\ c <> "]"%char.
Proof.
  destruct (stableStringify_head v) as (c & rest & -> & Hc).
  exists c, (rest +:+ r). split; [reflexivity|]. intros ->. discriminate.
Qed.

Lemma entry_start (e : string * value) r :
  exists c rest, renderEntry e +:+ r = String c rest /\ c <> "}"%char.
Proof.
  unfold renderEntry, quoteJSONString. rewrite !app_cons.
  eexists _, _. split; [reflexivity | discriminate].
Qed.

Local Ltac expose H :=
  cbn [stableStringify] in H; unfold quoteJSONString in H;
  rewrite ?app_cons, ?app_nil in H.

Local Ltac number_clash z H :=
  let c := fresh "c" in let rest := fresh "rest" in
  let E := fresh "E" in let Hc := fresh "Hc" in
  destruct (int_start z) as (c & rest & E & Hc);
  cbn [stableStringify] in H; rewrite E in H; expose H;
  injection H as H _; subst c; destruct Hc as [Hc|Hc]; vm_compute in Hc; discriminate Hc.

Lemma serialization_unique v1 :
  finiteNumbers v1 ->
  forall v2 r1 r2,
    finiteNumbers v2 -> delimited r1 -> delimited r2 ->
    stableStringify v1 +:+ r1 = stableStringify v2 +:+ r2 ->
    structEq v1 v2 /\ r1 = r2.
Proof.
  induction v1 as [|b1|n1|s1|xs IH|ps IH] using value_nested_ind;
    intros Hf1 v2 r1 r2 Hf2 Hd1 Hd2 H.
  - (* null *)
    destruct v2 as [|[|]|n2|s2|ys|qs]; try (expose H; discriminate H).
    + expose H. injection H as ->. split; [constructor | reflexivity].
    + inversion Hf2; subst. symmetry in H. number_clash z H.
  - (* booleans *)
    destruct b1, v2 as [|[|]|n2|s2|ys|qs]; try (expose H; discriminate H);
      try (expose H; injection H as ->; split; [constructor | reflexivity]);
      inversion Hf2; subst; symmetry in H; number_clash z H.
  - (* numbers *)
    inversion Hf1 as [| |z1| | |]; subst.
    destruct v2 as [|b2|n2|s2|ys|qs]; try (number_clash z1 H).
    + destruct b2; number_clash z1 H.
    + inversion Hf2 as [| |z2| | |]; subst. cbn [stableStringify] in H.
      destruct (stringifyNumber_unique _ _ _ _ Hd1 Hd2 H) as [-> ->].
      split; [constructor | reflexivity].
  - (* strings *)
    destruct v2 as [|[|]|n2|s2|ys|qs]; try (expose H; discriminate H).
    + inversion Hf2; subst. symmetry in H. number_clash z H.
    + cbn [stableStringify] in H.
      destruct (quoteJSONString_unique _ _ _ _ H) as [-> ->].
      split; [constructor | reflexivity].
  - (* arrays *)
    destruct v2 as [|[|]|n2|s2|ys|qs]; try (expose H; discriminate H).
    + inversion Hf2; subst. symmetry in H. number_clash z H.
    + cbn [stableStringify] in H. rewrite !app_cons, !app_nil, !app_assoc_s in H.
      injection H as H. rewrite !app_cons, !app_nil in H.
      inversion Hf1 as [| | | |? Hfx|]; subst. inversion Hf2 as [| | | |? Hfy|]; subst.
      destruct (joined_unique stableStringify structEq finiteNumbers "]"%char
                  eq_refl ltac:(discriminate) value_start xs ys r1 r2) as [Hall ->];
        [ | exact Hfy | exact H | split; [constructor; exact Hall | reflexivity] ].
      rewrite Forall_forall in IH, Hfx. apply Forall_forall. intros x Hx y s1 s2.
      apply (IH x Hx (Hfx x Hx)).
  - (* objects *)
    destruct v2 as [|[|]|n2|s2|ys|qs]; try (expose H; discriminate H).
    + inversion Hf2; subst. symmetry in H. number_clash z H.
    + rewrite !stableStringify_obj in H. rewrite !app_cons, !app_nil, !app_assoc_s in H.
      injection H as H. rewrite !app_cons, !app_nil in H.
      inversion Hf1 as [| | | | |? Hfp]; subst. inversion Hf2 as [| | | | |? Hfq]; subst.
      destruct (joined_unique renderEntry
                  (fun e1 e2 => fst e1 = fst e2 /\ structEq (snd e1) (snd e2))
                  (fun e => finiteNumbers (snd e)) "}"%char
                  eq_refl ltac:(discriminate) entry_start
                  (entries ps) (entries qs) r1 r2) as [Hall ->]; [ | | exact H | ].
      * rewrite Forall_forall in IH, Hfp. apply Forall_forall.
        intros [k v] Hkv [k' w] s1 s2 Hw Hs1 Hs2 E.
        apply list_elem_of_In, entries_In, prop_In, list_elem_of_In in Hkv.
        unfold renderEntry in E. cbn [fst snd] in *. rewrite !app_assoc_s in E.
        destruct (quoteJSONString_unique _ _ _ _ E) as [-> E'].
        rewrite !app_cons, !app_nil in E'. injection E' as E'.
        destruct (IH (k', v) Hkv (Hfp (k', v) Hkv) w s1 s2 Hw Hs1 Hs2 E') as [Hvw ->].
        repeat split; assumption.
      * rewrite Forall_forall in Hfq. apply Forall_forall. intros [k w] Hkw.
        apply list_elem_of_In, entries_In, prop_In, list_elem_of_In in Hkw.
        apply (Hfq (k, w) Hkw).
      * split; [|reflexivity]. constructor. intros k.
        destruct (prop k ps) as [v|] eqn:Ev.
        -- apply entries_In in Ev.
           destruct (Forall2_In_l _ _ _ _ Hall Ev) as ([k' w] & Hw & Hk & Hvw).
           cbn [fst snd] in *. subst k'. apply entries_In in Hw. rewrite Hw.
           constructor. exact Hvw.
        -- destruct (prop k qs) as [w|] eqn:Ew; [|constructor].
           apply entries_In in Ew.
           destruct (Forall2_In_r _ _ _ _ Hall Ew) as ([k' v] & Hv & Hk & Hvw).
           cbn [fst snd] in *. subst k'. apply entries_In in Hv. congruence.
Qed.

End Reading.

(** ** Call keys *)

Section CallKeys.





End CallKeys.

Lemma safeIntegers_finite (v : value) : safeIntegers v -> finiteNumbers v.
Proof.
  induction v as [| | | |items IH|props IH] using value_nested_ind;
    intros H; inversion H as [| | | |? Hall|? Hall]; subst; constructor; clear H.
  - induction IH as [|x rest Hx _ IHrest]; [constructor|].
    inversion Hall; subst. constructor; auto.
  - induction IH as [|x rest Hx _ IHrest]; [constructor|].
    inversion Hall; subst. constructor; auto.
Qed.


Section CallKeyInstances.





End CallKeyInstances.

(** * Further properties of the detector *)

Section Bounds.

Lemma pingPongCount_range k h :
  pingPongCount k h = 0 \/ 3 <= pingPongCount k h <= length h + 1.
Proof.
  unfold pingPongCount. destruct (length h <? 2)%nat; [left; reflexivity|].
  destruct (rev h) as [|last older] eqn:E; [left; reflexivity|].
  destruct (String.eqb (key last) k); [left; reflexivity|].
  pose proof (pingPongScan_count k (key last) (last :: older) 0 None None true) as Hc.
  pose proof (scanned_length k (key last) (last :: older) 0) as Hl.
  destruct (pingPongScan k (key last) (last :: older) 0 None None true) as [count np].
  cbn [fst] in Hc.
  assert (Hlen : length (last :: older) = length h) by (rewrite <- E; apply length_rev).
  destruct (count <? 2)%nat eqn:E2; [left; reflexivity|].
  destruct np; [|left; reflexivity]. cbn [negb orb].
  apply Nat.ltb_ge in E2. right. lia.
Qed.

(** X1. With at most 8 entries in the history no call is flagged, and with
    at most 18 no call is blocked: a ping-pong warning needs 9 recorded
    calls, a ping-pong block 19, the other rules more. *)
Theorem X1_quiet_start (name : string) (params : value) (d : ToolLoopDetector) :
  (length (history d) <= 8 -> evalM (detect name params) d = NotStuck) /\
  (length (history d) <= 18 -> isCritical (evalM (detect name params) d) = false).
Proof.
  unfold evalM. rewrite detect_run. cbn [fst].
  set (k := toolKey name params).
  pose proof (noProgressStreak_le_repeatCount k (history d)) as H1.
  pose proof (repeatCount_le_length k (history d)) as H2.
  pose proof (pingPongCount_range k (history d)) as H3.
  unfold verdictOf, CIRCUIT_BREAKER_THRESHOLD, CRITICAL_THRESHOLD, WARNING_THRESHOLD.
  split; intros Hlen.
  - rewrite (proj2 (Nat.leb_gt 30 _)) by lia. rewrite (proj2 (Nat.leb_gt 20 _)) by lia.
    rewrite (proj2 (Nat.leb_gt 20 (pingPongCount k (history d)))) by lia.
    rewrite (proj2 (Nat.leb_gt 10 (pingPongCount k (history d)))) by lia.
    rewrite (proj2 (Nat.leb_gt 10 (repeatCount k (history d)))) by lia. reflexivity.
  - rewrite (proj2 (Nat.leb_gt 30 _)) by lia. rewrite (proj2 (Nat.leb_gt 20 _)) by lia.
    rewrite (proj2 (Nat.leb_gt 20 (pingPongCount k (history d)))) by lia.
    destruct (10 <=? pingPongCount k (history d))%nat; [reflexivity|].
    destruct (10 <=? repeatCount k (history d))%nat; reflexivity.
Qed.

(** An instance: after 8 recorded failures the verdict is still that nothing
    is stuck, and after 18 it is not critical. *)
Lemma X1_quiet_start_witness :
  evalM (detect "read" readArgs) (afterFailures 8) = NotStuck /\
  isCritical (evalM (detect "read" readArgs) (afterFailures 18)) = false.
Proof.
  split.
  - apply (proj1 (X1_quiet_start "read" readArgs (afterFailures 8))).
    vm_compute. lia.
  - apply (proj2 (X1_quiet_start "read" readArgs (afterFailures 18))).
    vm_compute. lia.
Defined.

End Bounds.

Section Pushing.

Variable k : string.



End Pushing.

Section WrappedCalls.


Lemma record_history name params result error d :
  history (execM (record name params result error) d) =
  history (execM (recordCall (mkCall name params (result, error))) d).
Proof. reflexivity. Qed.

(** What the wrapped [execute] does when the call is let through. *)
Lemma wrappedExecute_passed tool toolCallId params d :
  isCritical (evalM (detect (name tool) params) d) = false ->
  let completion := execute tool toolCallId params in
  let outcome := outcomeOf completion in
  fst (evalM (wrappedExecute tool toolCallId params) d) = completion /\
  history (execM (wrappedExecute tool toolCallId params) d) =
    history (execM (record (name tool) params (fst outcome) (snd outcome)) d).
Proof.
  intros Hnc. cbv zeta. unfold evalM in Hnc. rewrite detect_run in Hnc. cbn [fst] in Hnc.
  unfold evalM, execM, wrappedExecute, bind, ret. rewrite detect_run.
  destruct (verdictOf _ _ _ _) as [|[|] message]; [| |discriminate Hnc].
  - destruct (execute tool toolCallId params) as [result|err];
      rewrite !record_run; cbn [fst snd history outcomeOf]; split; reflexivity.
  - rewrite shouldWarn_run. cbv zeta.
    destruct (_ <=? _)%Z;
      destruct (execute tool toolCallId params) as [result|err];
      rewrite !record_run; cbn [fst snd history outcomeOf]; split; reflexivity.
Qed.

End WrappedCalls.

(** X2. A call that is not blocked goes through unchanged: the wrapped
    [execute] ends as the tool's own [execute] does (same result, or same
    thrown error), and the latest history entry is that call with the
    outcome key of that completion. *)
Theorem X2_wrapper_passes_outcome
    (tool : Tool) (toolCallId : string) (params : value) (d : ToolLoopDetector) :
  isCritical (evalM (detect (name tool) params) d) = false ->
  let completion := execute tool toolCallId params in
  let d' := execM (wrappedExecute tool toolCallId params) d in
  fst (evalM (wrappedExecute tool toolCallId params) d) = completion /\
  exists pre,
    history d' = pre ++ [{| key := toolKey (name tool) params;
                            toolName := name tool;
                            resultKey := outcomeKey (fst (outcomeOf completion))
                                                    (snd (outcomeOf completion)) |}].
Proof.
  intros Hnc. cbv zeta.
  destruct (wrappedExecute_passed tool toolCallId params d Hnc) as [Hc Hh].
  split; [exact Hc|]. rewrite Hh, record_history.
  destruct (recordCall_last
              (mkCall (name tool) params
                 (fst (outcomeOf (execute tool toolCallId params)),
                  snd (outcomeOf (execute tool toolCallId params)))) d)
    as (pre & Hpre & _).
  exists pre. exact Hpre.
Qed.

(** An instance: the twentieth failing call of a wrapped tool is run, its
    error is what the caller sees, and it is the last entry of the history. *)
Lemma X2_wrapper_passes_outcome_witness :
  isCritical (evalM (detect "read" readArgs) (afterFailures 19)) = false /\
  fst (evalM (wrappedExecute readTool "call_20" readArgs) (afterFailures 19)) =
    Threw (ErrorInstance "ENOENT") /\
  exists pre,
    history (execM (wrappedExecute readTool "call_20" readArgs) (afterFailures 19)) =
    pre ++ [{| key := readKey; toolName := "read"; resultKey := Some "error:ENOENT" |}].
Proof.
  assert (H : isCritical (evalM (detect (name readTool) readArgs) (afterFailures 19)) = false)
    by (vm_compute; reflexivity).
  split; [exact H|].
  exact (X2_wrapper_passes_outcome readTool "call_20" readArgs (afterFailures 19) H).
Defined.

Section WrapperInvariant.





End WrapperInvariant.

Section OverlappingCalls.

Variable tool : Tool.
Variable params : value.
Variable result : value.








Hypothesis returns : forall toolCallId, execute tool toolCallId params = Returned (Some result).





End OverlappingCalls.



(** X4. Warning buckets only move forward.  A wrapped call, and
    [shouldWarn] itself, never lower the bucket stored for a key (a key
    with no bucket counting as -1), and never touch the bucket of a key
    other than the one of the call. *)
Theorem X4_warning_buckets_move_forward
    (tool : Tool) (toolCallId : string) (params : value) (d : ToolLoopDetector) (k : string) :
  let bucket (d0 : ToolLoopDetector) := default (-1)%Z (warningBuckets d0 !! k) in
  (bucket d <= bucket (execM (shouldWarn (name tool) params) d))%Z /\
  (bucket d <= bucket (execM (wrappedExecute tool toolCallId params) d))%Z /\
  (k <> toolKey (name tool) params ->
     warningBuckets (execM (wrappedExecute tool toolCallId params) d) !! k =
     warningBuckets d !! k).
Proof.
  cbv zeta.
  assert (Hsw : (default (-1) (warningBuckets d !! k) <=
                 default (-1) (warningBuckets (execM (shouldWarn (name tool) params) d) !! k))%Z /\
                (k <> toolKey (name tool) params ->
                 warningBuckets (execM (shouldWarn (name tool) params) d) !! k =
                 warningBuckets d !! k)).
  { unfold execM. rewrite shouldWarn_run. cbv zeta.
    set (b := (Z.of_nat (repeatCount (toolKey (name tool) params) (history d)) /
               Z.of_nat WARNING_BUCKET_SIZE)%Z).
    destruct (_ <=? _)%Z eqn:E; cbn [snd warningBuckets]; [split; [lia|reflexivity]|].
    apply Z.leb_gt in E.
    destruct (decide (toolKey (name tool) params = k)) as [<-|Hne].
    - rewrite lookup_insert_eq. change (default (-1)%Z (Some b)) with b.
      split; [lia | congruence].
    - rewrite lookup_insert_ne by exact Hne. split; [lia | reflexivity]. }
  assert (Hw : warningBuckets (execM (wrappedExecute tool toolCallId params) d) =
               warningBuckets d \/
               warningBuckets (execM (wrappedExecute tool toolCallId params) d) =
               warningBuckets (execM (shouldWarn (name tool) params) d)).
  { unfold execM, wrappedExecute, bind, ret. rewrite detect_run.
    destruct (verdictOf _ _ _ _) as [|[|] message].
    - left. destruct (execute tool toolCallId params);
        rewrite !record_run; reflexivity.
    - right. destruct (shouldWarn (name tool) params d) as [warn d1].
      destruct (execute tool toolCallId params);
        rewrite !record_run; reflexivity.
    - left. rewrite !record_run. reflexivity. }
  destruct Hsw as [Hle Hother].
  split; [exact Hle|]. destruct Hw as [-> | ->].
  - split; [lia | reflexivity].
  - split; [exact Hle | exact Hother].
Qed.

(** An instance: a wrapped [read] leaves the bucket of another call alone. *)
Lemma X4_warning_buckets_move_forward_witness :
  "list:{}" <> toolKey "read" readArgs /\
  warningBuckets (execM (wrappedExecute readTool "call_11" readArgs) (afterFailures 10))
    !! "list:{}" =
  warningBuckets (afterFailures 10) !! "list:{}".
Proof.
  assert (H : "list:{}" <> toolKey (name readTool) readArgs)
    by (vm_compute; discriminate).
  split; [exact H|].
  destruct (X4_warning_buckets_move_forward readTool "call_11" readArgs
              (afterFailures 10) "list:{}") as (_ & _ & Hk).
  exact (Hk H).
Defined.

(** X5. [reset] gives a fresh detector: after it no call is flagged, so a
    wrapped call that was blocked before runs again and ends as the tool
    does. *)
Theorem X5_reset_clears_the_detector
    (tool : Tool) (toolCallId : string) (params : value) (d : ToolLoopDetector) :
  execM reset d = newDetector /\
  evalM (detect (name tool) params) (execM reset d) = NotStuck /\
  fst (evalM (wrappedExecute tool toolCallId params) (execM reset d)) =
    execute tool toolCallId params.
Proof.
  assert (E : execM reset d = newDetector) by reflexivity.
  assert (Hv : evalM (detect (name tool) params) newDetector = NotStuck).
  { unfold evalM. rewrite detect_run. reflexivity. }
  rewrite E. split; [reflexivity|]. split; [exact Hv|].
  apply wrappedExecute_passed. rewrite Hv. reflexivity.
Qed.

(** * Further properties of the keys *)

(** X6. Outcome keys keep failures and successes apart.  When an error is
    given the result is ignored; the key of a failure is never the key of a
    success, whatever was thrown or returned; and two results with the same
    [content] array get the same key, whatever else they hold. *)
Theorem X6_outcome_keys (result result' : option value) (error : thrown)
    (ps qs : list (string * value)) (blocks : list value) :
  outcomeKey result (Some error) = outcomeKey None (Some error) /\
  outcomeKey result (Some error) <> outcomeKey result' None /\
  (prop "content" ps = Some (VArr blocks) ->
   prop "content" qs = Some (VArr blocks) ->
     outcomeKey (Some (VObj ps)) None = outcomeKey (Some (VObj qs)) None).
Proof.
  split; [destruct error; reflexivity|]. split.
  - assert (Hv : forall v m, "error:" +:+ m <> stableStringify v).
    { intros v m E. destruct (stableStringify_head v) as (c & rest & Hs & Hc).
      rewrite Hs in E. rewrite !app_cons in E. injection E as <- _. discriminate Hc. }
    assert (Hm : forall m, outcomeKey result' None <> Some ("error:" +:+ m)).
    { intros m. unfold outcomeKey.
      destruct result' as [[|b|n|s|items|props]|]; [..|discriminate];
        try (match goal with
             | |- Some (stableStringify ?v) <> _ =>
                 intros E; apply (Hv v m); congruence
             end).
      destruct (prop "content" props) as [[|b|n|s|items|props']|];
        first [ intros E; apply (Hv (VObj props) m); congruence
              | intros E; rewrite !app_cons in E; discriminate E ]. }
    destruct error as [m|m]; intros E; symmetry in E; apply (Hm _ E).
  - intros Hp Hq. unfold outcomeKey. rewrite Hp, Hq. reflexivity.
Qed.

(** An instance: two results that differ in their details only have the
    same outcome key. *)
Lemma X6_outcome_keys_witness :
  let blocks := [VObj [("type", VStr "text"); ("text", VStr "done")]] in
  let ps := [("content", VArr blocks); ("details", VObj [("ms", VNum (Int 12))])] in
  let qs := [("details", VObj [("ms", VNum (Int 340))]); ("content", VArr blocks)] in
  prop "content" ps = Some (VArr blocks) /\
  prop "content" qs = Some (VArr blocks) /\
  outcomeKey (Some (VObj ps)) None = outcomeKey (Some (VObj qs)) None.
Proof.
  cbv zeta.
  set (blocks := [VObj [("type", VStr "text"); ("text", VStr "done")]]).
  set (ps := [("content", VArr blocks); ("details", VObj [("ms", VNum (Int 12))])]).
  set (qs := [("details", VObj [("ms", VNum (Int 340))]); ("content", VArr blocks)]).
  assert (Hp : prop "content" ps = Some (VArr blocks)) by reflexivity.
  assert (Hq : prop "content" qs = Some (VArr blocks)) by reflexivity.
  split; [exact Hp|]. split; [exact Hq|].
  destruct (X6_outcome_keys None None (ErrorInstance "ENOENT") ps qs blocks) as (_ & _ & H).
  exact (H Hp Hq).
Defined.

Section PairKeys.

Lemma toolKey_name name1 : forall name2 s1 s2,
  hasColon name1 = false -> hasColon name2 = false ->
  name1 +:+ ":" +:+ s1 = name2 +:+ ":" +:+ s2 ->
  name1 = name2 /\ s1 = s2.
Proof.
  induction name1 as [|c1 n1 IH]; intros [|c2 n2] s1 s2 H1 H2 H;
    rewrite ?app_cons, ?app_nil in H.
  - injection H as ->. split; reflexivity.
  - injection H as <- _. cbn in H2. discriminate.
  - injection H as -> _. cbn in H1. discriminate.
  - injection H as -> H. cbn [hasColon] in H1, H2.
    apply orb_false_iff in H1 as [_ H1]. apply orb_false_iff in H2 as [_ H2].
    destruct (IH n2 s1 s2 H1 H2) as [-> ->].
    + rewrite ?app_cons, ?app_nil. exact H.
    + split; reflexivity.
Qed.

End PairKeys.

(** X7. Call keys tell calls apart.  For tool names without a colon and
    arguments whose numbers are safe integers, equal call keys mean the same
    tool and structurally equal arguments. *)
Theorem X7_call_key_identifies_the_call (name1 name2 : string) (v1 v2 : value) :
  hasColon name1 = false -> hasColon name2 = false ->
  safeIntegers v1 -> safeIntegers v2 ->
  toolKey name1 v1 = toolKey name2 v2 ->
  name1 = name2 /\ structEq v1 v2.
Proof.
  intros H1 H2 Hs1 Hs2 H. unfold toolKey in H.
  pose proof (safeIntegers_finite v1 Hs1) as Hf1.
  pose proof (safeIntegers_finite v2 Hs2) as Hf2.
  destruct (toolKey_name name1 name2 _ _ H1 H2 H) as [-> Hs].
  split; [reflexivity|].
  destruct (serialization_unique v1 Hf1 v2 "" "" Hf2 I I) as [Heq _];
    [rewrite !app_nil_r_s; exact Hs | exact Heq].
Qed.

(** An instance: two parameter objects with the same call key. *)
Lemma X7_call_key_identifies_the_call_witness :
  let a := VObj [("path", VStr "a.txt"); ("limit", VNum (Int 20))] in
  let b := VObj [("limit", VNum (Int 20)); ("path", VStr "a.txt")] in
  toolKey "read" a = toolKey "read" b /\ structEq a b.
Proof.
  cbv zeta.
  set (a := VObj [("path", VStr "a.txt"); ("limit", VNum (Int 20))]).
  set (b := VObj [("limit", VNum (Int 20)); ("path", VStr "a.txt")]).
  assert (Hfa : safeIntegers a)
    by (unfold a; repeat (constructor; try (unfold MAX_SAFE_INTEGER; lia))).
  assert (Hfb : safeIntegers b)
    by (unfold b; repeat (constructor; try (unfold MAX_SAFE_INTEGER; lia))).
  assert (E : toolKey "read" a = toolKey "read" b) by (vm_compute; reflexivity).
  split; [exact E|].
  exact (proj2 (X7_call_key_identifies_the_call "read" "read" a b
                  eq_refl eq_refl Hfa Hfb E)).
Defined.

(** * Properties of the web tools *)

Section Truncation.

Lemma length_append_s (a b : string) :
  String.length (a +:+ b) = String.length a + String.length b.
Proof. induction a as [|c a IH]; [reflexivity|]. rewrite app_cons. simpl. rewrite IH. reflexivity. Qed.

Lemma length_substring_0 s : forall n,
  n <= String.length s -> String.length (substring 0 n s) = n.
Proof.
  induction s as [|c s IH]; intros [|n] H; simpl in *; try reflexivity; try lia.
  rewrite IH by lia. reflexivity.
Qed.

Lemma prefix_substring_0 s : forall n, String.prefix (substring 0 n s) s = true.
Proof.
  induction s as [|c s IH]; intros [|n]; simpl; try reflexivity.
  destruct (ascii_dec c c) as [_|Hne]; [apply IH | contradiction].
Qed.

End Truncation.

(** X8. [truncate] keeps a text that fits as it is.  A longer text is cut
    to its first [maxChars] characters followed by the marker, so the text
    returned is [maxChars + 13] characters long, 13 more than asked for;
    the flag tells which case applied. *)
Theorem X8_truncate (text : string) (maxChars : nat) :
  (String.length text <= maxChars -> truncate text maxChars = (text, false)) /\
  (maxChars < String.length text ->
     snd (truncate text maxChars) = true /\
     fst (truncate text maxChars) = substring 0 maxChars text +:+ truncationMarker /\
     String.prefix (substring 0 maxChars text) text = true /\
     String.length (fst (truncate text maxChars)) = maxChars + 13) /\
  String.length (fst (truncate text maxChars)) <= maxChars + 13.
Proof.
  unfold truncate. split; [|split].
  - intros H. apply Nat.leb_le in H. rewrite H. reflexivity.
  - intros H. rewrite (proj2 (Nat.leb_gt _ _) H). cbn [fst snd].
    split; [reflexivity|]. split; [reflexivity|]. split; [apply prefix_substring_0|].
    rewrite length_append_s, length_substring_0 by lia. reflexivity.
  - destruct (Nat.leb_spec (String.length text) maxChars) as [H|H]; cbn [fst].
    + lia.
    + rewrite length_append_s, length_substring_0 by lia. simpl. lia.
Qed.

(** An instance: a page of twenty characters, kept whole at a limit of
    twenty and cut at a limit of fourteen. *)
Lemma X8_truncate_witness :
  truncate page 20 = (page, false) /\
  snd (truncate page 14) = true /\
  fst (truncate page 14) = substring 0 14 page +:+ truncationMarker /\
  String.prefix (substring 0 14 page) page = true /\
  String.length (fst (truncate page 14)) = 14 + 13.
Proof.
  split.
  - apply (proj1 (X8_truncate page 20)). vm_compute. lia.
  - apply (proj1 (proj2 (X8_truncate page 14))). vm_compute. lia.
Defined.

(** X9. The cache answers from what was written for five minutes.  Reading
    a key up to [CACHE_TTL_MS] after it was written gives back the value and
    leaves the cache alone; reading it later gives nothing and removes the
    entry. *)
Theorem X9_cache_write_then_read
    {A : Type} (k : string) (v : A) (written now : Z) (cache : gmap string (CacheEntry A)) :
  ((now <= written + CACHE_TTL_MS)%Z ->
     readCache k now (writeCache k v written cache) =
     (Some v, writeCache k v written cache)) /\
  ((written + CACHE_TTL_MS < now)%Z ->
     readCache k now (writeCache k v written cache) = (None, delete k cache)).
Proof.
  unfold readCache, writeCache. rewrite lookup_insert_eq. cbn [expiresAt cached].
  split; intros H.
  - destruct (Z.gtb_spec now (written + CACHE_TTL_MS)) as [Hgt|Hle]; [lia | reflexivity].
  - destruct (Z.gtb_spec now (written + CACHE_TTL_MS)) as [Hgt|Hle]; [|lia].
    rewrite delete_insert_eq. reflexivity.
Qed.

(** An instance: an entry written at time 0 is read at 300000 ms and is
    gone one millisecond later. *)
Lemma X9_cache_write_then_read_witness :
  readCache "fetch:a" 300000 (writeCache "fetch:a" payload 0 ∅) =
    (Some payload, writeCache "fetch:a" payload 0 ∅) /\
  readCache "fetch:a" 300001 (writeCache "fetch:a" payload 0 ∅) =
    (None, delete "fetch:a" ∅).
Proof.
  split.
  - apply (proj1 (X9_cache_write_then_read "fetch:a" payload 0 300000 ∅)).
    vm_compute. discriminate.
  - apply (proj2 (X9_cache_write_then_read "fetch:a" payload 0 300001 ∅)).
    vm_compute. reflexivity.
Defined.

(** X10. [readCache] never hands out an expired value and only ever
    forgets the key it was asked for: a value returned is the cached one of
    an entry that has not expired, and then the cache is unchanged; every
    other key keeps its entry; a missing key changes nothing. *)
Theorem X10_cache_read
    {A : Type} (k k' : string) (now : Z) (cache : gmap string (CacheEntry A)) :
  let answer := fst (readCache k now cache) in
  let cache' := snd (readCache k now cache) in
  (forall v, answer = Some v ->
     exists entry, cache !! k = Some entry /\ cached entry = v /\
                   (now <= expiresAt entry)%Z /\ cache' = cache) /\
  (k' <> k -> cache' !! k' = cache !! k') /\
  (cache !! k = None -> answer = None /\ cache' = cache) /\
  (answer = None -> cache' !! k = None).
Proof.
  cbv zeta. unfold readCache.
  destruct (cache !! k) as [entry|] eqn:E.
  - destruct (Z.gtb_spec now (expiresAt entry)) as [Hgt|Hle]; cbn [fst snd].
    + split; [discriminate|]. split; [intros Hne; apply lookup_delete_ne; congruence|].
      split; [discriminate|]. intros _. apply lookup_delete_eq.
    + split; [intros v [= <-]; exists entry; auto|]. split; [reflexivity|].
      split; discriminate.
  - cbn [fst snd]. split; [discriminate|]. split; [reflexivity|].
    split; [auto | intros _; exact E].
Qed.

(** An instance: a hit, a miss and an expired entry of a one-entry cache. *)
Lemma X10_cache_read_witness :
  let cache := writeCache "fetch:a" payload 0 ∅ in
  (exists entry, cache !! "fetch:a" = Some entry /\ cached entry = payload /\
                 (1000 <= expiresAt entry)%Z /\
                 snd (readCache "fetch:a" 1000 cache) = cache) /\
  snd (readCache "fetch:a" 300001 cache) !! "fetch:b" = cache !! "fetch:b" /\
  (fst (readCache "fetch:b" 1000 cache) = None /\
   snd (readCache "fetch:b" 1000 cache) = cache) /\
  snd (readCache "fetch:a" 300001 cache) !! "fetch:a" = None.
Proof.
  cbv zeta.
  set (cache := writeCache "fetch:a" payload 0 ∅).
  destruct (X10_cache_read "fetch:a" "fetch:b" 1000 cache) as (Hhit & _ & _ & _).
  destruct (X10_cache_read "fetch:a" "fetch:b" 300001 cache) as (_ & Hother & _ & Hgone).
  destruct (X10_cache_read "fetch:b" "fetch:a" 1000 cache) as (_ & _ & Habsent & _).
  split; [|split; [|split]].
  - apply Hhit. vm_compute. reflexivity.
  - apply Hother. discriminate.
  - apply Habsent. vm_compute. reflexivity.
  - apply Hgone. vm_compute. reflexivity.
Defined.

(** X11. The search provider.  Perplexity is chosen exactly when no Brave
    key is set and a Perplexity or OpenRouter key is; whenever it is chosen
    its credentials resolve, to a non-empty key, so the search never stops
    for a missing Perplexity key; and a Perplexity key, when set, is used
    with the direct endpoint, before an OpenRouter key. *)
Theorem X11_search_provider (env : gmap string string) :
  (resolveProvider env = perplexity <->
     envSet env "BRAVE_API_KEY" = false /\
     (envSet env "PERPLEXITY_API_KEY" = true \/ envSet env "OPENROUTER_API_KEY" = true)) /\
  (resolveProvider env = perplexity ->
     exists auth, resolvePerplexityAuth env = Some auth /\ apiKey auth <> "" /\
                  (baseUrl auth = PERPLEXITY_DIRECT_BASE_URL \/
                   baseUrl auth = DEFAULT_PERPLEXITY_BASE_URL)) /\
  (forall perplexityKey, envTruthy env "PERPLEXITY_API_KEY" = Some perplexityKey ->
     resolvePerplexityAuth env =
     Some {| apiKey := perplexityKey; baseUrl := PERPLEXITY_DIRECT_BASE_URL |}).
Proof.
  assert (Hne : forall name s, envTruthy env name = Some s -> s <> "").
  { intros name s. unfold envTruthy. destruct (env !! name) as [[|c r]|]; try discriminate.
    intros [= <-]. discriminate. }
  split; [|split].
  - unfold resolveProvider.
    destruct (envSet env "BRAVE_API_KEY"), (envSet env "PERPLEXITY_API_KEY"),
      (envSet env "OPENROUTER_API_KEY"); cbn [orb negb];
      split; intros H; try discriminate H; auto;
      destruct H as [H1 [H2|H2]]; discriminate.
  - intros H. unfold resolveProvider, envSet in H. unfold resolvePerplexityAuth.
    destruct (envTruthy env "PERPLEXITY_API_KEY") as [pk|] eqn:Ep.
    + eexists. split; [reflexivity|]. cbn [apiKey baseUrl].
      split; [eapply Hne; exact Ep | left; reflexivity].
    + destruct (envTruthy env "OPENROUTER_API_KEY") as [ok|] eqn:Eo; [|discriminate H].
      eexists. split; [reflexivity|]. cbn [apiKey baseUrl].
      split; [eapply Hne; exact Eo | right; reflexivity].
  - intros pk Hp. unfold resolvePerplexityAuth. rewrite Hp. reflexivity.
Qed.

(** An instance: with the Perplexity key alone, Perplexity is chosen and
    called directly. *)
Lemma X11_search_provider_witness :
  resolveProvider perplexityOnly = perplexity /\
  (exists auth, resolvePerplexityAuth perplexityOnly = Some auth /\ apiKey auth <> "" /\
                (baseUrl auth = PERPLEXITY_DIRECT_BASE_URL \/
                 baseUrl auth = DEFAULT_PERPLEXITY_BASE_URL)) /\
  resolvePerplexityAuth perplexityOnly =
    Some {| apiKey := "pplx-1"; baseUrl := PERPLEXITY_DIRECT_BASE_URL |}.
Proof.
  destruct (X11_search_provider perplexityOnly) as (Hiff & Hauth & Hdirect).
  assert (H : resolveProvider perplexityOnly = perplexity).
  { apply Hiff. split; [vm_compute; reflexivity | left; vm_compute; reflexivity]. }
  split; [exact H|]. split; [exact (Hauth H)|].
  apply Hdirect. vm_compute. reflexivity.
Defined.

(** * Properties of the REPL helpers *)

Section Skills.

Lemma prop_app {A : Type} k (m m' : list (string * A)) :
  prop k (m ++ m') = match prop k m with Some v => Some v | None => prop k m' end.
Proof.
  induction m as [|[k0 v0] m IH]; [reflexivity|]. simpl.
  destruct (String.eqb k0 k); [reflexivity | exact IH].
Qed.

Lemma addSkill_prop m s n :
  prop n (addSkill m s) =
  match prop n m with
  | Some x => Some x
  | None => if String.eqb (skillName s) n then Some s else None
  end.
Proof.
  unfold addSkill. destruct (prop (skillName s) m) as [x|] eqn:E.
  - destruct (prop n m) as [y|] eqn:En; [reflexivity|].
    destruct (String.eqb_spec (skillName s) n) as [<-|_]; [congruence | reflexivity].
  - rewrite prop_app. destruct (prop n m); reflexivity.
Qed.

Lemma addSkill_keyed m s :
  NoDup (map fst m) /\ keyedByName m ->
  NoDup (map fst (addSkill m s)) /\ keyedByName (addSkill m s).
Proof.
  intros [Hnd Hk]. unfold addSkill.
  destruct (prop (skillName s) m) as [x|] eqn:E; [split; assumption|].
  split.
  - rewrite map_app. cbn [map fst]. apply NoDup_app. split; [exact Hnd|]. split.
    + intros n Hn Hs. apply list_elem_of_In in Hs. destruct Hs as [<-|[]].
      apply prop_None in E. apply E, list_elem_of_In, Hn.
    + apply NoDup_singleton.
  - apply Forall_app. split; [exact Hk|]. constructor; [reflexivity | constructor].
Qed.

Lemma fold_addSkill_prop xs : forall m n,
  prop n (fold_left addSkill xs m) =
  match prop n m with
  | Some x => Some x
  | None => find (fun s => String.eqb (skillName s) n) xs
  end.
Proof.
  induction xs as [|s xs IH]; intros m n; cbn [fold_left find].
  - destruct (prop n m); reflexivity.
  - rewrite IH, addSkill_prop. destruct (prop n m); [reflexivity|].
    destruct (String.eqb (skillName s) n); reflexivity.
Qed.

Lemma fold_addSkill_keyed xs : forall m,
  NoDup (map fst m) /\ keyedByName m ->
  NoDup (map fst (fold_left addSkill xs m)) /\ keyedByName (fold_left addSkill xs m).
Proof.
  induction xs as [|s xs IH]; intros m H; [exact H|].
  cbn [fold_left]. apply IH, addSkill_keyed, H.
Qed.

Lemma find_keyed m n :
  keyedByName m -> find (fun s => String.eqb (skillName s) n) (map snd m) = prop n m.
Proof.
  induction 1 as [|[k0 s] m Hk _ IH]; [reflexivity|].
  cbn [fst snd] in Hk. subst k0. cbn [map snd find prop]. rewrite IH. reflexivity.
Qed.

Lemma names_keyed m : keyedByName m -> map skillName (map snd m) = map fst m.
Proof.
  induction 1 as [|[k0 s] m Hk _ IH]; [reflexivity|].
  cbn [fst snd] in Hk. subst k0. cbn [map fst snd]. rewrite IH. reflexivity.
Qed.

Lemma find_unique (l : list Skill) s :
  NoDup (map skillName l) -> In s l -> find (fun x => String.eqb (skillName x) (skillName s)) l = Some s.
Proof.
  induction l as [|x l IH]; intros Hnd Hin; [destruct Hin|].
  cbn [map] in Hnd. apply NoDup_cons in Hnd as [Hx Hnd]. cbn [find].
  destruct Hin as [->|Hin]; [rewrite String.eqb_refl; reflexivity|].
  destruct (String.eqb_spec (skillName x) (skillName s)) as [E|_]; [|apply IH; assumption].
  exfalso. apply Hx. rewrite E. apply list_elem_of_In, in_map, Hin.
Qed.

Lemma discoverSkills_map load :
  fst (discoverSkills load) = map snd (fold_left addSkill (offeredSkills load) []).
Proof.
  unfold discoverSkills, offeredSkills, skillSources, discoverStep.
  cbn [fold_left flat_map].
  destruct (load "user") as [[s1 d1]|], (load "project") as [[s2 d2]|],
    (load "bundled") as [[s3 d3]|]; cbn [fst snd];
    rewrite ?app_nil_r, ?fold_left_app; reflexivity.
Qed.

End Skills.

(** X12. Skill discovery keeps one skill per name, the first one offered.
    With the sources looked at in the order user, project, bundled (a
    source whose loading throws offers nothing), the skills returned have
    pairwise different names, each of them is offered by a source, and the
    skill returned for a name is the first one offered under that name: a
    user skill shadows a project or bundled skill of the same name. *)
Theorem X12_discoverSkills (load : SkillLoader) :
  let skills := fst (discoverSkills load) in
  NoDup (map skillName skills) /\
  (forall s, In s skills -> In s (offeredSkills load)) /\
  (forall n, find (fun s => String.eqb (skillName s) n) skills =
             find (fun s => String.eqb (skillName s) n) (offeredSkills load)).
Proof.
  cbv zeta. rewrite discoverSkills_map.
  set (m := fold_left addSkill (offeredSkills load) []).
  destruct (fold_addSkill_keyed (offeredSkills load) [])
    as [Hnd Hk]; [split; [constructor | constructor]|]. fold m in Hnd, Hk.
  assert (Hfind : forall n, find (fun s => String.eqb (skillName s) n) (map snd m) =
                            find (fun s => String.eqb (skillName s) n) (offeredSkills load)).
  { intros n. rewrite find_keyed by exact Hk. unfold m.
    rewrite fold_addSkill_prop. reflexivity. }
  assert (Hnames : NoDup (map skillName (map snd m))) by (rewrite names_keyed; assumption).
  split; [exact Hnames|]. split; [|exact Hfind].
  intros s Hs. pose proof (find_unique _ s Hnames Hs) as Hf.
  rewrite Hfind in Hf. apply find_some in Hf. apply Hf.
Qed.

(** An instance: the user's [deploy] is kept, and it is one of the skills
    the sources gave. *)
Lemma X12_discoverSkills_witness :
  let mine := {| skillName := "deploy"; skillDescription := "mine"; skillSource := "user" |} in
  In mine (fst (discoverSkills twoSources)) /\ In mine (offeredSkills twoSources).
Proof.
  cbv zeta.
  assert (H : In {| skillName := "deploy"; skillDescription := "mine"; skillSource := "user" |}
                 (fst (discoverSkills twoSources)))
    by (vm_compute; left; reflexivity).
  split; [exact H|].
  destruct (X12_discoverSkills twoSources) as (_ & Hin & _).
  exact (Hin _ H).
Defined.

Section Messages.

Lemma assistantTextFrom_filter ms :
  assistantTextFrom (List.filter isAssistant ms) = assistantTextFrom ms.
Proof.
  induction ms as [|m ms IH]; [reflexivity|].
  cbn [List.filter assistantTextFrom]. unfold isAssistant at 1.
  destruct (String.eqb (role m) "assistant") eqn:E; cbn [negb]; [|exact IH].
  cbn [assistantTextFrom]. rewrite E. cbn [negb].
  destruct (content m) as [s|parts|]; [reflexivity | | exact IH].
  destruct (textOfParts parts); [exact IH | reflexivity].
Qed.

Lemma filter_rev_bool {A : Type} (f : A -> bool) l :
  List.filter f (rev l) = rev (List.filter f l).
Proof.
  induction l as [|x l IH]; [reflexivity|].
  cbn [rev List.filter]. rewrite List.filter_app, IH. cbn [List.filter].
  destruct (f x); [reflexivity | apply app_nil_r].
Qed.

Lemma assistantTextFrom_origin ms :
  assistantTextFrom ms <> "" ->
  exists m, In m ms /\ isAssistant m = true /\
            (content m = Text (assistantTextFrom ms) \/
             exists parts, content m = Parts parts /\
                           textOfParts parts = assistantTextFrom ms).
Proof.
  induction ms as [|m ms IH]; [intros H; contradiction|].
  cbn [assistantTextFrom]. destruct (String.eqb (role m) "assistant") eqn:E; cbn [negb].
  - destruct (content m) as [s|parts|] eqn:Ec.
    + intros _. exists m. split; [left; reflexivity|]. split; [exact E | left; exact Ec].
    + destruct (textOfParts parts) as [|c t] eqn:Et.
      * intros H. destruct (IH H) as (m' & Hin & Hm'). exists m'. split; [right; exact Hin | exact Hm'].
      * intros _. exists m. split; [left; reflexivity|]. split; [exact E|].
        right. exists parts. split; [exact Ec | exact Et].
    + intros H. destruct (IH H) as (m' & Hin & Hm'). exists m'. split; [right; exact Hin | exact Hm'].
  - intros H. destruct (IH H) as (m' & Hin & Hm'). exists m'. split; [right; exact Hin | exact Hm'].
Qed.

End Messages.

(** X13. [extractAssistantText] reads assistant messages only, the latest
    first.  Messages of other roles do not matter; a text obtained is the
    string content of an assistant message, or the joined text parts of
    one; an assistant message with string content placed last is the
    answer, even when that string is empty; and a message of another role
    placed last changes nothing. *)
Theorem X13_extractAssistantText (messages : list AgentMessage) (last : AgentMessage) :
  extractAssistantText (List.filter isAssistant messages) = extractAssistantText messages /\
  (extractAssistantText messages <> "" ->
     exists m, In m messages /\ isAssistant m = true /\
               (content m = Text (extractAssistantText messages) \/
                exists parts, content m = Parts parts /\
                              textOfParts parts = extractAssistantText messages)) /\
  (forall s, isAssistant last = true -> content last = Text s ->
     extractAssistantText (messages ++ [last]) = s) /\
  (isAssistant last = false ->
     extractAssistantText (messages ++ [last]) = extractAssistantText messages).
Proof.
  unfold extractAssistantText. split; [|split; [|split]].
  - rewrite <- filter_rev_bool. apply assistantTextFrom_filter.
  - intros H. destruct (assistantTextFrom_origin _ H) as (m & Hin & Hm).
    exists m. split; [apply in_rev; exact Hin | exact Hm].
  - intros s Ha Hc. rewrite rev_unit. cbn [assistantTextFrom].
    unfold isAssistant in Ha. rewrite Ha, Hc. reflexivity.
  - intros Ha. rewrite rev_unit. cbn [assistantTextFrom].
    unfold isAssistant in Ha. rewrite Ha. reflexivity.
Qed.

(** An instance: the text of a conversation, and the same conversation
    followed by an empty answer or by a question of the user. *)
Lemma X13_extractAssistantText_witness :
  let answer := {| role := "assistant"; content := Text "" |} in
  let question := {| role := "user"; content := Text "And b.txt?" |} in
  (exists m, In m conversation /\ isAssistant m = true /\
             (content m = Text (extractAssistantText conversation) \/
              exists parts, content m = Parts parts /\
                            textOfParts parts = extractAssistantText conversation)) /\
  extractAssistantText (conversation ++ [answer]) = "" /\
  extractAssistantText (conversation ++ [question]) = extractAssistantText conversation.
Proof.
  cbv zeta.
  destruct (X13_extractAssistantText conversation
              {| role := "assistant"; content := Text "" |}) as (_ & Horigin & Hlast & _).
  destruct (X13_extractAssistantText conversation
              {| role := "user"; content := Text "And b.txt?" |}) as (_ & _ & _ & Hother).
  split; [|split].
  - apply Horigin. vm_compute. discriminate.
  - apply Hlast; reflexivity.
  - apply Hother. reflexivity.
Defined.

(** X14. [extractToolCalls] lists the tool-use parts of assistant messages
    in message order: messages of other roles contribute nothing, the calls
    of a conversation followed by another are the calls of the first
    followed by those of the second, and there is one name per tool-use
    part, ["unknown"] standing for a missing name. *)
Theorem X14_extractToolCalls (messages more : list AgentMessage) :
  extractToolCalls (List.filter isAssistant messages) = extractToolCalls messages /\
  extractToolCalls (messages ++ more) = extractToolCalls messages ++ extractToolCalls more /\
  (forall parts,
     length (extractToolCalls [{| role := "assistant"; content := Parts parts |}]) =
     length (List.filter (fun part => String.eqb (partType part) "tool_use") parts)) /\
  (forall m, In m messages -> forall n, In n (toolCallsOf m) -> In n (extractToolCalls messages)).
Proof.
  unfold extractToolCalls. split; [|split; [|split]].
  - induction messages as [|m ms IH]; [reflexivity|].
    cbn [List.filter flat_map]. unfold isAssistant at 1.
    destruct (String.eqb (role m) "assistant") eqn:E.
    + cbn [flat_map]. rewrite IH. reflexivity.
    + rewrite IH. unfold toolCallsOf. rewrite E. reflexivity.
  - apply flat_map_app.
  - intros parts. cbn [flat_map]. rewrite app_nil_r. unfold toolCallsOf.
    cbn [role content]. cbn [String.eqb Ascii.eqb Bool.eqb andb negb].
    apply length_map.
  - intros m Hm n Hn. apply in_flat_map. exists m. split; assumption.
Qed.

(** An instance: a tool call without a name is listed as [unknown]. *)
Lemma X14_extractToolCalls_witness :
  In toolTurn conversation /\ In "unknown" (toolCallsOf toolTurn) /\
  In "unknown" (extractToolCalls conversation).
Proof.
  assert (Hm : In toolTurn conversation) by (right; left; reflexivity).
  assert (Hn : In "unknown" (toolCallsOf toolTurn)) by (vm_compute; right; left; reflexivity).
  split; [exact Hm|]. split; [exact Hn|].
  destruct (X14_extractToolCalls conversation []) as (_ & _ & _ & Hin).
  exact (Hin toolTurn Hm "unknown" Hn).
Defined.

Section ContextFiles.

Variable readFile : string -> option string.

Lemma fileFor_paths name : map path (fileFor readFile name) = [] \/ map path (fileFor readFile name) = [name].
Proof.
  unfold fileFor. destruct (readFile name) as [raw|]; [|left; reflexivity].
  destruct (trim raw); [left | right]; reflexivity.
Qed.

Lemma loadFrom_sublist names :
  sublist (map path (flat_map (fileFor readFile) names)) names.
Proof.
  induction names as [|name names IH]; [constructor|].
  cbn [flat_map]. rewrite map_app.
  destruct (fileFor_paths name) as [-> | ->]; cbn [app].
  - apply sublist_cons. exact IH.
  - apply sublist_skip. exact IH.
Qed.

Lemma fileFor_spec name f :
  In f (fileFor readFile name) <->
  exists raw, readFile name = Some raw /\ trim raw <> "" /\
              f = {| path := name; fileContent := trim raw |}.
Proof.
  unfold fileFor. destruct (readFile name) as [raw|].
  - destruct (trim raw) as [|c t] eqn:E.
    + split; [intros [] | intros (raw' & [= <-] & Hne & _); congruence].
    + split.
      * intros [<-|[]]. exists raw. rewrite E. repeat split; discriminate.
      * intros (raw' & [= <-] & _ & ->). rewrite E. left; reflexivity.
  - split; [intros [] | intros (raw' & H & _); discriminate].
Qed.

End ContextFiles.

(** X15. [loadContextFiles] visits the fixed names in order and keeps a
    file exactly when it can be read and its trimmed text is not empty: the
    paths returned are a subsequence of [CONTEXT_FILE_NAMES], without
    repetition; an entry is returned if and only if its path is one of the
    names, the file of that name reads as some text, and the entry's content
    is that text trimmed and is not empty. *)
Theorem X15_loadContextFiles (readFile : string -> option string) :
  sublist (map path (loadContextFiles readFile)) CONTEXT_FILE_NAMES /\
  NoDup (map path (loadContextFiles readFile)) /\
  (forall f, In f (loadContextFiles readFile) <->
     In (path f) CONTEXT_FILE_NAMES /\
     exists raw, readFile (path f) = Some raw /\
                 fileContent f = trim raw /\ fileContent f <> "").
Proof.
  assert (Hsub : sublist (map path (loadContextFiles readFile)) CONTEXT_FILE_NAMES)
    by apply loadFrom_sublist.
  split; [exact Hsub|]. split.
  - eapply sublist_NoDup; [|exact Hsub]. unfold CONTEXT_FILE_NAMES.
    repeat (apply NoDup_cons; split;
            [rewrite list_elem_of_In; cbn [In]; intuition discriminate|]).
    apply NoDup_nil. exact I.
  - intros f. unfold loadContextFiles. rewrite in_flat_map. split.
    + intros (name & Hin & Hf). apply fileFor_spec in Hf.
      destruct Hf as (raw & Hr & Hne & ->). cbn [path fileContent].
      split; [exact Hin|]. exists raw. repeat split; assumption.
    + intros (Hin & raw & Hr & Hc & Hne). exists (path f). split; [exact Hin|].
      apply fileFor_spec. exists raw. split; [exact Hr|]. split; [congruence|].
      destruct f as [p c]. cbn [path fileContent] in *. congruence.
Qed.

(** An instance: [CLAUDE.md] is loaded with its text trimmed. *)
Lemma X15_loadContextFiles_witness :
  In {| path := "CLAUDE.md"; fileContent := "Be brief." |} (loadContextFiles workspaceFiles).
Proof.
  destruct (X15_loadContextFiles workspaceFiles) as (_ & _ & Hiff).
  apply Hiff. cbn [path fileContent]. split.
  - vm_compute. tauto.
  - exists (String " " (String " " "Be brief." +:+ String newline "")).
    split; [reflexivity|]. split; [vm_compute; reflexivity | discriminate].
Defined.

(** * Properties of [markdownFromText] *)

Section Collapsing.

Lemma collapseFrom_runs s : forall run,
  longRun (collapseFrom run s) = false /\
  leadingLineFeeds (collapseFrom run s) <= 2 - run.
Proof.
  induction s as [|c rest IH]; intros run; [split; [reflexivity | cbn; lia]|].
  cbn [collapseFrom]. destruct (Ascii.eqb c newline) eqn:Ec.
  - destruct (Nat.ltb_spec run 2) as [Hr|Hr].
    + destruct (IH (S run)) as [Hl Hn]. cbn [longRun leadingLineFeeds]. rewrite Ec, Hl.
      split; [|lia]. rewrite orb_false_r. apply Nat.leb_gt. lia.
    + destruct (IH (S run)) as [Hl Hn]. split; [exact Hl | lia].
  - destruct (IH 0) as [Hl Hn]. cbn [longRun leadingLineFeeds]. rewrite Ec, Hl.
    split; [reflexivity | lia].
Qed.

Lemma longRun_leading s : longRun s = false -> leadingLineFeeds s <= 2.
Proof.
  destruct s as [|c rest]; [cbn; lia|]. cbn [longRun]. intros H.
  apply orb_false_iff in H. destruct H as [H _]. apply Nat.leb_gt in H. lia.
Qed.

Lemma longRun_tail c rest : longRun (String c rest) = false -> longRun rest = false.
Proof. cbn [longRun]. intros H. apply orb_false_iff in H. exact (proj2 H). Qed.

Lemma collapseFrom_fixed s : forall run,
  longRun s = false -> run + leadingLineFeeds s <= 2 -> collapseFrom run s = s.
Proof.
  induction s as [|c rest IH]; intros run Hl Hn; [reflexivity|].
  pose proof (longRun_tail _ _ Hl) as Hrest.
  cbn [collapseFrom]. cbn [leadingLineFeeds] in Hn.
  destruct (Ascii.eqb c newline) eqn:Ec.
  - destruct (Nat.ltb_spec run 2) as [Hr|Hr]; [|lia].
    rewrite (IH (S run) Hrest); [reflexivity | lia].
  - rewrite (IH 0 Hrest); [reflexivity|].
    pose proof (longRun_leading _ Hrest). lia.
Qed.

Lemma collapseFrom_length s : forall run,
  String.length (collapseFrom run s) <= String.length s.
Proof.
  induction s as [|c rest IH]; intros run; [reflexivity|].
  cbn [collapseFrom]. destruct (Ascii.eqb c newline).
  - destruct (run <? 2)%nat; cbn [String.length]; [specialize (IH (S run)) | specialize (IH (S run))]; lia.
  - cbn [String.length]. specialize (IH 0). lia.
Qed.

Lemma newline_isWhiteSpace c : Ascii.eqb c newline = true -> isWhiteSpace c = true.
Proof. intros H. apply Ascii.eqb_eq in H. subst c. reflexivity. Qed.

Lemma isWhiteSpace_blank c : isWhiteSpace c = blank c.
Proof. destruct c as [[] [] [] [] [] [] [] []]; reflexivity. Qed.

Lemma blank_In c : blank c = false <-> ~ In c asciiWhiteSpace.
Proof.
  unfold blank. split.
  - intros H Hin. apply not_true_iff_false in H. apply H.
    apply existsb_exists. exists c. split; [exact Hin | apply Ascii.eqb_refl].
  - intros H. apply not_true_iff_false. intros E. apply H.
    apply existsb_exists in E. destruct E as (x & Hin & Ex).
    apply Ascii.eqb_eq in Ex. subst x. exact Hin.
Qed.

Lemma visible_cons c rest :
  visible (String c rest) = if isWhiteSpace c then visible rest else String c (visible rest).
Proof. rewrite isWhiteSpace_blank. reflexivity. Qed.

Lemma collapseFrom_visible s : forall run, visible (collapseFrom run s) = visible s.
Proof.
  induction s as [|c rest IH]; intros run; [reflexivity|].
  cbn [collapseFrom]. rewrite (visible_cons c rest).
  destruct (Ascii.eqb c newline) eqn:Ec.
  - rewrite (newline_isWhiteSpace _ Ec).
    destruct (run <? 2)%nat; [rewrite visible_cons, (newline_isWhiteSpace _ Ec)|]; apply IH.
  - rewrite visible_cons, IH. reflexivity.
Qed.

Lemma collapseFrom_ascii s : forall run,
  asciiOnly s = true -> asciiOnly (collapseFrom run s) = true.
Proof.
  induction s as [|c rest IH]; intros run H; [reflexivity|].
  cbn [asciiOnly] in H. apply andb_true_iff in H. destruct H as [Hc Hrest].
  cbn [collapseFrom]. destruct (Ascii.eqb c newline); [destruct (run <? 2)%nat|];
    cbn [asciiOnly]; rewrite ?Hc; cbn [andb]; apply IH; exact Hrest.
Qed.

Lemma longRun_threeLineFeeds a b : longRun (a +:+ threeLineFeeds +:+ b) = true.
Proof.
  induction a as [|c a IH].
  - rewrite app_nil. unfold threeLineFeeds. rewrite !app_cons, app_nil. reflexivity.
  - rewrite app_cons. cbn [longRun]. rewrite IH. apply orb_true_r.
Qed.

Lemma longRun_found s :
  longRun s = true -> exists a b, s = a +:+ threeLineFeeds +:+ b.
Proof.
  induction s as [|c rest IH]; [discriminate|].
  cbn [longRun]. intros H. apply orb_true_iff in H. destruct H as [H|H].
  - apply Nat.leb_le in H. cbn [leadingLineFeeds] in H.
    destruct (Ascii.eqb c newline) eqn:Ec; [|lia]. apply Ascii.eqb_eq in Ec. subst c.
    destruct rest as [|c1 rest]; [cbn in H; lia|]. cbn [leadingLineFeeds] in H.
    destruct (Ascii.eqb c1 newline) eqn:Ec1; [|lia]. apply Ascii.eqb_eq in Ec1. subst c1.
    destruct rest as [|c2 rest]; [cbn in H; lia|]. cbn [leadingLineFeeds] in H.
    destruct (Ascii.eqb c2 newline) eqn:Ec2; [|lia]. apply Ascii.eqb_eq in Ec2. subst c2.
    exists "", rest. reflexivity.
  - destruct (IH H) as (a & b & ->). exists (String c a), b. reflexivity.
Qed.

End Collapsing.

Section Trimming.

Lemma trimStart_suffix s : exists a, s = a +:+ trimStart s /\ visible a = "".
Proof.
  induction s as [|c rest IH]; [exists ""; split; reflexivity|].
  cbn [trimStart]. destruct (isWhiteSpace c) eqn:Ec.
  - destruct IH as (a & E & Ha). exists (String c a). rewrite app_cons, <- E.
    split; [reflexivity|]. rewrite visible_cons, Ec. exact Ha.
  - exists "". split; reflexivity.
Qed.

Lemma trimEnd_prefix s : exists b, s = trimEnd s +:+ b /\ visible b = "".
Proof.
  induction s as [|c rest IH]; [exists ""; split; reflexivity|].
  destruct IH as (b & E & Hb). cbn [trimEnd].
  destruct (trimEnd rest) as [|d t] eqn:Et.
  - rewrite app_nil in E. subst b. destruct (isWhiteSpace c) eqn:Ec.
    + exists (String c rest). split; [reflexivity|]. rewrite visible_cons, Ec. exact Hb.
    + exists rest. split; [reflexivity | exact Hb].
  - exists b. rewrite app_cons, <- E. split; [reflexivity | exact Hb].
Qed.

Lemma visible_app a b : visible (a +:+ b) = visible a +:+ visible b.
Proof.
  induction a as [|c a IH]; [reflexivity|].
  rewrite app_cons, !visible_cons. destruct (isWhiteSpace c); [exact IH|].
  rewrite app_cons, IH. reflexivity.
Qed.

Lemma trim_visible s : visible (trim s) = visible s.
Proof.
  unfold trim. destruct (trimStart_suffix s) as (a & Ea & Ha).
  destruct (trimEnd_prefix (trimStart s)) as (b & Eb & Hb).
  rewrite Ea at 2. rewrite Eb at 2. rewrite !visible_app, Ha, Hb.
  rewrite app_nil, app_nil_r_s. reflexivity.
Qed.

Lemma trim_length s : String.length (trim s) <= String.length s.
Proof.
  unfold trim. destruct (trimStart_suffix s) as (a & Ea & _).
  destruct (trimEnd_prefix (trimStart s)) as (b & Eb & _).
  rewrite Ea at 2. rewrite Eb at 2. rewrite !length_append_s. lia.
Qed.

Lemma longRun_suffix a s : longRun (a +:+ s) = false -> longRun s = false.
Proof.
  induction a as [|c a IH]; [rewrite app_nil; exact id|].
  rewrite app_cons. intros H. apply IH. exact (longRun_tail _ _ H).
Qed.

Lemma leadingLineFeeds_prefix s b : leadingLineFeeds s <= leadingLineFeeds (s +:+ b).
Proof.
  induction s as [|c s IH]; [cbn; lia|].
  rewrite app_cons. cbn [leadingLineFeeds]. destruct (Ascii.eqb c newline); lia.
Qed.

Lemma longRun_prefix s b : longRun (s +:+ b) = false -> longRun s = false.
Proof.
  induction s as [|c s IH]; [reflexivity|].
  rewrite app_cons. intros H. pose proof (longRun_tail _ _ H) as Ht.
  cbn [longRun] in H |- *. apply orb_false_iff in H. destruct H as [H _].
  rewrite (IH Ht), orb_false_r. apply Nat.leb_gt. apply Nat.leb_gt in H.
  pose proof (leadingLineFeeds_prefix (String c s) b) as Hp. rewrite app_cons in Hp. lia.
Qed.

Lemma trim_longRun s : longRun s = false -> longRun (trim s) = false.
Proof.
  intros H. unfold trim. destruct (trimStart_suffix s) as (a & Ea & _).
  destruct (trimEnd_prefix (trimStart s)) as (b & Eb & _).
  rewrite Ea in H. apply longRun_suffix in H. rewrite Eb in H.
  exact (longRun_prefix _ _ H).
Qed.

Lemma trimEnd_idempotent s : trimEnd (trimEnd s) = trimEnd s.
Proof.
  induction s as [|c rest IH]; [reflexivity|].
  cbn [trimEnd]. destruct (trimEnd rest) as [|d t] eqn:Et.
  - destruct (isWhiteSpace c) eqn:Ec; [reflexivity|]. cbn [trimEnd]. rewrite Ec. reflexivity.
  - change (trimEnd (String c (String d t))) with
      (match trimEnd (String d t) with
       | EmptyString => if isWhiteSpace c then EmptyString else String c EmptyString
       | String a s0 => String c (String a s0)
       end).
    rewrite IH. reflexivity.
Qed.

Lemma trimEnd_head c rest :
  isWhiteSpace c = false -> exists t, trimEnd (String c rest) = String c t.
Proof.
  intros Hc. cbn [trimEnd]. destruct (trimEnd rest) as [|d t].
  - rewrite Hc. exists "". reflexivity.
  - exists (String d t). reflexivity.
Qed.

Lemma trimStart_head s :
  trimStart s = "" \/ exists c rest, trimStart s = String c rest /\ isWhiteSpace c = false.
Proof.
  induction s as [|c rest IH]; [left; reflexivity|].
  cbn [trimStart]. destruct (isWhiteSpace c) eqn:Ec; [exact IH|].
  right. exists c, rest. split; [reflexivity | exact Ec].
Qed.

Lemma trim_idempotent s : trim (trim s) = trim s.
Proof.
  unfold trim. destruct (trimStart_head s) as [E | (c & rest & E & Hc)]; rewrite E.
  - reflexivity.
  - destruct (trimEnd_head c rest Hc) as (t & Et). rewrite Et.
    cbn [trimStart]. rewrite Hc, <- Et. apply trimEnd_idempotent.
Qed.

Lemma asciiOnly_app a b : asciiOnly (a +:+ b) = asciiOnly a && asciiOnly b.
Proof.
  induction a as [|c a IH]; [reflexivity|].
  rewrite app_cons. cbn [asciiOnly]. rewrite IH. apply andb_assoc.
Qed.

Lemma trim_ascii s : asciiOnly s = true -> asciiOnly (trim s) = true.
Proof.
  unfold trim. destruct (trimStart_suffix s) as (a & Ea & _).
  destruct (trimEnd_prefix (trimStart s)) as (b & Eb & _).
  intros H. rewrite Ea, Eb, !asciiOnly_app in H.
  apply andb_true_iff in H. destruct H as [_ H].
  apply andb_true_iff in H. exact (proj1 H).
Qed.

Lemma trimEnd_last s : forall front c,
  trimEnd s = front +:+ String c "" -> isWhiteSpace c = false.
Proof.
  induction s as [|a rest IH]; intros front c E.
  - destruct front; discriminate E.
  - cbn [trimEnd] in E. destruct (trimEnd rest) as [|d t] eqn:Et.
    + destruct (isWhiteSpace a) eqn:Ea; [destruct front; discriminate E|].
      destruct front as [|x front]; [injection E as <-; exact Ea|].
      rewrite app_cons in E. injection E as _ E. destruct front; discriminate E.
    + destruct front as [|x front]; [rewrite app_nil in E; discriminate E|].
      rewrite app_cons in E. injection E as _ E. exact (IH front c E).
Qed.

Lemma trim_ends s : noBlankEnds (trim s).
Proof.
  unfold trim. split.
  - intros c rest E. apply blank_In. rewrite <- isWhiteSpace_blank.
    destruct (trimStart_head s) as [E0 | (c0 & r0 & E0 & Hc0)]; rewrite E0 in E.
    + discriminate E.
    + destruct (trimEnd_head c0 r0 Hc0) as (t & Et). rewrite Et in E.
      injection E as <- _. exact Hc0.
  - intros front c E. apply blank_In. rewrite <- isWhiteSpace_blank.
    exact (trimEnd_last _ front c E).
Qed.

Lemma trimEnd_fixed s :
  (forall front c, s = front +:+ String c "" -> isWhiteSpace c = false) ->
  trimEnd s = s.
Proof.
  induction s as [|a rest IH]; intros H; [reflexivity|].
  cbn [trimEnd]. destruct rest as [|b r].
  - cbn [trimEnd]. rewrite (H "" a eq_refl). reflexivity.
  - rewrite IH; [reflexivity|].
    intros front c E. apply (H (String a front) c). rewrite app_cons, <- E. reflexivity.
Qed.

Lemma trim_fixed s : noBlankEnds s -> trim s = s.
Proof.
  intros [Hfirst Hlast]. unfold trim.
  assert (Es : trimStart s = s).
  { destruct s as [|c rest]; [reflexivity|]. cbn [trimStart].
    rewrite isWhiteSpace_blank, (proj2 (blank_In c) (Hfirst c rest eq_refl)). reflexivity. }
  rewrite Es. apply trimEnd_fixed. intros front c E.
  rewrite isWhiteSpace_blank. apply blank_In. exact (Hlast front c E).
Qed.

End Trimming.

(** X16. [markdownFromText] on ASCII text.  The result is ASCII text with
    no run of three or more line feeds, and neither its first nor its last
    character is white space; the characters that are not white space are
    those of the argument, in order; the result is never longer than the
    argument; applying the function again changes nothing; and the function
    returns its argument unchanged exactly when the argument has no such run
    and no white space at either end. *)
Theorem X16_markdownFromText (text : string) :
  asciiOnly text = true ->
  asciiOnly (markdownFromText text) = true /\
  (forall a b, markdownFromText text <> a +:+ threeLineFeeds +:+ b) /\
  noBlankEnds (markdownFromText text) /\
  visible (markdownFromText text) = visible text /\
  String.length (markdownFromText text) <= String.length text /\
  markdownFromText (markdownFromText text) = markdownFromText text /\
  (markdownFromText text = text <->
     (forall a b, text <> a +:+ threeLineFeeds +:+ b) /\ noBlankEnds text).
Proof.
  intros Hascii.
  assert (Hrun : longRun (markdownFromText text) = false).
  { apply trim_longRun. apply collapseFrom_runs. }
  assert (Hno : forall a b, markdownFromText text <> a +:+ threeLineFeeds +:+ b).
  { intros a b E. rewrite E, longRun_threeLineFeeds in Hrun. discriminate. }
  assert (Hfix : forall t, longRun t = false -> noBlankEnds t -> markdownFromText t = t).
  { intros t Ht Hends. unfold markdownFromText.
    rewrite (collapseFrom_fixed t 0 Ht); [exact (trim_fixed t Hends)|].
    pose proof (longRun_leading _ Ht). lia. }
  assert (Hends : noBlankEnds (markdownFromText text)) by apply trim_ends.
  split; [apply trim_ascii, collapseFrom_ascii; exact Hascii|].
  split; [exact Hno|]. split; [exact Hends|]. split; [|split; [|split]].
  - unfold markdownFromText. rewrite trim_visible. apply collapseFrom_visible.
  - unfold markdownFromText. pose proof (trim_length (collapseFrom 0 text)).
    pose proof (collapseFrom_length text 0). lia.
  - apply Hfix; assumption.
  - split.
    + intros E. rewrite <- E. split; assumption.
    + intros [Hn He]. apply Hfix; [|exact He].
      destruct (longRun text) eqn:El; [|reflexivity].
      destruct (longRun_found _ El) as (a & b & E). destruct (Hn a b E).
Qed.

(** An instance: an indented text with four line feeds in a row and
    trailing white space. *)
Lemma X16_markdownFromText_witness :
  asciiOnly untidy = true /\
  markdownFromText untidy = tidy /\
  noBlankEnds (markdownFromText untidy) /\
  visible (markdownFromText untidy) = visible untidy /\
  markdownFromText (markdownFromText untidy) = markdownFromText untidy.
Proof.
  assert (H : asciiOnly untidy = true) by (vm_compute; reflexivity).
  split; [exact H|]. split; [vm_compute; reflexivity|].
  destruct (X16_markdownFromText untidy H) as (_ & _ & Hends & Hvisible & _ & Hagain & _).
  split; [exact Hends|]. split; [exact Hvisible | exact Hagain].
Defined.

(** * Properties of [runWebSearch] *)

Section Searching.

Variable env : gmap string string.

Lemma envTruthy_nonempty name s : envTruthy env name = Some s -> s <> "".
Proof.
  unfold envTruthy. destruct (env !! name) as [[|c r]|]; try discriminate.
  intros [= <-]. discriminate.
Qed.

Lemma searchCallFor_resolved params :
  match searchCallFor env (resolveProvider env) params with
  | inl error =>
      error = missingBraveApiKey /\
      envSet env "BRAVE_API_KEY" = false /\ envSet env "PERPLEXITY_API_KEY" = false /\
      envSet env "OPENROUTER_API_KEY" = false
  | inr (CallBrave p) =>
      envTruthy env "BRAVE_API_KEY" = Some (braveApiKey p) /\
      braveCount p = mathMin MAX_SEARCH_COUNT
                       (mathMax (Int 1) (default DEFAULT_SEARCH_COUNT (count params))) /\
      braveQuery p = query params /\
      braveCountry p = country params /\ braveFreshness p = freshness params
  | inr (CallPerplexity p) =>
      envSet env "BRAVE_API_KEY" = false /\
      resolvePerplexityAuth env =
        Some {| apiKey := perplexityApiKey p; baseUrl := perplexityBaseUrl p |} /\
      perplexityQuery p = query params
  end.
Proof.
  unfold searchCallFor, resolveProvider, resolvePerplexityAuth, envSet.
  destruct (envTruthy env "BRAVE_API_KEY") as [bk|] eqn:Eb;
    destruct (envTruthy env "PERPLEXITY_API_KEY") as [pk|] eqn:Ep;
    destruct (envTruthy env "OPENROUTER_API_KEY") as [ok|] eqn:Eo;
    cbn [orb negb]; rewrite ?Eb, ?Ep, ?Eo;
    cbn [braveApiKey braveCount braveQuery braveCountry braveFreshness
         perplexityApiKey perplexityBaseUrl perplexityQuery apiKey baseUrl];
    repeat split; reflexivity.
Qed.

Lemma searchCallFor_same_shape params params' :
  match searchCallFor env (resolveProvider env) params,
        searchCallFor env (resolveProvider env) params' with
  | inl _, inl _ | inr _, inr _ => True
  | _, _ => False
  end.
Proof.
  unfold searchCallFor. destruct (resolveProvider env).
  - destruct (envTruthy env "BRAVE_API_KEY"); exact I.
  - destruct (resolvePerplexityAuth env); exact I.
Qed.

Lemma readCache_cases {A : Type} k now (cache : gmap string (CacheEntry A)) :
  (cache !! k = None /\ readCache k now cache = (None, cache)) \/
  (exists entry, cache !! k = Some entry /\ (expiresAt entry < now)%Z /\
                 readCache k now cache = (None, delete k cache)) \/
  (exists entry, cache !! k = Some entry /\ (now <= expiresAt entry)%Z /\
                 readCache k now cache = (Some (cached entry), cache)).
Proof.
  unfold readCache. destruct (cache !! k) as [entry|]; [|left; split; reflexivity].
  right. destruct (Z.gtb_spec now (expiresAt entry)) as [Hgt|Hle].
  - left. exists entry. repeat split; [lia].
  - right. exists entry. repeat split; exact Hle.
Qed.

Lemma readCache_written {A : Type} k (v : A) written now (cache : gmap string (CacheEntry A)) :
  (now <= written + CACHE_TTL_MS)%Z ->
  readCache k now (writeCache k v written cache) = (Some v, writeCache k v written cache).
Proof.
  intros H. unfold readCache, writeCache. rewrite lookup_insert_eq. cbn [expiresAt cached].
  destruct (Z.gtb_spec now (written + CACHE_TTL_MS)) as [Hgt|Hle]; [lia | reflexivity].
Qed.

Lemma readCache_expired {A : Type} k (v : A) written now (cache : gmap string (CacheEntry A)) :
  (written + CACHE_TTL_MS < now)%Z ->
  fst (readCache k now (writeCache k v written cache)) = None.
Proof.
  intros H. unfold readCache, writeCache. rewrite lookup_insert_eq. cbn [expiresAt cached].
  destruct (Z.gtb_spec now (written + CACHE_TTL_MS)) as [Hgt|Hle]; [reflexivity | lia].
Qed.

Lemma clamped_count (n : number) :
  match n with
  | NaN => mathMin MAX_SEARCH_COUNT (mathMax (Int 1) n) = NaN
  | _ => exists c, mathMin MAX_SEARCH_COUNT (mathMax (Int 1) n) = Int c /\ (1 <= c <= 10)%Z
  end.
Proof.
  destruct n as [z| |[|]]; cbn [mathMin mathMax MAX_SEARCH_COUNT].
  - eexists. split; [reflexivity | lia].
  - reflexivity.
  - eexists. split; [reflexivity | lia].
  - eexists. split; [reflexivity | lia].
Qed.

End Searching.

(** X17. A run of [runWebSearch].  A live cache entry is returned, marked
    [cached], with no search and the cache left alone.  Otherwise, with none
    of the three keys set the run returns the [missing_brave_api_key] object
    without searching (the [missing_api_key] object is never produced by
    the run itself); with a key set it makes exactly one search call, and
    caches the result, with [tookMs] set, only when that call is fulfilled.
    Brave is called with the Brave key and a count between 1 and 10 (5 when
    none is given, NaN when NaN is given); Perplexity is called only when
    the Brave key is not set, with a key that is not empty. *)
Theorem X17_runWebSearch
    (env : gmap string string) (search : SearchCall -> Settled JsObject) (params : SearchParams)
    (tRead tStart tEnd tWrite : Z) (cache : gmap string (CacheEntry JsObject)) :
  let run := runWebSearch env search params tRead tStart tEnd tWrite cache in
  let cacheKey := searchCacheKey (resolveProvider env) params in
  let noKey := envSet env "BRAVE_API_KEY" = false /\
               envSet env "PERPLEXITY_API_KEY" = false /\
               envSet env "OPENROUTER_API_KEY" = false in
  (forall hit, fst (readCache cacheKey tRead cache) = Some hit ->
     outcome run = Fulfilled (setProp "cached" (VBool true) hit) /\
     calls run = [] /\ cacheAfter run = cache) /\
  (fst (readCache cacheKey tRead cache) = None -> noKey ->
     outcome run = Fulfilled missingBraveApiKey /\
     calls run = [] /\ cacheAfter run = snd (readCache cacheKey tRead cache)) /\
  (fst (readCache cacheKey tRead cache) = None -> ~ noKey ->
     exists call, calls run = [call] /\
       ((forall result, search call = Fulfilled result ->
           let timed := setProp "tookMs" (VNum (Int (tEnd - tStart))) result in
           outcome run = Fulfilled timed /\
           cacheAfter run = writeCache cacheKey timed tWrite
                              (snd (readCache cacheKey tRead cache))) /\
        (forall error, search call = Rejected error ->
           outcome run = Rejected error /\
           cacheAfter run = snd (readCache cacheKey tRead cache)))) /\
  (forall p, In (CallBrave p) (calls run) ->
     envTruthy env "BRAVE_API_KEY" = Some (braveApiKey p) /\
     braveQuery p = query params /\
     (count params = None -> braveCount p = Int 5) /\
     (count params = Some NaN -> braveCount p = NaN) /\
     (count params <> Some NaN -> exists c, braveCount p = Int c /\ (1 <= c <= 10)%Z)) /\
  (forall p, In (CallPerplexity p) (calls run) ->
     envSet env "BRAVE_API_KEY" = false /\
     perplexityApiKey p <> "" /\ perplexityQuery p = query params /\
     resolvePerplexityAuth env =
       Some {| apiKey := perplexityApiKey p; baseUrl := perplexityBaseUrl p |}).
Proof.
  cbv zeta. unfold runWebSearch.
  pose proof (searchCallFor_resolved env params) as Hcall.
  set (cacheKey := searchCacheKey (resolveProvider env) params) in *.
  assert (Hread : forall hit, fst (readCache cacheKey tRead cache) = Some hit ->
                              readCache cacheKey tRead cache = (Some hit, cache)).
  { intros hit H.
    destruct (readCache_cases cacheKey tRead cache) as [[_ E]|[(e & _ & _ & E)|(e & _ & _ & E)]];
      rewrite E in H |- *; cbn [fst] in H; congruence. }
  destruct (readCache cacheKey tRead cache) as [[hit|] cache1] eqn:Er; cbn [fst snd].
  - specialize (Hread hit eq_refl). injection Hread as <-.
    cbn [outcome calls cacheAfter]. split; [|split; [|split; [|split]]].
    + intros hit' [= <-]. repeat split.
    + discriminate.
    + discriminate.
    + intros p [].
    + intros p [].
  - clear Hread.
    destruct (searchCallFor env (resolveProvider env) params) as [error|call] eqn:Ec.
    + destruct Hcall as (-> & Hb & Hp & Ho). cbn [outcome calls cacheAfter].
      split; [discriminate|]. split; [intros _ _; repeat split|].
      split; [intros _ Hkey; destruct Hkey; repeat split; assumption|].
      split; intros p [].
    + assert (Hkeys : ~ (envSet env "BRAVE_API_KEY" = false /\
                         envSet env "PERPLEXITY_API_KEY" = false /\
                         envSet env "OPENROUTER_API_KEY" = false)).
      { intros (Hb & Hp & Ho). destruct call as [p|p].
        - destruct Hcall as (Hk & _). unfold envSet in Hb. rewrite Hk in Hb. discriminate.
        - destruct Hcall as (_ & Ha & _). unfold resolvePerplexityAuth in Ha.
          unfold envSet in Hp, Ho.
          destruct (envTruthy env "PERPLEXITY_API_KEY"); [discriminate|].
          destruct (envTruthy env "OPENROUTER_API_KEY"); discriminate. }
      assert (Hcalls : calls (match search call with
                              | Fulfilled result =>
                                  {| outcome := Fulfilled (setProp "tookMs" (VNum (Int (tEnd - tStart))) result);
                                     cacheAfter := writeCache cacheKey
                                                     (setProp "tookMs" (VNum (Int (tEnd - tStart))) result)
                                                     tWrite cache1;
                                     calls := [call] |}
                              | Rejected error =>
                                  {| outcome := Rejected error; cacheAfter := cache1;
                                     calls := [call] |}
                              end) = [call])
        by (destruct (search call); reflexivity).
      split; [discriminate|]. split; [intros _ Hno; destruct (Hkeys Hno)|].
      split; [|split].
      * intros _ _. exists call. split; [exact Hcalls|]. split.
        -- intros result ->. split; reflexivity.
        -- intros error ->. split; reflexivity.
      * intros p Hin. rewrite Hcalls in Hin. destruct Hin as [->|[]].
        destruct Hcall as (Hk & Hn & Hq & _). split; [exact Hk|]. split; [exact Hq|].
        rewrite Hn.
        pose proof (clamped_count (default DEFAULT_SEARCH_COUNT (count params))) as Hc.
        destruct (count params) as [[z| |b]|]; cbn [default] in *.
        -- split; [discriminate|]. split; [discriminate|]. intros _. exact Hc.
        -- split; [discriminate|]. split; [intros _; exact Hc|]. intros H; congruence.
        -- split; [discriminate|]. split; [discriminate|]. intros _. exact Hc.
        -- split; [intros _; reflexivity|]. split; [discriminate|]. intros _. exact Hc.
      * intros p Hin. rewrite Hcalls in Hin. destruct Hin as [->|[]].
        destruct Hcall as (Hb & Ha & Hq). split; [exact Hb|]. split; [|split; assumption].
        unfold resolvePerplexityAuth in Ha.
        destruct (envTruthy env "PERPLEXITY_API_KEY") as [pk|] eqn:Ep.
        -- injection Ha as <- _. exact (envTruthy_nonempty env _ _ Ep).
        -- destruct (envTruthy env "OPENROUTER_API_KEY") as [ok|] eqn:Eo; [|discriminate].
           injection Ha as <- _. exact (envTruthy_nonempty env _ _ Eo).
Qed.

(** An instance: a search with the Brave key alone, from an empty cache;
    the same search with no key at all; and a search answered from the
    cache. *)
Lemma X17_runWebSearch_witness :
  let run := runWebSearch braveOnly nothingFound (searchFor None) 0 1 8 9 ∅ in
  let asked := {| braveQuery := "rocq"; braveCount := Int 10; braveApiKey := "BSA-1";
                  braveCountry := None; braveFreshness := None |} in
  let warm := writeCache "search:brave:rocq:50" payload 0 ∅ in
  (exists call, calls run = [call]) /\
  (exists c, braveCount asked = Int c /\ (1 <= c <= 10)%Z) /\
  outcome (runWebSearch ∅ nothingFound (searchFor None) 0 1 8 9 ∅) =
    Fulfilled missingBraveApiKey /\
  outcome (runWebSearch braveOnly serviceDown (searchFor None) 10 11 18 19 warm) =
    Fulfilled (setProp "cached" (VBool true) payload) /\
  (forall p, In (CallPerplexity p)
               (calls (runWebSearch perplexityOnly nothingFound (searchFor None) 0 1 8 9 ∅)) ->
             perplexityApiKey p <> "").
Proof.
  cbv zeta.
  destruct (X17_runWebSearch braveOnly nothingFound (searchFor None) 0 1 8 9 ∅)
    as (_ & _ & Hsearch & Hbrave & _).
  destruct (X17_runWebSearch ∅ nothingFound (searchFor None) 0 1 8 9 ∅)
    as (_ & Hnone & _).
  destruct (X17_runWebSearch braveOnly serviceDown (searchFor None) 10 11 18 19
              (writeCache "search:brave:rocq:50" payload 0 ∅)) as (Hhit & _).
  destruct (X17_runWebSearch perplexityOnly nothingFound (searchFor None) 0 1 8 9 ∅)
    as (_ & _ & _ & _ & Hperplexity).
  split; [|split; [|split; [|split]]].
  - destruct Hsearch as (call & Hcall & _).
    + vm_compute. reflexivity.
    + intros (Hb & _). vm_compute in Hb. discriminate Hb.
    + exists call. exact Hcall.
  - refine (proj2 (proj2 (proj2 (proj2 (Hbrave _ _)))) _).
    + vm_compute. left. reflexivity.
    + discriminate.
  - refine (proj1 (Hnone _ _)).
    + vm_compute. reflexivity.
    + repeat split; vm_compute; reflexivity.
  - refine (proj1 (Hhit payload _)). vm_compute. reflexivity.
  - intros p Hin. exact (proj1 (proj2 (Hperplexity p Hin))).
Defined.

(** X18. The result of a search that was made is served from the cache for
    five minutes: a later run in the same environment, for the same query
    and the same count (an absent count being 5), whatever its country and
    freshness, returns that result marked [cached] without searching, if it
    reads the clock no later than [CACHE_TTL_MS] after the result was
    written; a run that reads it later searches again. *)
Theorem X18_search_served_from_cache
    (env : gmap string string) (search search' : SearchCall -> Settled JsObject)
    (params params' : SearchParams) (tRead tStart tEnd tWrite tRead' tStart' tEnd' tWrite' : Z)
    (cache : gmap string (CacheEntry JsObject)) (result : JsObject) :
  let first := runWebSearch env search params tRead tStart tEnd tWrite cache in
  let second := runWebSearch env search' params' tRead' tStart' tEnd' tWrite' (cacheAfter first) in
  outcome first = Fulfilled result -> calls first <> [] ->
  query params' = query params ->
  default DEFAULT_SEARCH_COUNT (count params') = default DEFAULT_SEARCH_COUNT (count params) ->
  ((tRead' <= tWrite + CACHE_TTL_MS)%Z ->
     outcome second = Fulfilled (setProp "cached" (VBool true) result) /\
     calls second = [] /\ cacheAfter second = cacheAfter first) /\
  ((tWrite + CACHE_TTL_MS < tRead')%Z -> exists call, calls second = [call]).
Proof.
  cbv zeta. intros Hout Hcalls Hq Hc.
  assert (Hkey : searchCacheKey (resolveProvider env) params' =
                 searchCacheKey (resolveProvider env) params).
  { unfold searchCacheKey. rewrite Hq, Hc. reflexivity. }
  pose proof (searchCallFor_same_shape env params params') as Hshape.
  unfold runWebSearch in Hout, Hcalls |- *. rewrite Hkey.
  set (cacheKey := searchCacheKey (resolveProvider env) params) in *.
  destruct (readCache cacheKey tRead cache) as [[hit|] cache1];
    [cbn [calls] in Hcalls; congruence|].
  destruct (searchCallFor env (resolveProvider env) params) as [error|call];
    [cbn [calls] in Hcalls; congruence|].
  destruct (search call) as [found|error]; [|cbn [outcome] in Hout; discriminate].
  cbn [outcome cacheAfter] in Hout |- *. injection Hout as Hres. rewrite Hres.
  split.
  - intros Ht. rewrite (readCache_written cacheKey result tWrite tRead' cache1 Ht).
    cbn [outcome calls cacheAfter]. repeat split.
  - intros Ht.
    pose proof (readCache_expired cacheKey result tWrite tRead' cache1 Ht) as Hnone.
    destruct (readCache cacheKey tRead' (writeCache cacheKey result tWrite cache1))
      as [[hit|] cache2]; [discriminate|].
    destruct (searchCallFor env (resolveProvider env) params') as [error|call'];
      [destruct Hshape|].
    exists call'. destruct (search' call'); reflexivity.
Qed.

(** An instance: the search repeated for Germany five minutes later, while
    the service is down. *)
Lemma X18_search_served_from_cache_witness :
  let first := runWebSearch braveOnly nothingFound (searchFor None) 0 1 8 9 ∅ in
  let second := runWebSearch braveOnly serviceDown (searchFor (Some "DE"))
                  300009 300010 300011 300012 (cacheAfter first) in
  outcome second =
    Fulfilled [("query", VStr "rocq"); ("provider", VStr "brave"); ("count", VNum (Int 0));
               ("results", VArr []); ("tookMs", VNum (Int 7)); ("cached", VBool true)] /\
  calls second = [] /\ cacheAfter second = cacheAfter first.
Proof.
  cbv zeta.
  refine (proj1 (X18_search_served_from_cache braveOnly nothingFound serviceDown
                   (searchFor None) (searchFor (Some "DE")) 0 1 8 9 300009 300010 300011 300012 ∅
                   [("query", VStr "rocq"); ("provider", VStr "brave"); ("count", VNum (Int 0));
                    ("results", VArr []); ("tookMs", VNum (Int 7))] _ _ _ _) _).
  - vm_compute. reflexivity.
  - vm_compute. discriminate.
  - reflexivity.
  - reflexivity.
  - vm_compute. discriminate.
Defined.

(** * Properties of [runWebFetch] *)

Section Fetching.

Lemma truncateAt_whole text (m : Z) :
  (0 <= m)%Z ->
  String.length (fst (truncateAt text (Int m))) <= Z.to_nat m + 13 /\
  (snd (truncateAt text (Int m)) = false ->
     fst (truncateAt text (Int m)) = text /\ String.length text <= Z.to_nat m) /\
  (snd (truncateAt text (Int m)) = true ->
     Z.to_nat m < String.length text /\
     String.length (fst (truncateAt text (Int m))) = Z.to_nat m + 13).
Proof.
  intros Hm. cbn [truncateAt]. rewrite (proj2 (Z.leb_le 0 m) Hm). unfold truncate.
  destruct (Nat.leb_spec (String.length text) (Z.to_nat m)) as [H|H]; cbn [fst snd].
  - split; [lia|]. split; [intros _; split; [reflexivity | exact H] | discriminate].
  - rewrite length_append_s, length_substring_0 by lia.
    change (String.length truncationMarker) with 13.
    split; [lia|]. split; [discriminate | intros _; split; [exact H | reflexivity]].
Qed.

Lemma fetch_limit (n : number) :
  match mathMax (Int 100) n with
  | Int m => (100 <= m)%Z
  | NaN => n = NaN
  | Infinity negative => negative = false
  end.
Proof. destruct n as [z| |[|]]; cbn [mathMax]; try reflexivity; lia. Qed.

Lemma extract_extractor web url mode contentType body name text title :
  extract web url mode contentType body = Fulfilled (name, text, title) ->
  In name ["raw"; "cf-markdown"; "readability"; "json"] /\
  (title <> None -> name = "readability") /\
  (name = "raw" -> text = body) /\
  (name = "readability" -> includes "text/html" contentType = true /\ text <> "").
Proof.
  unfold extract.
  destruct (includes "text/markdown" contentType).
  { intros [= <- <- <-]. cbn [In]. repeat split; try tauto; try discriminate; congruence. }
  destruct (includes "text/html" contentType).
  { destruct (htmlToMarkdown web body url) as [[readableText readableTitle]|error];
      [|discriminate].
    destruct readableText as [|c rest]; cbn [truthy].
    - intros [= <- <- <-]. cbn [In]. repeat split; try tauto; try discriminate; congruence.
    - intros [= <- <- <-]. cbn [In]. repeat split; try tauto; discriminate. }
  destruct (includes "application/json" contentType).
  { destruct (prettyJSON web body) as [pretty|];
      intros [= <- <- <-]; cbn [In]; repeat split; try tauto; try discriminate; congruence. }
  intros [= <- <- <-]. cbn [In]. repeat split; try tauto; try discriminate; congruence.
Qed.

End Fetching.

(** X19. A run of [runWebFetch].  A live cache entry is returned, marked
    [cached], without a request and before the URL is looked at.  Otherwise
    a URL that does not parse, or whose protocol is neither [http:] nor
    [https:], is rejected without a request; at most one request is made,
    for the URL given, and only for such a protocol; a response that is not
    ok is rejected with its status, whatever its body; and a run that is
    rejected caches nothing.  A payload that was fetched is cached under the
    key of the run; its [length] is the length of its text, its extractor is
    one of four, and only the readability extractor gives a title.  The
    limit is at least 100 characters; the text is at most 13 characters
    longer than the limit, and within the limit when not flagged truncated.
    With a NaN limit the text is the truncation marker alone. *)
Theorem X19_runWebFetch
    (web : Web) (params : FetchParams) (tRead tStart tEnd tWrite : Z)
    (cache : gmap string (CacheEntry FetchPayload)) :
  let run := runWebFetch web params tRead tStart tEnd tWrite cache in
  let limit := mathMax (Int 100) (default DEFAULT_MAX_CHARS (maxChars params)) in
  let cacheKey :=
    fetchCacheKey (url params) (default "markdown" (extractMode params)) limit in
  (forall hit, fst (readCache cacheKey tRead cache) = Some hit ->
     fetchOutcome run = Fulfilled {| fetched := hit; markedCached := true |} /\
     fetchCalls run = [] /\ fetchCacheAfter run = cache) /\
  (fst (readCache cacheKey tRead cache) = None ->
   (forall protocol, protocolOf web (url params) = Some protocol ->
      protocol <> "http:" /\ protocol <> "https:") ->
     fetchOutcome run = Rejected invalidUrl /\ fetchCalls run = []) /\
  (length (fetchCalls run) <= 1 /\
   forall requested, In requested (fetchCalls run) ->
     requested = url params /\
     (protocolOf web requested = Some "http:" \/ protocolOf web requested = Some "https:")) /\
  (forall res, In (url params) (fetchCalls run) ->
     fetch web (url params) = Fulfilled res -> resOk res = false ->
     fetchOutcome run = Rejected (fetchFailed res)) /\
  (forall error, fetchOutcome run = Rejected error ->
     fetchCacheAfter run = snd (readCache cacheKey tRead cache)) /\
  (forall p, fetchOutcome run = Fulfilled {| fetched := p; markedCached := false |} ->
     fetchCalls run = [url params] /\
     fetchCacheAfter run = writeCache cacheKey p tWrite (snd (readCache cacheKey tRead cache)) /\
     payloadUrl p = url params /\ tookMs p = (tEnd - tStart)%Z /\
     textLength p = String.length (text p) /\
     In (extractor p) ["raw"; "cf-markdown"; "readability"; "json"] /\
     (title p <> None -> extractor p = "readability") /\
     match limit with
     | Int m => (100 <= m)%Z /\ textLength p <= Z.to_nat m + 13 /\
                (truncated p = false -> textLength p <= Z.to_nat m)
     | NaN => text p = truncationMarker /\ truncated p = true
     | Infinity _ => truncated p = false
     end).
Proof.
  cbv zeta. unfold runWebFetch.
  pose proof (fetch_limit (default DEFAULT_MAX_CHARS (maxChars params))) as Hlimit.
  set (limit := mathMax (Int 100) (default DEFAULT_MAX_CHARS (maxChars params))) in *.
  set (mode := default "markdown" (extractMode params)).
  set (cacheKey := fetchCacheKey (url params) mode limit).
  assert (Hread : forall hit, fst (readCache cacheKey tRead cache) = Some hit ->
                              readCache cacheKey tRead cache = (Some hit, cache)).
  { intros hit H.
    destruct (readCache_cases cacheKey tRead cache) as [[_ E]|[(e & _ & _ & E)|(e & _ & _ & E)]];
      rewrite E in H |- *; cbn [fst] in H; congruence. }
  destruct (readCache cacheKey tRead cache) as [[hit|] cache1] eqn:Er; cbn [fst snd].
  { specialize (Hread hit eq_refl). injection Hread as <-.
    cbn [fetchOutcome fetchCalls fetchCacheAfter length].
    split; [intros hit' [= <-]; repeat split|]. split; [discriminate|].
    split; [split; [lia | intros requested []]|].
    split; [intros res []|]. split; [discriminate|]. intros p [=]. }
  clear Hread. split; [discriminate|].
  destruct (protocolOf web (url params)) as [protocol|] eqn:Ep.
  2:{ cbn [fetchOutcome fetchCalls fetchCacheAfter length].
      split; [intros _ _; split; reflexivity|].
      split; [split; [lia | intros requested []]|].
      split; [intros res []|]. split; [reflexivity|]. discriminate. }
  destruct (String.eqb protocol "http:" || String.eqb protocol "https:") eqn:Ehttp;
    cbn [negb].
  2:{ cbn [fetchOutcome fetchCalls fetchCacheAfter length].
      split; [intros _ _; split; reflexivity|].
      split; [split; [lia | intros requested []]|].
      split; [intros res []|]. split; [reflexivity|]. discriminate. }
  assert (Hproto : protocolOf web (url params) = Some "http:" \/
                   protocolOf web (url params) = Some "https:").
  { rewrite Ep. apply orb_true_iff in Ehttp.
    destruct Ehttp as [E|E]; apply String.eqb_eq in E; subst protocol; [left | right];
      reflexivity. }
  split.
  { intros _ Hbad. destruct (Hbad protocol eq_refl) as [H1 H2].
    apply orb_true_iff in Ehttp. destruct Ehttp as [E|E]; apply String.eqb_eq in E;
      contradiction. }
  assert (Hone : forall requested, In requested [url params] ->
                   requested = url params /\
                   (protocolOf web requested = Some "http:" \/
                    protocolOf web requested = Some "https:")).
  { intros requested [<-|[]]. split; [reflexivity | exact Hproto]. }
  destruct (fetch web (url params)) as [res|error] eqn:Ef.
  2:{ cbn [fetchOutcome fetchCalls fetchCacheAfter length].
      split; [split; [lia | exact Hone]|]. split; [intros res _; discriminate|].
      split; [reflexivity | discriminate]. }
  destruct (resOk res) eqn:Eok; cbn [negb].
  2:{ cbn [fetchOutcome fetchCalls fetchCacheAfter length].
      split; [split; [lia | exact Hone]|].
      split; [intros res' _ [= <-] _; reflexivity|].
      split; [reflexivity | discriminate]. }
  destruct (resBody res) as [body|error].
  2:{ cbn [fetchOutcome fetchCalls fetchCacheAfter length].
      split; [split; [lia | exact Hone]|].
      split; [intros res' _ [= <-] H; congruence|].
      split; [reflexivity | discriminate]. }
  destruct (extract web (url params) mode
              (default "application/octet-stream" (resContentType res)) body)
    as [[[name extracted] heading]|error] eqn:Ex.
  2:{ cbn [fetchOutcome fetchCalls fetchCacheAfter length].
      split; [split; [lia | exact Hone]|].
      split; [intros res' _ [= <-] H; congruence|].
      split; [reflexivity | discriminate]. }
  cbn [fetchOutcome fetchCalls fetchCacheAfter length].
  split; [split; [lia | exact Hone]|].
  split; [intros res' _ [= <-] H; congruence|].
  split; [discriminate|].
  intros p [= <-]. cbn [payloadUrl tookMs textLength text extractor title truncated].
  destruct (extract_extractor _ _ _ _ _ _ _ _ Ex) as (Hname & Htitle & _).
  repeat (split; [first [reflexivity | assumption]|]).
  destruct limit as [m| |negative].
  - destruct (truncateAt_whole extracted m ltac:(lia)) as (Hlen & Hkept & _).
    split; [exact Hlimit|]. split; [exact Hlen|].
    intros Hflag. destruct (Hkept Hflag) as [-> Hfit]. exact Hfit.
  - split; reflexivity.
  - subst negative. reflexivity.
Qed.

(** An instance: the page fetched from an empty cache; an address that is
    not there; an [ftp] address; and the page served from the cache while
    the network is down. *)
Lemma X19_runWebFetch_witness :
  let home := fetchOf "https://example.org/" None in
  let missing := fetchOf "https://example.org/missing" None in
  let warm := writeCache "fetch:https://example.org/:markdown:50000" pagePayload 9 ∅ in
  (fetchCalls (runWebFetch site home 0 1 8 9 ∅) = ["https://example.org/"] /\
   textLength pagePayload <= Z.to_nat 50000 + 13) /\
  fetchOutcome (runWebFetch site missing 0 1 8 9 ∅) =
    Rejected (ErrorInstance "Web fetch failed (404): Not Found") /\
  fetchCacheAfter (runWebFetch site missing 0 1 8 9 ∅) = ∅ /\
  (fetchOutcome (runWebFetch site (fetchOf "ftp://example.org/" None) 0 1 8 9 ∅) =
     Rejected invalidUrl /\
   fetchCalls (runWebFetch site (fetchOf "ftp://example.org/" None) 0 1 8 9 ∅) = []) /\
  fetchOutcome (runWebFetch offline home 10 11 18 19 warm) =
    Fulfilled {| fetched := pagePayload; markedCached := true |}.
Proof.
  cbv zeta.
  destruct (X19_runWebFetch site (fetchOf "https://example.org/" None) 0 1 8 9 ∅)
    as (_ & _ & _ & _ & _ & Hpage).
  destruct (X19_runWebFetch site (fetchOf "https://example.org/missing" None) 0 1 8 9 ∅)
    as (_ & _ & _ & Hmissing & Hnothing & _).
  destruct (X19_runWebFetch site (fetchOf "ftp://example.org/" None) 0 1 8 9 ∅)
    as (_ & Hftp & _).
  destruct (X19_runWebFetch offline (fetchOf "https://example.org/" None) 10 11 18 19
              (writeCache "fetch:https://example.org/:markdown:50000" pagePayload 9 ∅))
    as (Hhit & _).
  split; [|split; [|split; [|split]]].
  - destruct (Hpage pagePayload) as (Hcalls & _ & _ & _ & _ & _ & _ & _ & Hlen & _).
    + vm_compute. reflexivity.
    + split; [exact Hcalls | exact Hlen].
  - refine (Hmissing {| resOk := false; resStatus := 404; resStatusText := "Not Found";
                        resContentType := None; resBody := Fulfilled "gone" |} _ _ _).
    + vm_compute. left. reflexivity.
    + vm_compute. reflexivity.
    + reflexivity.
  - refine (Hnothing (ErrorInstance "Web fetch failed (404): Not Found") _).
    vm_compute. reflexivity.
  - apply Hftp.
    + vm_compute. reflexivity.
    + intros protocol H. vm_compute in H. injection H as <-. split; discriminate.
  - refine (proj1 (Hhit pagePayload _)). vm_compute. reflexivity.
Defined.

(** X20. What was fetched is served from the cache for five minutes: a
    later run for the same URL, extraction mode and limit returns the same
    payload marked [cached], without a request and whatever the network
    would say, if it reads the clock no later than [CACHE_TTL_MS] after the
    payload was written; a run that reads it later does not answer from the
    cache. *)
Theorem X20_fetch_served_from_cache
    (web web' : Web) (params params' : FetchParams)
    (tRead tStart tEnd tWrite tRead' tStart' tEnd' tWrite' : Z)
    (cache : gmap string (CacheEntry FetchPayload)) (p : FetchPayload) :
  let first := runWebFetch web params tRead tStart tEnd tWrite cache in
  let second :=
    runWebFetch web' params' tRead' tStart' tEnd' tWrite' (fetchCacheAfter first) in
  fetchOutcome first = Fulfilled {| fetched := p; markedCached := false |} ->
  url params' = url params ->
  default "markdown" (extractMode params') = default "markdown" (extractMode params) ->
  mathMax (Int 100) (default DEFAULT_MAX_CHARS (maxChars params')) =
  mathMax (Int 100) (default DEFAULT_MAX_CHARS (maxChars params)) ->
  ((tRead' <= tWrite + CACHE_TTL_MS)%Z ->
     fetchOutcome second = Fulfilled {| fetched := p; markedCached := true |} /\
     fetchCalls second = [] /\ fetchCacheAfter second = fetchCacheAfter first) /\
  ((tWrite + CACHE_TTL_MS < tRead')%Z ->
     forall r, fetchOutcome second = Fulfilled r -> markedCached r = false).
Proof.
  cbv zeta. intros Hout Hu Hm Hl.
  unfold runWebFetch in Hout |- *. rewrite Hu, Hm, Hl.
  set (limit := mathMax (Int 100) (default DEFAULT_MAX_CHARS (maxChars params))) in *.
  set (mode := default "markdown" (extractMode params)) in *.
  set (cacheKey := fetchCacheKey (url params) mode limit) in *.
  destruct (readCache cacheKey tRead cache) as [[hit|] cache1];
    [cbn [fetchOutcome] in Hout; discriminate|].
  destruct (protocolOf web (url params)) as [protocol|];
    [|cbn [fetchOutcome] in Hout; discriminate].
  destruct (negb (String.eqb protocol "http:" || String.eqb protocol "https:"));
    [cbn [fetchOutcome] in Hout; discriminate|].
  destruct (fetch web (url params)) as [res|error];
    [|cbn [fetchOutcome] in Hout; discriminate].
  destruct (negb (resOk res)); [cbn [fetchOutcome] in Hout; discriminate|].
  destruct (resBody res) as [body|error]; [|cbn [fetchOutcome] in Hout; discriminate].
  destruct (extract web (url params) mode
              (default "application/octet-stream" (resContentType res)) body)
    as [[[name extracted] heading]|error]; [|cbn [fetchOutcome] in Hout; discriminate].
  cbn [fetchOutcome fetchCacheAfter] in Hout |- *. injection Hout as Hp. rewrite Hp.
  split.
  - intros Ht. rewrite (readCache_written cacheKey p tWrite tRead' cache1 Ht).
    cbn [fetchOutcome fetchCalls fetchCacheAfter]. repeat split.
  - intros Ht r.
    pose proof (readCache_expired cacheKey p tWrite tRead' cache1 Ht) as Hnone.
    destruct (readCache cacheKey tRead' (writeCache cacheKey p tWrite cache1))
      as [[hit|] cache2]; [discriminate|].
    destruct (protocolOf web' (url params)) as [protocol'|]; [|discriminate].
    destruct (negb (String.eqb protocol' "http:" || String.eqb protocol' "https:"));
      [discriminate|].
    destruct (fetch web' (url params)) as [res'|error']; [|discriminate].
    destruct (negb (resOk res')); [discriminate|].
    destruct (resBody res') as [body'|error']; [|discriminate].
    destruct (extract web' (url params) mode
                (default "application/octet-stream" (resContentType res')) body')
      as [[[name' extracted'] heading']|error']; [|discriminate].
    cbn [fetchOutcome]. intros [= <-]. reflexivity.
Qed.

(** An instance: the page fetched, and asked for again five minutes later
    while the network is down. *)
Lemma X20_fetch_served_from_cache_witness :
  let first := runWebFetch site (fetchOf "https://example.org/" None) 0 1 8 9 ∅ in
  let second := runWebFetch offline (fetchOf "https://example.org/" (Some (Int 50000)))
                  300009 300010 300011 300012 (fetchCacheAfter first) in
  fetchOutcome second = Fulfilled {| fetched := pagePayload; markedCached := true |} /\
  fetchCalls second = [] /\ fetchCacheAfter second = fetchCacheAfter first.
Proof.
  cbv zeta.
  refine (proj1 (X20_fetch_served_from_cache site offline
                   (fetchOf "https://example.org/" None)
                   (fetchOf "https://example.org/" (Some (Int 50000)))
                   0 1 8 9 300009 300010 300011 300012 ∅ pagePayload _ _ _ _) _).
  - vm_compute. reflexivity.
  - reflexivity.
  - reflexivity.
  - reflexivity.
  - vm_compute. discriminate.
Defined.

(** X21. [htmlToMarkdown] gives a text that is not empty only when an
    article was found whose text content has something other than white
    space, and the text is then the article's content, or its text content
    when the content is missing or empty; a title comes only with such a
    text and is never the empty string. *)
Theorem X21_htmlToMarkdown (web : Web) (html url readableText : string)
    (readableTitle : option string) :
  htmlToMarkdown web html url = Fulfilled (readableText, readableTitle) ->
  (readableTitle <> None -> readableText <> "") /\
  readableTitle <> Some "" /\
  (readableText <> "" ->
     exists article plain,
       parseArticle web html url = Fulfilled (Some article) /\
       articleTextContent article = Some plain /\ trim plain <> "" /\
       (articleContent article = Some readableText \/
        truthy (articleContent article) = false /\ plain = readableText) /\
       (readableTitle = None \/ readableTitle = articleTitle article)).
Proof.
  unfold htmlToMarkdown.
  destruct (parseArticle web html url) as [[article|]|error]; [| |discriminate].
  2:{ intros [= <- <-]. repeat split; congruence. }
  destruct (articleTextContent article) as [plain|] eqn:Ep; cbn [option_map truthy].
  2:{ cbn [negb]. intros [= <- <-]. repeat split; congruence. }
  destruct (trim plain) as [|c rest] eqn:Et; cbn [negb].
  { intros [= <- <-]. repeat split; congruence. }
  assert (Hplain : plain <> "") by (intros ->; discriminate Et).
  intros [= <- <-].
  assert (Htext : default "" (if truthy (articleContent article)
                              then articleContent article else Some plain) <> "").
  { destruct (articleContent article) as [[|d body]|]; cbn [truthy default];
      [exact Hplain | discriminate | exact Hplain]. }
  split; [intros _; exact Htext|]. split.
  - destruct (articleTitle article) as [[|d heading]|]; cbn [truthy]; discriminate.
  - intros _. exists article, plain. split; [reflexivity|]. split; [exact Ep|].
    split; [rewrite Et; discriminate|]. split.
    + destruct (articleContent article) as [[|d body]|]; cbn [truthy default];
        [right | left | right]; try split; reflexivity.
    + destruct (articleTitle article) as [[|d heading]|]; cbn [truthy];
        [left | right | left]; reflexivity.
Qed.

(** An instance: an article with a content and a title. *)
Lemma X21_htmlToMarkdown_witness :
  htmlToMarkdown blog "<html></html>" "https://example.org/" =
    Fulfilled ("<p>Hello</p>", Some "Greeting") /\
  (Some "Greeting" <> None -> "<p>Hello</p>" <> "") /\
  Some "Greeting" <> Some "".
Proof.
  assert (H : htmlToMarkdown blog "<html></html>" "https://example.org/" =
              Fulfilled ("<p>Hello</p>", Some "Greeting")) by (vm_compute; reflexivity).
  split; [exact H|].
  destruct (X21_htmlToMarkdown blog "<html></html>" "https://example.org/"
              "<p>Hello</p>" (Some "Greeting") H) as (Htitle & Hnonempty & _).
  split; [exact Htitle | exact Hnonempty].
Defined.
